(** * Calibration tools: the voxel-stack blender pipeline and the slice-editor project

    A shallow embedding of
    - [processing_pipeline.py] (class [ProcessingPipelineThread]): file
      scanning, the mask-history deque, the submission loop, the completion
      loop, the repack gate and the cleanup;
    - [project.py] (class [Project]): the per-layer edit lists with their
      undo and redo stacks.

    Python [str] values are modelled as [string]; the character classes of
    the regular expression and [str.lower] are the ASCII ones.  Paths follow
    [posixpath]. *)

From Stdlib Require Import ZArith List String Ascii Bool Arith Lia.
From Stdlib Require Import Sorted Permutation DecimalString Floats.
From stdpp Require Import gmap strings.
Import ListNotations.
Local Open Scope string_scope.
Local Open Scope list_scope.

(** ** Python strings and [os.path] *)

Module PyStr.

Definition chars (s : string) : list ascii := list_ascii_of_string s.
Definition str (l : list ascii) : string := string_of_list_ascii l.

Definition code (c : ascii) : nat := nat_of_ascii c.

Definition is_digit (c : ascii) : bool := (48 <=? code c)%nat && (code c <=? 57)%nat.
Definition is_upper (c : ascii) : bool := (65 <=? code c)%nat && (code c <=? 90)%nat.
Definition is_lower (c : ascii) : bool := (97 <=? code c)%nat && (code c <=? 122)%nat.

(** [\w] *)
Definition is_word (c : ascii) : bool :=
  is_digit c || is_upper c || is_lower c || Ascii.eqb c "_".

Definition lower_char (c : ascii) : ascii :=
  if is_upper c then ascii_of_nat (code c + 32) else c.

(** [s.lower()] *)
Definition lower (s : string) : string := str (map lower_char (chars s)).

Fixpoint chars_eqb (a b : list ascii) : bool :=
  match a, b with
  | [], [] => true
  | x :: a', y :: b' => Ascii.eqb x y && chars_eqb a' b'
  | _, _ => false
  end.

(** [s.endswith(suffix)] *)
Definition endswith (s suffix : string) : bool :=
  let l := chars s in
  let x := chars suffix in
  (length x <=? length l)%nat && chars_eqb (skipn (length l - length x) l) x.

(** [s.startswith(prefix)] *)
Definition startswith (s pre : string) : bool := String.prefix pre s.

(** [s.rfind(c)]: the highest index holding [c], or [-1]. *)
Fixpoint rfind_from (c : ascii) (l : list ascii) (i best : Z) : Z :=
  match l with
  | [] => best
  | x :: t => rfind_from c t (i + 1)%Z (if Ascii.eqb x c then i else best)
  end.

Definition rfind (c : ascii) (s : string) : Z := rfind_from c (chars s) 0%Z (-1)%Z.

(** [str(n)] for a natural number. *)
Definition of_nat (n : nat) : string := NilZero.string_of_uint (Nat.to_uint n).

End PyStr.

Module OsPath.
Import PyStr.

Definition sep : ascii := "/"%char.

(** [posixpath.basename]: [i = p.rfind('/') + 1; return p[i:]]. *)
Definition basename (p : string) : string :=
  let i := (rfind sep p + 1)%Z in
  str (skipn (Z.to_nat i) (chars p)).

(** [posixpath.join(a, b)]. *)
Definition join (a b : string) : string :=
  if startswith b "/" then b
  else if (String.eqb a "" || endswith a "/")%bool then a +:+ b
  else a +:+ "/" +:+ b.

End OsPath.

(** ** [get_numeric_part]: the pattern [(\d+)\.\w+$] *)

Module Numeric.
Import PyStr.

(** The key returned by [get_numeric_part]: an [int], or [float('inf')]. *)
Inductive sort_key : Type :=
| Idx (n : Z)
| Inf.

Definition key_leb (a b : sort_key) : bool :=
  match a, b with
  | Idx x, Idx y => (x <=? y)%Z
  | Idx _, Inf => true
  | Inf, Idx _ => false
  | Inf, Inf => true
  end.

Definition key_ltb (a b : sort_key) : bool := negb (key_leb b a).

Definition key_le (a b : sort_key) : Prop := key_leb a b = true.

(** The longest prefix of [l] whose characters satisfy [p], and the rest. *)
Fixpoint span (p : ascii -> bool) (l : list ascii) : list ascii * list ascii :=
  match l with
  | [] => ([], [])
  | c :: t =>
      if p c then let (a, b) := span p t in (c :: a, b) else ([], l)
  end.

(** [$] without [re.MULTILINE]: the end of the string, or just before a
    newline that ends the string. *)
Definition at_end (l : list ascii) : bool :=
  match l with
  | [] => true
  | [c] => Ascii.eqb c "010"
  | _ => false
  end.

(** A match of [(\d+)\.\w+$] that starts at the head of [l]; the result is
    group 1.  Both repetitions are greedy; giving back a character of
    either leaves a digit in front of [\.], or a word character in front
    of [$], so only the longest runs can match. *)
Definition match_here (l : list ascii) : option (list ascii) :=
  let (ds, r1) := span is_digit l in
  match ds, r1 with
  | _ :: _, dot :: r2 =>
      if Ascii.eqb dot "." then
        let (ws, r3) := span is_word r2 in
        match ws with
        | _ :: _ => if at_end r3 then Some ds else None
        | [] => None
        end
      else None
  | _, _ => None
  end.

(** [numeric_pattern.search]: the match with the leftmost start. *)
Fixpoint search (l : list ascii) : option (list ascii) :=
  match match_here l with
  | Some g => Some g
  | None =>
      match l with
      | [] => None
      | _ :: t => search t
      end
  end.

Definition digit_val (c : ascii) : Z := Z.of_nat (code c) - 48.

(** [int(group)] *)
Definition int_of_digits (ds : list ascii) : Z :=
  fold_left (fun acc c => 10 * acc + digit_val c)%Z ds 0%Z.

Definition get_numeric_part (filename : string) : sort_key :=
  match search (chars filename) with
  | Some g => Idx (int_of_digits g)
  | None => Inf
  end.

End Numeric.

(** ** Scanning: extension filter, [sorted(..., key=get_numeric_part)], index range *)

Module Scan.
Import PyStr Numeric.

(** [f.lower().endswith(('.png', '.bmp', '.tif', '.tiff'))] *)
Definition is_image_name (f : string) : bool :=
  let s := lower f in
  endswith s ".png" || endswith s ".bmp" || endswith s ".tif" || endswith s ".tiff".

(** [sorted] is stable: an element goes in front of the first one whose key
    is not smaller, and the elements are inserted from the last to the
    first. *)
Fixpoint insert_by_key (x : string) (l : list string) : list string :=
  match l with
  | [] => [x]
  | y :: t =>
      if key_leb (get_numeric_part x) (get_numeric_part y)
      then x :: y :: t
      else y :: insert_by_key x t
  end.

Fixpoint sorted_by_key (l : list string) : list string :=
  match l with
  | [] => []
  | x :: t => insert_by_key x (sorted_by_key t)
  end.

Definition all_image_filenames (listing : list string) : list string :=
  sorted_by_key (List.filter is_image_name listing).

(** One pass of the filtering loop: [true] when [f] is appended. *)
Definition in_index_range (start_index stop_index : option Z) (f : string) : bool :=
  let numeric_part := get_numeric_part f in
  if match start_index with
     | Some s => key_ltb numeric_part (Idx s)
     | None => false
     end then false
  else if match stop_index with
          | Some s => key_ltb (Idx s) numeric_part
          | None => false
          end then false
  else true.

Definition image_filenames_filtered
    (start_index stop_index : option Z) (listing : list string) : list string :=
  List.filter (in_index_range start_index stop_index) (all_image_filenames listing).

End Scan.


(** ** [collections.deque] *)

Module Deque.

Record deque (A : Type) : Type := Build {
  maxlen : option nat;
  items : list A
}.
Arguments Build {A} _ _.
Arguments maxlen {A} _.
Arguments items {A} _.

(** [deque(maxlen=n)] *)
Definition new {A} (n : option nat) : deque A := Build n [].

(** [deque(d)]: a new, unbounded deque holding the items of [d]. *)
Definition of_iterable {A} (d : deque A) : deque A := Build None (items d).

Definition needs_trim {A} (d : deque A) : bool :=
  match maxlen d with
  | Some n => (n <? length (items d))%nat
  | None => false
  end.

(** [d.append(x)]: the item goes in on the right; a deque that is over its
    bound afterwards gives up its leftmost item. *)
Definition append {A} (x : A) (d : deque A) : deque A :=
  let d' := Build (maxlen d) (items d ++ [x]) in
  if needs_trim d' then Build (maxlen d) (tl (items d')) else d'.

(** The cache after a sequence of [append]s, the first of [xs] first. *)
Definition pushes {A} (n : nat) (xs : list A) : deque A :=
  fold_left (fun d x => append x d) xs (new (Some n)).

End Deque.

(** ** Exceptions *)

Record exn : Type := { exc_str : string; exc_traceback : string }.

Inductive outcome (A : Type) : Type :=
| Ok (a : A)
| Raise (e : exn).
Arguments Ok {A} _.
Arguments Raise {A} _.

Definition bind {A B} (m : outcome A) (k : A -> outcome B) : outcome B :=
  match m with
  | Ok a => k a
  | Raise e => Raise e
  end.

Notation "'try!' x ':=' m 'in' k" := (bind m (fun x => k))
  (at level 10, x name, m at level 100, k at level 200).

(** ** The pipeline *)

(** The types of the modules the pipeline imports. *)
Class PipelineTypes : Type := {
  ndarray : Type;
  roi : Type;
  classified_roi : Type;
  ROITracker : Type;
  XYBlendOperation : Type
}.

Module Pipeline.
Import PyStr OsPath Numeric Scan.
Export Deque.

Section WithTypes.
Context {T : PipelineTypes}.

Record RoiParams : Type := { min_size : Z }.

(** The fields of [Config] that [processing_pipeline.py] reads. *)
Record Config : Type := {
  input_mode : string;
  input_folder : string;
  output_folder : string;
  uvtools_path : string;
  uvtools_input_file : string;
  uvtools_temp_folder : string;
  uvtools_output_location : string;
  uvtools_delete_temp_on_completion : bool;
  output_file_prefix : string;
  start_index : option Z;
  stop_index : option Z;
  receding_layers : nat;
  blending_mode : string;
  roi_params : RoiParams;
  xy_blend_pipeline : list XYBlendOperation;
  debug_save : bool
}.

Record DebugInfo : Type := { dbg_output_folder : string; base_filename : string }.

(** [processing_core], [xy_blend_processor], [roi_tracker] and [cv2].  The
    functions the control thread calls return; those of the worker may
    raise.  The debug images [process_z_blending] saves when it is given a
    [debug_info] are its own business and are not counted among the writes
    of the worker. *)
Class Core : Type := {
  (** [(None, None)] when the file cannot be read *)
  load_image : string -> option (ndarray * ndarray);
  identify_rois : ndarray -> Z -> list roi;
  new_tracker : ROITracker;
  update_and_classify :
    ROITracker -> list roi -> sort_key -> Config -> ROITracker * list classified_roi;
  find_prior_combined_white_mask : list ndarray -> outcome ndarray;
  process_z_blending :
    ndarray -> ndarray -> Config -> list classified_roi -> option DebugInfo -> outcome ndarray;
  merge_to_output : ndarray -> ndarray -> outcome ndarray;
  process_xy_pipeline : ndarray -> list XYBlendOperation -> outcome ndarray;
  (** [cv2.imwrite] raising, for instance on an extension without encoder *)
  imwrite_raises : string -> ndarray -> option exn
}.

Context {C : Core}.

(** A numpy array together with its identity. *)
Record array_obj : Type := { obj_id : nat; data : ndarray }.

Record ImageData : Type := {
  filepath : string;
  binary_image : array_obj;
  original_image : array_obj;
  classified_rois : list classified_roi
}.

(** The arguments of one [executor.submit]; the snapshot is a reference to
    a deque object of the store. *)
Record Task : Type := {
  image_data : ImageData;
  prior_binary_masks_snapshot : nat;
  app_config : Config;
  xy_blend_pipeline_ops : list XYBlendOperation;
  task_output_folder : string;
  task_debug_save : bool
}.

(** *** The worker *)

(** [posixpath.splitext(p)[0]] *)
Definition splitext_root (p : string) : string :=
  let sepIndex := rfind sep p in
  let dotIndex := rfind "."%char p in
  if (sepIndex <? dotIndex)%Z then
    let name := firstn (Z.to_nat dotIndex) (skipn (Z.to_nat (sepIndex + 1)) (chars p)) in
    if forallb (Ascii.eqb "."%char) name then p
    else str (firstn (Z.to_nat dotIndex) (chars p))
  else p.

Record WorkerResult : Type := {
  writes : list (string * ndarray);   (** calls of [cv2.imwrite] that returned *)
  returned : outcome string
}.

Definition failed_with (e : exn) : WorkerResult := {| writes := []; returned := Raise e |}.

(** [_process_single_image_task]; [prior] is [list(prior_binary_masks_snapshot)]. *)
Definition _process_single_image_task
    (image_data : ImageData) (prior : list array_obj) (app_config : Config)
    (xy_blend_pipeline_ops : list XYBlendOperation)
    (output_folder : string) (debug_save : bool) : WorkerResult :=
  let current_binary_image := binary_image image_data in
  let original_image := original_image image_data in
  let filepath := filepath image_data in
  let debug_info :=
    if debug_save
    then Some {| dbg_output_folder := output_folder;
                 base_filename := splitext_root (basename filepath) |}
    else None in
  match
    (try! prior_white_combined_mask :=
       find_prior_combined_white_mask (map data prior) in
     try! receding_gradient :=
       process_z_blending (data current_binary_image) prior_white_combined_mask
         app_config (classified_rois image_data) debug_info in
     try! output_image_from_core :=
       merge_to_output (data original_image) receding_gradient in
     process_xy_pipeline output_image_from_core xy_blend_pipeline_ops)
  with
  | Raise e => failed_with e
  | Ok final_processed_image =>
      let output_filename := basename filepath in
      let output_filepath := join output_folder output_filename in
      match imwrite_raises output_filepath final_processed_image with
      | Some e => failed_with e
      | None =>
          {| writes := [(output_filepath, final_processed_image)];
             returned := Ok output_filepath |}
      end
  end.

(** *** Signals and calls of the control thread *)

Inductive event : Type :=
| StatusUpdate (s : string)
| ProgressUpdate (p : Z)
| ErrorSignal (s : string)
| FinishedSignal
| FlagRead (running : bool)          (** a read of [self._is_running] *)
| ExtractLayers (temp_folder : string)
| Submit (t : Task)
| Cancel (i : nat)                    (** [cancel()] on the [i]-th future *)
| GenerateUvtop (processed_images_folder : string)
| RepackLayers (uvtop_filepath : string)
| Rmtree (folder : string).

(** What the run cannot decide itself. *)
Record World : Type := {
  cfg : Config;
  run_timestamp : string;
  extract_layers : outcome string;
  listdir : string -> list string;
  (** [stop_processing] by the user: [Some k] when the first [k] reads of
      the flag still see it set and all later ones do not *)
  stop_after : option nat;
  (** the order in which [as_completed] yields the futures *)
  completion_order : list nat;
  (** whether a future is still pending when [cancel()] reaches it *)
  pending_at_cancel : nat -> bool;
  generate_uvtop_file : outcome string;
  repack_layers : outcome string;
  temp_isdir : bool;
  rmtree_error : option exn;
  rmtree_partial : string -> bool;
  initial_files : list string
}.


(** The flag and the events so far. *)
Record Ctl : Type := {
  reads : nat;        (** reads of [self._is_running] so far *)
  cleared : bool;     (** [run] has executed [self._is_running = False] *)
  trace : list event
}.

Definition emit (e : event) (c : Ctl) : Ctl :=
  {| reads := reads c; cleared := cleared c; trace := trace c ++ [e] |}.

Definition flag_value (w : World) (c : Ctl) : bool :=
  negb (cleared c) &&
  match stop_after w with
  | None => true
  | Some k => (reads c <? k)%nat
  end.

Definition read_flag (w : World) (c : Ctl) : bool * Ctl :=
  let b := flag_value w c in
  (b, {| reads := S (reads c); cleared := cleared c; trace := trace c ++ [FlagRead b] |}).

Definition clear_flag (c : Ctl) : Ctl :=
  {| reads := reads c; cleared := true; trace := trace c |}.

(** *** The store of deque objects and the submission loop *)

Abbreviation store := (list (deque array_obj)).

(** The deque behind a reference. *)
Definition deref (st : store) (r : nat) : deque array_obj :=
  default (Deque.new None) (st !! r).

Record Sub : Type := {
  next_id : nat;                 (** identity of the next array object *)
  objects : store;
  tracker : ROITracker;
  active_futures : list Task
}.

Record SubState : Type := {
  sub_ctl : Ctl;
  sub : Sub;
  sub_broken : bool              (** the loop was left by [break] *)
}.

(** [prior_binary_masks_cache] is the first object of the store. *)
Definition cache_ref : nat := 0.

Definition analyzing_msg (filename : string) (i total_images : nat) : string :=
  "Analyzing " +:+ filename +:+ " (" +:+ of_nat (i + 1) +:+ "/" +:+ of_nat total_images +:+ ")".

Definition skipping_msg (filename : string) : string :=
  "Skipping unloadable image: " +:+ filename.

Definition stopped_msg : string := "Processing stopped by user.".

(** The body of the submission loop below the check of the flag: load the
    image, and unless it is unloadable, track its regions, submit the task
    with a copy of the cache, and push the mask. *)
Definition analyze_and_submit (w : World) (input_path processing_output_path : string)
    (total_images : nat) (c : Ctl) (u : Sub) (item : nat * string) : Ctl * Sub :=
  let (i, filename) := item in
  let c2 := emit (StatusUpdate (analyzing_msg filename i total_images)) c in
  let filepath := join input_path filename in
  match load_image filepath with
  | None => (emit (StatusUpdate (skipping_msg filename)) c2, u)
  | Some (bin, orig) =>
      let binary_image := {| obj_id := next_id u; data := bin |} in
      let original_image := {| obj_id := S (next_id u); data := orig |} in
      let '(tracker', classified_rois) :=
        if String.eqb (blending_mode (cfg w)) "roi_fade" then
          let layer_index := get_numeric_part filename in
          let rois := identify_rois bin (min_size (roi_params (cfg w))) in
          update_and_classify (tracker u) rois layer_index (cfg w)
        else (tracker u, []) in
      let image_data_for_task :=
        {| filepath := filepath; binary_image := binary_image;
           original_image := original_image;
           classified_rois := classified_rois |} in
      let snapshot := length (objects u) in
      let objects1 := objects u ++ [Deque.of_iterable (deref (objects u) cache_ref)] in
      let future :=
        {| image_data := image_data_for_task;
           prior_binary_masks_snapshot := snapshot;
           app_config := cfg w;
           xy_blend_pipeline_ops := xy_blend_pipeline (cfg w);
           task_output_folder := processing_output_path;
           task_debug_save := debug_save (cfg w) |} in
      let objects2 := alter (Deque.append binary_image) cache_ref objects1 in
      (emit (Submit future) c2,
       {| next_id := S (S (next_id u));
          objects := objects2;
          tracker := tracker';
          active_futures := active_futures u ++ [future] |})
  end.

(** One iteration of [for i, filename in enumerate(image_filenames_filtered)]. *)
Definition submit_step (w : World) (input_path processing_output_path : string)
    (total_images : nat) (s : SubState) (item : nat * string) : SubState :=
  if sub_broken s then s
  else
    let (running, c1) := read_flag w (sub_ctl s) in
    if negb running then
      {| sub_ctl := emit (StatusUpdate stopped_msg) c1;
         sub := sub s; sub_broken := true |}
    else
      let (c2, u) :=
        analyze_and_submit w input_path processing_output_path total_images
          c1 (sub s) item in
      {| sub_ctl := c2; sub := u; sub_broken := false |}.

Definition enumerate {A} (l : list A) : list (nat * A) := combine (seq 0 (length l)) l.

Definition initial_sub (w : World) : Sub :=
  {| next_id := 0;
     objects := [Deque.new (Some (receding_layers (cfg w)))];
     tracker := new_tracker;
     active_futures := [] |}.

Definition submit_loop (w : World) (input_path processing_output_path : string)
    (total_images : nat) (c : Ctl) (items : list (nat * string)) : SubState :=
  fold_left (submit_step w input_path processing_output_path total_images) items
    {| sub_ctl := c; sub := initial_sub w; sub_broken := false |}.

(** *** The worker pool and the completion loop *)

(** The worker runs some time after the submission and reads its snapshot
    from the store as it is then. *)
Definition exec_task (st : store) (t : Task) : WorkerResult :=
  _process_single_image_task (image_data t)
    (items (deref st (prior_binary_masks_snapshot t)))
    (app_config t) (xy_blend_pipeline_ops t) (task_output_folder t) (task_debug_save t).

Inductive loop_status : Type :=
| Looping
| LeftOnStop                   (** [if not self._is_running: break] *)
| LeftOnFailure (i : nat).     (** the [except] branch, for future [i] *)

Record ComplState : Type := {
  cs_ctl : Ctl;
  processed_count : nat;
  yielded : list nat;
  cancelled : list nat;          (** futures whose [cancel()] returned [True] *)
  cs_status : loop_status
}.

Definition trunc_float (f : float) : Z :=
  match Prim2SF f with
  | S754_finite s m e =>
      let v := if (0 <=? e)%Z then (Z.pos m * 2 ^ e)%Z else (Z.pos m / 2 ^ (- e))%Z in
      if s then (- v)%Z else v
  | _ => 0%Z
  end.

Definition float_of_nat (n : nat) : float := PrimFloat.of_uint63 (Uint63.of_Z (Z.of_nat n)).

(** [int((processed_count / total_images) * 100)] *)
Definition percent (processed_count total_images : nat) : Z :=
  trunc_float (float_of_nat processed_count / float_of_nat total_images * 100)%float.

Definition completed_msg (processed_count total_images : nat) : string :=
  "Completed processing images (" +:+ of_nat processed_count +:+ "/"
    +:+ of_nat total_images +:+ ")".

Definition task_failed_msg (exc : exn) : string :=
  "An image processing task failed: " +:+ exc_str exc +:+ String "010" (exc_traceback exc).

Definition mem (i : nat) (l : list nat) : bool := existsb (Nat.eqb i) l.

(** The [try] statement of the completion loop, for the future with index
    [i] and its task. *)
Definition take_result (w : World) (st : list (deque array_obj)) (futures : list Task)
    (total_images : nat) (c1 : Ctl) (s : ComplState) (i : nat) (future : Task)
    : ComplState :=
  match returned (exec_task st future) with
  | Ok _ =>
      let n := S (processed_count s) in
      let c2 := emit (StatusUpdate (completed_msg n total_images)) c1 in
      let c3 := emit (ProgressUpdate (percent n total_images)) c2 in
      {| cs_ctl := c3; processed_count := n;
         yielded := yielded s ++ [i]; cancelled := []; cs_status := Looping |}
  | Raise exc =>
      let c2 := emit (ErrorSignal (task_failed_msg exc)) c1 in
      let c3 := clear_flag c2 in
      let all := seq 0 (length futures) in
      let c4 := fold_left (fun c f => emit (Cancel f) c) all c3 in
      let done := yielded s ++ [i] in
      {| cs_ctl := c4; processed_count := processed_count s;
         yielded := done;
         cancelled :=
           List.filter (fun f => pending_at_cancel w f && negb (mem f done)) all;
         cs_status := LeftOnFailure i |}
  end.

(** One iteration of [for future in as_completed(active_futures)], for the
    future with index [i]; an index that is not a future is never yielded. *)
Definition completion_step (w : World) (st : list (deque array_obj)) (futures : list Task)
    (total_images : nat) (s : ComplState) (i : nat) : ComplState :=
  match cs_status s, futures !! i with
  | Looping, Some future =>
      let (running, c1) := read_flag w (cs_ctl s) in
      if negb running then
        {| cs_ctl := c1; processed_count := processed_count s;
           yielded := yielded s; cancelled := []; cs_status := LeftOnStop |}
      else take_result w st futures total_images c1 s i future
  | _, _ => s
  end.

Definition completion_loop (w : World) (st : store) (futures : list Task)
    (total_images : nat) (c : Ctl) : ComplState :=
  fold_left (completion_step w st futures total_images) (completion_order w)
    {| cs_ctl := c; processed_count := 0; yielded := []; cancelled := [];
       cs_status := Looping |}.

(** What became of a future when the [with] block is left: the executor
    waits for every future that was not cancelled. *)
Inductive fate : Type :=
| Completed (output_filepath : string)
| Crashed (e : exn)
| Cancelled.

Definition fate_of (st : store) (cancelled : list nat) (i : nat) (t : Task) : fate :=
  if mem i cancelled then Cancelled
  else match returned (exec_task st t) with
       | Ok p => Completed p
       | Raise e => Crashed e
       end.

Definition written (st : store) (cancelled : list nat) (i : nat) (t : Task) : list string :=
  if mem i cancelled then [] else map fst (writes (exec_task st t)).

(** *** [run] *)

Definition uvtools_mode (w : World) : bool := String.eqb (input_mode (cfg w)) "uvtools".

(** [self.session_temp_folder], once [_run_uvtools_extraction] has set it. *)
Definition session_temp_folder (w : World) : string :=
  join (uvtools_temp_folder (cfg w)) (output_file_prefix (cfg w) +:+ run_timestamp w).

(** The value [processing_output_path] takes. *)
Definition processing_output_path (w : World) : string :=
  if uvtools_mode w then join (session_temp_folder w) "Output"
  else output_folder (cfg w).

(** The choice of the two paths, with [_run_uvtools_extraction]. *)
Definition setup (w : World) (c : Ctl) : Ctl * outcome string :=
  if uvtools_mode w then
    let c1 := emit (StatusUpdate "Starting UVTools slice extraction...") c in
    let c2 := emit (ExtractLayers (session_temp_folder w)) c1 in
    match extract_layers w with
    | Raise e => (c2, Raise e)
    | Ok input_folder =>
        (emit (StatusUpdate "UVTools extraction completed.") c2, Ok input_folder)
    end
  else (c, Ok (input_folder (cfg w))).

(** [_run_uvtools_repack]: the events, the exception if one is raised, and
    the files the two calls leave. *)
Definition _run_uvtools_repack (w : World) (processed_images_folder : string)
    (c : Ctl) : Ctl * option exn * list string :=
  let c1 := emit (StatusUpdate "Generating UVTools operation file...") c in
  let c2 := emit (GenerateUvtop processed_images_folder) c1 in
  match generate_uvtop_file w with
  | Raise e => (c2, Some e, [])
  | Ok uvtop_filepath =>
      let c3 := emit (StatusUpdate "Operation file generated.") c2 in
      let c4 := emit (StatusUpdate "Repacking slice file with processed layers...") c3 in
      let c5 := emit (RepackLayers uvtop_filepath) c4 in
      match repack_layers w with
      | Raise e => (c5, Some e, [uvtop_filepath])
      | Ok final_output_path =>
          (emit (StatusUpdate ("Successfully created: " +:+ basename final_output_path)) c5,
           None, [uvtop_filepath; final_output_path])
      end
  end.

(** The state when the [try] block is left. *)
Record Body : Type := {
  b_ctl : Ctl;
  b_raised : option exn;         (** the exception that reaches [except] *)
  b_futures : list Task;
  b_store : store;
  b_cancelled : list nat;
  b_files : list string
}.

Definition no_images_msg : string :=
  "No images found in the specified folder or index range.".

Definition all_done_msg : string := "All image processing tasks completed.".

(** The files on disk when the [with] block is left. *)
Definition files_after_pool (w : World) (st : store) (cancelled : list nat)
    (futures : list Task) : list string :=
  initial_files w ++ concat (imap (written st cancelled) futures).

(** [image_filenames_filtered] of the run. *)
Definition filtered_files (w : World) (input_path : string) : list string :=
  image_filenames_filtered (start_index (cfg w)) (stop_index (cfg w))
    (listdir w input_path).

(** The state when the submission loop is left. *)
Definition submitted (w : World) (input_path : string) (c : Ctl) : SubState :=
  submit_loop w input_path (processing_output_path w)
    (length (filtered_files w input_path)) c (enumerate (filtered_files w input_path)).

(** The state when the completion loop is left. *)
Definition completed (w : World) (input_path : string) (c : Ctl) : ComplState :=
  let s := submitted w input_path c in
  completion_loop w (objects (sub s)) (active_futures (sub s))
    (length (filtered_files w input_path)) (sub_ctl s).

(** The pool, and what follows the [with] block. *)
Definition pool_and_repack (w : World) (input_path : string) (c1 : Ctl) : Body :=
  let s := submitted w input_path c1 in
  let futures := active_futures (sub s) in
  let st := objects (sub s) in
  let cs := completed w input_path c1 in
  let files := files_after_pool w st (cancelled cs) futures in
  let c2 := emit (StatusUpdate all_done_msg) (cs_ctl cs) in
  if uvtools_mode w then
    let (running, c3) := read_flag w c2 in
    if running then
      let '(c4, e, made) := _run_uvtools_repack w (processing_output_path w) c3 in
      {| b_ctl := c4; b_raised := e; b_futures := futures; b_store := st;
         b_cancelled := cancelled cs; b_files := files ++ made |}
    else
      {| b_ctl := c3; b_raised := None; b_futures := futures; b_store := st;
         b_cancelled := cancelled cs; b_files := files |}
  else
    {| b_ctl := c2; b_raised := None; b_futures := futures; b_store := st;
       b_cancelled := cancelled cs; b_files := files |}.

Definition try_body (w : World) (c0 : Ctl) : Body :=
  let (c1, r) := setup w c0 in
  match r with
  | Raise e =>
      {| b_ctl := c1; b_raised := Some e; b_futures := []; b_store := [];
         b_cancelled := []; b_files := initial_files w |}
  | Ok input_path =>
      let total_images := length (filtered_files w input_path) in
      if (total_images =? 0)%nat then
        {| b_ctl := emit (ErrorSignal no_images_msg) c1; b_raised := None;
           b_futures := []; b_store := []; b_cancelled := [];
           b_files := initial_files w |}
      else pool_and_repack w input_path c1
  end.

Definition thread_error_msg (e : exn) : string :=
  "Error in processing thread: " +:+ exc_str e +:+ String "010" (String "010" (exc_traceback e)).

(** [except Exception as e] *)
Definition except_clause (raised : option exn) (c : Ctl) : Ctl :=
  match raised with
  | Some e => emit (ErrorSignal (thread_error_msg e)) c
  | None => c
  end.

(** Whether [p] lies in the tree below [folder]. *)
Definition in_tree (folder p : string) : bool := String.prefix (join folder "") p.

(** Whether the [finally] clause calls [shutil.rmtree]. *)
Definition cleanup_runs (w : World) : bool :=
  uvtools_mode w && uvtools_delete_temp_on_completion (cfg w)
  && negb (String.eqb (session_temp_folder w) "") && temp_isdir w.

Definition complete_msg : string := "Processing complete!".
Definition stopped_or_error_msg : string := "Processing stopped by user or error.".

(** The temp-folder part of [finally]. *)
Definition cleanup (w : World) (c : Ctl) (files : list string) : Ctl * list string :=
  if cleanup_runs w then
    let folder := session_temp_folder w in
    let c1 := emit (StatusUpdate ("Deleting temporary folder: " +:+ folder)) c in
    let c2 := emit (Rmtree folder) c1 in
    match rmtree_error w with
    | None =>
        (emit (StatusUpdate "Temporary files deleted.") c2,
         List.filter (fun p => negb (in_tree folder p)) files)
    | Some e =>
        (emit (ErrorSignal ("Could not delete temp folder: " +:+ exc_str e)) c2,
         List.filter (fun p => negb (in_tree folder p && rmtree_partial w p)) files)
    end
  else (c, files).

Record Result : Type := {
  r_trace : list event;
  r_futures : list Task;
  r_store : store;
  r_fates : list fate;
  r_files : list string;          (** the files on disk when [run] returns *)
  r_running : bool                (** the last value read from [_is_running] *)
}.

Definition started : Ctl :=
  emit (StatusUpdate "Processing started...")
    {| reads := 0; cleared := false; trace := [] |}.

Definition run (w : World) : Result :=
  let b := try_body w started in
  let c1 := except_clause (b_raised b) (b_ctl b) in
  let (c2, files) := cleanup w c1 (b_files b) in
  let (running, c3) := read_flag w c2 in
  let c4 := emit (StatusUpdate (if running then complete_msg else stopped_or_error_msg)) c3 in
  let c5 := emit FinishedSignal c4 in
  {| r_trace := trace c5;
     r_futures := b_futures b;
     r_store := b_store b;
     r_fates := imap (fate_of (b_store b) (b_cancelled b)) (b_futures b);
     r_files := files;
     r_running := running |}.

End WithTypes.
End Pipeline.

(** ** The slice editor: [Project] with its undo and redo stacks *)

Module SliceEditor.

(** What [Project] uses of an [EditCommand]: [get_affected_layer], and the
    [==] with which [list.remove] looks for a command.  The commands are
    dataclasses, so [==] compares the fields. *)
Class EditCommand (C : Type) : Type := {
  command_eq_dec :: EqDecision C;
  get_affected_layer : C -> Z
}.

Record DrawRectangleCommand : Type := {
  layer_index : Z;
  x : Z;
  y : Z;
  width : Z;
  height : Z;
  color : Z
}.

#[export] Instance DrawRectangleCommand_eq_dec : EqDecision DrawRectangleCommand.
Proof. solve_decision. Defined.

#[export] Instance DrawRectangleCommand_command : EditCommand DrawRectangleCommand :=
  {| get_affected_layer := layer_index |}.

Section WithCommand.
Context {C : Type} {EC : EditCommand C}.

Record Project : Type := {
  source_file_path : string;
  layer_image_paths : list string;
  edits : gmap Z (list C);
  undo_stack : list C;
  redo_stack : list C
}.

Definition total_layers (p : Project) : nat := length (layer_image_paths p).

Definition with_edits (e : gmap Z (list C)) (p : Project) : Project :=
  {| source_file_path := source_file_path p;
     layer_image_paths := layer_image_paths p;
     edits := e; undo_stack := undo_stack p; redo_stack := redo_stack p |}.

Definition with_stacks (u r : list C) (p : Project) : Project :=
  {| source_file_path := source_file_path p;
     layer_image_paths := layer_image_paths p;
     edits := edits p; undo_stack := u; redo_stack := r |}.

(** [self.edits[layer_index].append(command)], after the key was created
    if it was missing. *)
Definition append_edit (command : C) (e : gmap Z (list C)) : gmap Z (list C) :=
  let layer_index := get_affected_layer command in
  let e1 :=
    match e !! layer_index with
    | None => <[layer_index := []]> e
    | Some _ => e
    end in
  alter (fun l => l ++ [command]) layer_index e1.

Definition add_edit (command : C) (p : Project) : Project :=
  with_stacks (undo_stack p ++ [command]) [] (with_edits (append_edit command (edits p)) p).

(** [l.remove(x)]: without the first item equal to [x]; [None] stands for
    [ValueError]. *)
Fixpoint list_remove (x : C) (l : list C) : option (list C) :=
  match l with
  | [] => None
  | y :: t =>
      if decide (y = x) then Some t
      else match list_remove x t with
           | Some t' => Some (y :: t')
           | None => None
           end
  end.

Definition _find_and_remove_command (command_to_remove : C) (p : Project) : Project :=
  let layer_index := get_affected_layer command_to_remove in
  match edits p !! layer_index with
  | Some l =>
      match list_remove command_to_remove l with
      | Some l' => with_edits (<[layer_index := l']> (edits p)) p
      | None => p
      end
  | None => p
  end.

(** [l.pop()] on a list that is not empty. *)
Definition pop (l : list C) : option (C * list C) :=
  match last l with
  | Some c => Some (c, removelast l)
  | None => None
  end.

Definition perform_undo (p : Project) : option C * Project :=
  match pop (undo_stack p) with
  | None => (None, p)
  | Some (command, rest) =>
      let p1 := with_stacks rest (redo_stack p) p in
      let p2 := _find_and_remove_command command p1 in
      (Some command, with_stacks (undo_stack p2) (redo_stack p2 ++ [command]) p2)
  end.

Definition perform_redo (p : Project) : option C * Project :=
  match pop (redo_stack p) with
  | None => (None, p)
  | Some (command, rest) =>
      let p1 := with_stacks (undo_stack p) rest p in
      let p2 := with_edits (append_edit command (edits p1)) p1 in
      (Some command, with_stacks (undo_stack p2 ++ [command]) (redo_stack p2) p2)
  end.

(** The edits of a layer; a layer without key has none. *)
Definition layer_edits (p : Project) (layer : Z) : list C :=
  default [] (edits p !! layer).

Definition new_project : Project :=
  {| source_file_path := ""; layer_image_paths := []; edits := ∅;
     undo_stack := []; redo_stack := [] |}.

End WithCommand.
Arguments Project C : clear implicits.
End SliceEditor.

(** ** A small instance of the imported modules, for concrete runs *)

Module Demo.
Import PyStr Pipeline.

(** An array is named by the file it was loaded from. *)
#[export] Instance demo_types : PipelineTypes :=
  {| ndarray := string; roi := unit; classified_roi := unit;
     ROITracker := nat; XYBlendOperation := unit |}.

Definition crash : exn :=
  {| exc_str := "blend failed"; exc_traceback := "Traceback: process_z_blending" |}.

#[export] Instance demo_core : Core :=
  {| load_image p := if endswith p "bad1.png" then None else Some (p, p);
     identify_rois _ _ := [];
     new_tracker := 0;
     update_and_classify t _ _ _ := (S t, []);
     find_prior_combined_white_mask l := Ok (String.concat "|" l);
     process_z_blending cur _ _ _ _ :=
       if endswith cur "crash3.png" then Raise crash else Ok cur;
     merge_to_output a _ := Ok a;
     process_xy_pipeline a _ := Ok a;
     imwrite_raises _ _ := None |}.

Definition folder_cfg : Config :=
  {| input_mode := "folder"; input_folder := "/in"; output_folder := "/out";
     uvtools_path := ""; uvtools_input_file := ""; uvtools_temp_folder := "/tmp";
     uvtools_output_location := "working_folder";
     uvtools_delete_temp_on_completion := true;
     output_file_prefix := "run_";
     start_index := None; stop_index := None; receding_layers := 2;
     blending_mode := "fixed_fade"; roi_params := {| min_size := 100 |};
     xy_blend_pipeline := []; debug_save := false |}.

Definition uvtools_cfg : Config :=
  {| input_mode := "uvtools"; input_folder := ""; output_folder := "";
     uvtools_path := "UVToolsCmd"; uvtools_input_file := "/models/part.ctb";
     uvtools_temp_folder := "/tmp";
     uvtools_output_location := "working_folder";
     uvtools_delete_temp_on_completion := true;
     output_file_prefix := "run_";
     start_index := None; stop_index := None; receding_layers := 2;
     blending_mode := "fixed_fade"; roi_params := {| min_size := 100 |};
     xy_blend_pipeline := []; debug_save := false |}.

Definition world (c : Config) (names : list string) (stop : option nat)
    (order : list nat) : World :=
  {| cfg := c; run_timestamp := "20250101-000000";
     extract_layers := Ok "/tmp/run_20250101-000000/Input";
     listdir _ := names;
     stop_after := stop;
     completion_order := order;
     pending_at_cancel _ := false;
     generate_uvtop_file := Ok "/tmp/run_20250101-000000/repack.uvtop";
     repack_layers := Ok "/tmp/run_20250101-000000/run_part.ctb";
     temp_isdir := true;
     rmtree_error := None;
     rmtree_partial _ := true;
     initial_files := [] |}.

End Demo.

(** ** The slice editor's [uvtools_wrapper.py] *)

Module UvtoolsWrapper.
Import PyStr OsPath Numeric Scan.

(** The exceptions of the wrapper: the [RuntimeError]s it raises itself,
    and what the calls it makes raise. *)
Inductive py_exc : Type :=
| RuntimeError (msg : string)
| Raised (e : exn).

(** [str(e)] *)
Definition py_str (e : py_exc) : string :=
  match e with
  | RuntimeError msg => msg
  | Raised e => exc_str e
  end.

Inductive result (A : Type) : Type :=
| Return (a : A)
| Throw (e : py_exc).
Arguments Return {A} _.
Arguments Throw {A} _.

(** What [subprocess.run] hands back with [capture_output=True]. *)
Record CompletedProcess : Type := { returncode : Z; stderr : string }.

(** The operating system below the wrapper. *)
Record Os : Type := {
  (** [os.makedirs(path, exist_ok=True)] raising *)
  makedirs_raises : string -> option exn;
  (** the process a command line starts and how it exits, or the
      exception when it cannot be started *)
  spawn : list string -> outcome CompletedProcess;
  (** the [CalledProcessError] of [check=True] *)
  called_process_error : list string -> CompletedProcess -> exn;
  os_listdir : string -> outcome (list string);
  (** [open(path, 'w')] or [f.write] raising *)
  write_raises : string -> string -> option exn
}.

(** [str(n)] for an [int] *)
Definition of_Z (n : Z) : string :=
  if (n <? 0)%Z then "-" +:+ of_nat (Z.to_nat (- n)) else of_nat (Z.to_nat n).

Definition nl : string := String "010" "".
Definition dq : string := String "034" "".

(** [posixpath.dirname] *)
Fixpoint rstrip_sep_rev (r : list ascii) : list ascii :=
  match r with
  | c :: t => if Ascii.eqb c sep then rstrip_sep_rev t else r
  | [] => []
  end.

Definition dirname (p : string) : string :=
  let i := (rfind sep p + 1)%Z in
  let head := firstn (Z.to_nat i) (chars p) in
  if negb (forallb (Ascii.eqb sep) head)
  then str (rev (rstrip_sep_rev (rev head)))
  else str head.

(** [subprocess.run(command, capture_output=True, text=True, check=True, ...)] *)
Definition subprocess_run (os : Os) (command : list string) : result CompletedProcess :=
  match spawn os command with
  | Raise e => Throw (Raised e)
  | Ok process =>
      if (returncode process =? 0)%Z then Return process
      else Throw (Raised (called_process_error os command process))
  end.

Definition exit_error_msg (process : CompletedProcess) : string :=
  "UVTools exited with an error (code " +:+ of_Z (returncode process) +:+ "):"
    +:+ nl +:+ nl +:+ stderr process.

(** The [try] statement of [extract_layers] and [repack_layers]: the run of
    the command, the check of the return code, the value returned, and the
    [except] clause with its message. *)
Definition run_command (os : Os) (command : list string) (value failed : string)
    : result string :=
  match
    match subprocess_run os command with
    | Throw e => Throw e
    | Return process =>
        if negb ((returncode process =? 0)%Z || (returncode process =? 1)%Z)
        then Throw (RuntimeError (exit_error_msg process))
        else Return value
    end
  with
  | Throw e => Throw (RuntimeError (failed +:+ py_str e))
  | Return v => Return v
  end.

Definition extract_command (uvtools_path input_file input_folder : string) : list string :=
  [uvtools_path; "extract"; input_file; input_folder; "--content"; "Layers"].

Definition extract_layers (os : Os) (uvtools_path input_file temp_folder : string)
    : result string :=
  let input_folder := join temp_folder "Input" in
  match makedirs_raises os input_folder with
  | Some e => Throw (Raised e)
  | None =>
      run_command os (extract_command uvtools_path input_file input_folder)
        input_folder "UVTools extraction failed: "
  end.

(** [f.lower().endswith('.png')] *)
Definition is_png (f : string) : bool := endswith (lower f) ".png".

(** [processed_files] of [generate_uvtop_file]: the paths are joined first
    and sorted by the key of the whole path. *)
Definition processed_files (processed_images_folder : string) (listing : list string)
    : list string :=
  sorted_by_key (map (join processed_images_folder) (List.filter is_png listing)).

Definition uvtop_header : string :=
  "<?xml version=" +:+ dq +:+ "1.0" +:+ dq +:+ " encoding=" +:+ dq +:+ "utf-8" +:+ dq
    +:+ " standalone=" +:+ dq +:+ "no" +:+ dq +:+ "?>" +:+ nl
  +:+ "<OperationLayerImport xmlns:xsi=" +:+ dq
    +:+ "http://www.w3.org/2001/XMLSchema-instance" +:+ dq
    +:+ " xmlns:xsd=" +:+ dq +:+ "http://www.w3.org/2001/XMLSchema" +:+ dq +:+ ">" +:+ nl
  +:+ "  <LayerRangeSelection>None</LayerRangeSelection>" +:+ nl
  +:+ "  <ImportType>Replace</ImportType>" +:+ nl
  +:+ "  <Files>" +:+ nl.

(** The three lines the loop adds for one file. *)
Definition add_file (xml_content f_path : string) : string :=
  xml_content
  +:+ "    <GenericFileRepresentation>" +:+ nl
  +:+ "      <FilePath>" +:+ f_path +:+ "</FilePath>" +:+ nl
  +:+ "    </GenericFileRepresentation>" +:+ nl.

Definition uvtop_footer : string :=
  "  </Files>" +:+ nl +:+ "</OperationLayerImport>" +:+ nl.

Definition xml_content (files : list string) : string :=
  fold_left add_file files uvtop_header +:+ uvtop_footer.

Definition uvtop_filename (run_timestamp : string) : string :=
  "repack_operations_" +:+ run_timestamp +:+ ".uvtop".

(** What [generate_uvtop_file] returns or raises, and the file it wrote,
    with its content. *)
Record Generated : Type := {
  g_result : result string;
  g_written : option (string * string)
}.

Definition generate_uvtop_file (os : Os)
    (processed_images_folder temp_folder run_timestamp : string) : Generated :=
  match os_listdir os processed_images_folder with
  | Raise e => {| g_result := Throw (Raised e); g_written := None |}
  | Ok listing =>
      match processed_files processed_images_folder listing with
      | [] =>
          {| g_result :=
               Throw (RuntimeError "No processed image files found to generate .uvtop file.");
             g_written := None |}
      | files =>
          let uvtop_filepath := join temp_folder (uvtop_filename run_timestamp) in
          match write_raises os uvtop_filepath (xml_content files) with
          | Some e => {| g_result := Throw (Raised e); g_written := None |}
          | None =>
              {| g_result := Return uvtop_filepath;
                 g_written := Some (uvtop_filepath, xml_content files) |}
          end
      end
  end.

Definition output_filename (output_prefix run_timestamp input_file : string) : string :=
  output_prefix +:+ run_timestamp +:+ "_" +:+ basename input_file.

Definition final_output_path
    (input_file output_location temp_folder output_prefix run_timestamp : string) : string :=
  let output_directory :=
    if String.eqb output_location "input_folder" then dirname input_file
    else temp_folder in
  join output_directory (output_filename output_prefix run_timestamp input_file).

Definition repack_command (uvtools_path input_file uvtop_filepath final_output_path : string)
    : list string :=
  [uvtools_path; "run"; input_file; uvtop_filepath; "--output"; final_output_path].

Definition repack_layers (os : Os)
    (uvtools_path input_file uvtop_filepath output_location temp_folder
       output_prefix run_timestamp : string) : result string :=
  let final_output_path :=
    final_output_path input_file output_location temp_folder output_prefix run_timestamp in
  run_command os (repack_command uvtools_path input_file uvtop_filepath final_output_path)
    final_output_path "UVTools repacking failed: ".

End UvtoolsWrapper.

(** ** The slice editor's main window: opening a sequence, pasting *)

Module MainWindow.
Import PyStr OsPath Numeric SliceEditor.

(** [re.search(r'(\d+)', f).group(1)]: the first run of digits. *)
Fixpoint first_digits (l : list ascii) : option (list ascii) :=
  match l with
  | [] => None
  | c :: t => if is_digit c then Some (fst (span is_digit l)) else first_digits t
  end.

(** The key of [open_png_sequence]:
    [int(re.search(r'(\d+)', f).group(1)) if re.search(r'(\d+)', f) else -1] *)
Definition sequence_key (f : string) : Z :=
  match first_digits (chars f) with
  | Some g => int_of_digits g
  | None => (-1)%Z
  end.

(** [sorted(l, key=key)] for an integer key. *)
Fixpoint insert_by (key : string -> Z) (x : string) (l : list string) : list string :=
  match l with
  | [] => [x]
  | y :: t => if (key x <=? key y)%Z then x :: y :: t else y :: insert_by key x t
  end.

Fixpoint sorted_by (key : string -> Z) (l : list string) : list string :=
  match l with
  | [] => []
  | x :: t => insert_by key x (sorted_by key t)
  end.

(** [image_files] of [open_png_sequence] *)
Definition image_files (dir_path : string) (listing : list string) : list string :=
  sorted_by sequence_key
    (map (join dir_path) (List.filter UvtoolsWrapper.is_png listing)).

Section WithCommand.
Context {C : Type} {EC : EditCommand C}.

(** [Project(source_file_path=source_path, layer_image_paths=image_paths)] *)
Definition load_new_project (image_paths : list string) (source_path : string)
    : Project C :=
  {| source_file_path := source_path; layer_image_paths := image_paths;
     edits := ∅; undo_stack := []; redo_stack := [] |}.

(** [open_png_sequence] for the folder the user selected: the project of
    the window afterwards, and the message of the error it shows. *)
Definition open_png_sequence (dir_path : string) (listing : list string)
    (project : Project C) : Project C * option string :=
  match image_files dir_path listing with
  | [] => (project, Some "No PNG images found in the selected directory.")
  | files => (load_new_project files dir_path, None)
  end.

(** [new_command = copy.deepcopy(clipboard); new_command.layer_index = i] *)
Variable with_layer_index : Z -> C -> C.

(** [range(start, stop)] *)
Definition range (start stop : Z) : list Z :=
  map (fun k => (start + Z.of_nat k)%Z) (seq 0 (Z.to_nat (stop - start))).

(** [paste_to_n_layers], with the value of the layer slider and the answer
    of the input dialog. *)
Definition paste_to_n_layers (clipboard : option C) (slider : Z) (num : Z) (ok : bool)
    (project : Project C) : Project C :=
  match clipboard with
  | None => project
  | Some c =>
      if ok && (num >? 0)%Z then
        let start_layer := slider in
        let end_layer :=
          Z.min (start_layer + num) (Z.of_nat (total_layers project) - 1) in
        fold_left (fun p i => add_edit (with_layer_index i c) p)
          (range start_layer (end_layer + 1)) project
      else project
  end.

End WithCommand.

(** The assignment to [layer_index] of a rectangle command. *)
Definition rectangle_on (i : Z) (c : DrawRectangleCommand) : DrawRectangleCommand :=
  {| layer_index := i; x := x c; y := y c; width := width c; height := height c;
     color := color c |}.

End MainWindow.

(** ** [DrawGradientCommand] *)

Module Gradient.

Record DrawGradientCommand : Type := {
  layer_index : Z;
  x : Z;
  y : Z;
  width : Z;
  height : Z;
  start_color : Z;
  end_color : Z;
  gradient_type : string
}.

#[export] Instance DrawGradientCommand_eq_dec : EqDecision DrawGradientCommand.
Proof. solve_decision. Defined.

#[export] Instance DrawGradientCommand_command :
  SliceEditor.EditCommand DrawGradientCommand :=
  {| SliceEditor.get_affected_layer := layer_index |}.

(** A two-dimensional [uint8] array, row by row; all rows of an array
    have the same length. *)
Abbreviation Image := (list (list Z)).

(** [image.shape] *)
Definition shape (img : Image) : Z * Z :=
  (Z.of_nat (length img), Z.of_nat (length (hd [] img))).

(** [float(n)] *)
Definition float_of_Z (n : Z) : float :=
  if (n <? 0)%Z then (- PrimFloat.of_uint63 (Uint63.of_Z (- n)))%float
  else PrimFloat.of_uint63 (Uint63.of_Z n).

(** [np.clip(t, 0, 1)] *)
Definition clip (t : float) : float :=
  if (t <? 0)%float then 0%float else if (1 <? t)%float then 1%float else t.

(** [.astype(np.uint8)] of a value: the fraction is cut off.  What numpy
    does with a value outside the range of [uint8] depends on the platform;
    it is reduced modulo 256 here. *)
Definition to_uint8 (v : float) : Z := (Pipeline.trunc_float v mod 256)%Z.

(** The [float] that [1e-6] denotes. *)
Definition epsilon : float := 0x1.0c6f7a0b5ed8dp-20%float.

(** [grad_len_sq] *)
Definition grad_len_sq (cmd : DrawGradientCommand) : float :=
  (float_of_Z (width cmd) * float_of_Z (width cmd)
   + float_of_Z (height cmd) * float_of_Z (height cmd))%float.

(** The value of [gradient_values] for the pixel in column [px] of row
    [py]. *)
Definition gradient_value (cmd : DrawGradientCommand) (px py : Z) : Z :=
  let dot :=
    (float_of_Z (px - x cmd) * float_of_Z (width cmd)
     + float_of_Z (py - y cmd) * float_of_Z (height cmd))%float in
  let t := clip (dot / grad_len_sq cmd)%float in
  to_uint8 (float_of_Z (start_color cmd) * (1 - t)
            + float_of_Z (end_color cmd) * t)%float.

(** The coordinates [a, ..., b - 1] of one axis of [np.mgrid]. *)
Definition coords (a b : Z) : list Z :=
  map (fun k => (a + Z.of_nat k)%Z) (seq 0 (Z.to_nat (b - a))).

(** [gradient_patch]: the values of the grid, reshaped to its rows. *)
Definition gradient_patch (cmd : DrawGradientCommand) (ys xs : list Z) : Image :=
  map (fun py => map (fun px => gradient_value cmd px py) xs) ys.

(** [row[x0:x1] = values] *)
Definition assign_row (x0 x1 : nat) (row values : list Z) : list Z :=
  take x0 row ++ values ++ drop x1 row.

(** [output_image[y0:y1, x0:x1] = patch], for slices that begin inside the
    array.  A slice is cut at the end of the array; [None] stands for the
    [ValueError] of a patch that has not the shape of the slice. *)
Definition assign (img : Image) (y0 y1 x0 x1 : nat) (patch : Image) : option Image :=
  let rows := take (y1 - y0) (drop y0 img) in
  if (length patch =? length rows)%nat
     && forallb (fun row => (length row =? Nat.min x1 (length (hd [] img)) - x0)%nat) patch
  then Some (take y0 img ++ zip_with (assign_row x0 x1) rows patch ++ drop y1 img)
  else None.

(** [DrawGradientCommand.apply] *)
Definition apply (cmd : DrawGradientCommand) (image : Image) : option Image :=
  if String.eqb (gradient_type cmd) "linear" then
    let x_start := x cmd in
    let y_start := y cmd in
    let x_end := (x cmd + width cmd)%Z in
    let y_end := (y cmd + height cmd)%Z in
    let (h, w) := shape image in
    let x_start_c := Z.max 0 x_start in
    let y_start_c := Z.max 0 y_start in
    let x_end_c := Z.min w x_end in
    let y_end_c := Z.min h y_end in
    if (x_start_c >=? x_end_c)%Z || (y_start_c >=? y_end_c)%Z then Some image
    else if (grad_len_sq cmd <? epsilon)%float then Some image
    else
      let gradient_patch :=
        gradient_patch cmd (coords y_start_c y_end_c) (coords x_start_c x_end_c) in
      assign image (Z.to_nat y_start_c) (Z.to_nat y_end_c)
        (Z.to_nat x_start_c) (Z.to_nat x_end_c) gradient_patch
  else Some image.

End Gradient.

(** * Properties *)

(** ** The mask-history cache *)

Module DequeSpec.
Import Deque.

Section Window.
Context {A : Type}.
Implicit Types (d : deque A) (xs : list A).

Lemma maxlen_append x d : maxlen (append x d) = maxlen d.
Proof. unfold append. destruct (needs_trim _); reflexivity. Qed.

Lemma pushes_snoc n xs x : pushes n (xs ++ [x]) = append x (pushes n xs).
Proof. unfold pushes. rewrite fold_left_app. reflexivity. Qed.

Lemma maxlen_pushes n xs : maxlen (pushes n xs) = Some n.
Proof.
  induction xs as [|x xs IH] using rev_ind; [reflexivity|].
  rewrite pushes_snoc, maxlen_append. exact IH.
Qed.

Lemma tail_skipn_snoc xs : forall m x,
  m <= length xs -> tl (skipn m xs ++ [x]) = skipn (S m) (xs ++ [x]).
Proof.
  induction xs as [|y ys IH]; intros m x Hm.
  - cbn in Hm. replace m with 0 by lia. reflexivity.
  - destruct m as [|m]; [reflexivity|].
    cbn [skipn app]. cbn in Hm. rewrite IH by lia. reflexivity.
Qed.

(** The bounded cache holds the last [n] of the pushed items. *)
Lemma items_pushes n xs : items (pushes n xs) = skipn (length xs - n) xs.
Proof.
  induction xs as [|x xs IH] using rev_ind.
  - destruct n; reflexivity.
  - rewrite pushes_snoc. unfold append, needs_trim. cbn [maxlen items].
    rewrite maxlen_pushes, IH.
    rewrite !length_app, length_skipn. cbn [length].
    destruct (Nat.ltb_spec n (length xs - (length xs - n) + 1)) as [Hlt|Hge].
    + cbn [items].
      replace (length xs + 1 - n) with (S (length xs - n)) by lia.
      apply tail_skipn_snoc. lia.
    + cbn [items].
      replace (length xs + 1 - n) with 0 by lia.
      replace (length xs - n) with 0 by lia.
      reflexivity.
Qed.

End Window.

(** C3.  After [k] pushes into a mask-history cache of capacity [n] the
    cache holds [min k n] masks; they are the last [min k n] pushed ones in
    push order, so the oldest are the ones evicted; and a cache of capacity
    [0] is empty after any pushes. *)
Theorem mask_history_window :
  forall (A : Type) (n : nat) (xs : list A),
    length (items (pushes n xs)) = Nat.min (length xs) n
    /\ items (pushes n xs) = skipn (length xs - Nat.min (length xs) n) xs
    /\ (exists evicted,
          xs = evicted ++ items (pushes n xs)
          /\ length evicted = length xs - Nat.min (length xs) n)
    /\ items (pushes 0 xs) = [].
Proof.
  intros A n xs.
  assert (E : length xs - Nat.min (length xs) n = length xs - n) by lia.
  rewrite E, items_pushes. repeat split.
  - rewrite length_skipn. lia.
  - exists (firstn (length xs - n) xs). split.
    + symmetry. apply firstn_skipn.
    + rewrite length_firstn. lia.
  - rewrite items_pushes, Nat.sub_0_r. apply skipn_all.
Qed.

End DequeSpec.

(** ** [get_numeric_part] and the order of the files *)

Module NumericSpec.
Import PyStr Numeric.

Lemma chars_of_str l : chars (str l) = l.
Proof. apply list_ascii_of_string_of_list_ascii. Qed.

Lemma span_spec p : forall l a b,
  span p l = (a, b) -> l = a ++ b /\ forallb p a = true.
Proof.
  induction l as [|c t IH]; intros a b H; cbn in H.
  - inversion H. split; reflexivity.
  - destruct (p c) eqn:Hc.
    + destruct (span p t) as [a' b'] eqn:E. inversion H; subst.
      destruct (IH a' b eq_refl) as [-> Ha]. split; [reflexivity|].
      cbn. rewrite Hc. exact Ha.
    + inversion H. split; reflexivity.
Qed.

(** A run of [p]-characters in front of a character that fails [p]. *)
Lemma span_stop p : forall a c t,
  forallb p a = true -> p c = false -> span p (a ++ c :: t) = (a, c :: t).
Proof.
  induction a as [|x a IH]; intros c t Ha Hc; cbn.
  - rewrite Hc. reflexivity.
  - cbn in Ha. apply andb_prop in Ha as [Hx Ha]. rewrite Hx, (IH c t Ha Hc).
    reflexivity.
Qed.

Lemma span_all p : forall a, forallb p a = true -> span p a = (a, []).
Proof.
  induction a as [|x a IH]; intros Ha; cbn; [reflexivity|].
  cbn in Ha. apply andb_prop in Ha as [Hx Ha]. rewrite Hx, (IH Ha). reflexivity.
Qed.

(** A run of [p]-characters cannot reach past a character that fails [p]. *)
Lemma run_before_stop (p : ascii -> bool) : forall a c t ws r,
  a ++ c :: t = ws ++ r -> forallb p ws = true -> p c = false ->
  length ws <= length a.
Proof.
  induction a as [|x a IH]; intros c t ws r E Hws Hc.
  - destruct ws as [|y ws]; [cbn; lia|].
    cbn in E. inversion E; subst. cbn in Hws. rewrite Hc in Hws. discriminate.
  - destruct ws as [|y ws]; [cbn; lia|].
    cbn in E. inversion E; subst. cbn in Hws. apply andb_prop in Hws as [_ Hws].
    cbn. apply le_n_S. eapply IH; eauto.
Qed.

Lemma dot_not_digit : is_digit "." = false.
Proof. reflexivity. Qed.

Lemma dot_not_word : is_word "." = false.
Proof. reflexivity. Qed.

(** The pattern matches where the digits start. *)
Lemma match_here_digits ds ext :
  ds <> [] -> forallb is_digit ds = true ->
  ext <> [] -> forallb is_word ext = true ->
  match_here (ds ++ "."%char :: ext) = Some ds.
Proof.
  intros Hds Hd Hext Hw. unfold match_here.
  rewrite (span_stop is_digit ds "." ext Hd dot_not_digit).
  destruct ds as [|d ds']; [congruence|].
  cbn [Ascii.eqb]. replace (Ascii.eqb "." ".") with true by reflexivity.
  rewrite (span_all is_word ext Hw).
  destruct ext as [|e ext']; [congruence|]. reflexivity.
Qed.

(** The stem of a name: empty, or ending in a character that is no digit. *)
Definition no_trailing_digit (u : list ascii) : bool :=
  match rev u with
  | c :: _ => negb (is_digit c)
  | [] => true
  end.

Lemma no_trailing_digit_tail c u :
  no_trailing_digit (c :: u) = true -> no_trailing_digit u = true.
Proof.
  unfold no_trailing_digit. cbn [rev].
  destruct (rev u) as [|x r]; [reflexivity|]. cbn. auto.
Qed.

(** A stem that is not empty has a first character that is no digit. *)
Lemma first_non_digit : forall u,
  u <> [] -> no_trailing_digit u = true ->
  exists d c v, u = d ++ c :: v /\ forallb is_digit d = true /\ is_digit c = false.
Proof.
  induction u as [|x u IH]; intros Hne Hu; [congruence|].
  destruct (is_digit x) eqn:Hx.
  - destruct u as [|y u'].
    + unfold no_trailing_digit in Hu. cbn in Hu. rewrite Hx in Hu. discriminate.
    + destruct IH as (d & c & v & E & Hd & Hc);
        [congruence | eapply no_trailing_digit_tail; eauto |].
      exists (x :: d), c, v. rewrite E. repeat split; auto.
      cbn. rewrite Hx. exact Hd.
  - exists [], x, u. repeat split; auto.
Qed.

(** The pattern does not match at a start inside the stem. *)
Lemma match_here_stem u ds ext :
  u <> [] -> no_trailing_digit u = true -> ext <> [] ->
  match_here (u ++ ds ++ "."%char :: ext) = None.
Proof.
  intros Hne Hu Hext.
  destruct (first_non_digit u Hne Hu) as (d & c & v & -> & Hd & Hc).
  unfold match_here. rewrite <- app_assoc. cbn [app].
  rewrite (span_stop is_digit d c _ Hd Hc).
  destruct d as [|d0 d']; [reflexivity|].
  destruct (Ascii.eqb c ".") eqn:Hdot; [|reflexivity].
  destruct (span is_word (v ++ ds ++ "."%char :: ext)) as [ws r3] eqn:E.
  destruct ws as [|w0 ws']; [reflexivity|].
  apply span_spec in E as [E Hws].
  assert (Hlen : length (w0 :: ws') <= length (v ++ ds)).
  { eapply (run_before_stop is_word (v ++ ds) "." ext); eauto using dot_not_word.
    rewrite <- app_assoc. exact E. }
  apply (f_equal (@length ascii)) in E.
  rewrite !length_app in E. cbn [length] in E. rewrite length_app in Hlen.
  cbn [length] in Hlen.
  destruct ext as [|e0 ext']; [congruence|]. cbn [length] in E.
  destruct r3 as [|a [|b r]]; cbn [length] in E; try lia. reflexivity.
Qed.

Lemma search_trailing_digits ds ext : forall u,
  no_trailing_digit u = true ->
  ds <> [] -> forallb is_digit ds = true ->
  ext <> [] -> forallb is_word ext = true ->
  search (u ++ ds ++ "."%char :: ext) = Some ds.
Proof.
  induction u as [|c u IH]; intros Hu Hds Hd Hext Hw.
  - cbn [app]. destruct ds as [|d0 ds'] eqn:Eds; [congruence|].
    rewrite <- Eds in *. 
    assert (M := match_here_digits ds ext Hds Hd Hext Hw).
    rewrite Eds in M |- *. cbn [search app] in *. rewrite M. reflexivity.
  - assert (M := match_here_stem (c :: u) ds ext ltac:(congruence) Hu Hext).
    cbn [app] in M |- *. cbn [search]. rewrite M.
    apply IH; auto. eapply no_trailing_digit_tail; eauto.
Qed.

(** The key of a name that ends in digits, a dot and an extension is the
    number the digits spell. *)
Lemma get_numeric_part_trailing_digits stem ds ext :
  no_trailing_digit stem = true ->
  ds <> [] -> forallb is_digit ds = true ->
  ext <> [] -> forallb is_word ext = true ->
  get_numeric_part (str (stem ++ ds ++ "."%char :: ext)) = Idx (int_of_digits ds).
Proof.
  intros. unfold get_numeric_part. rewrite chars_of_str.
  rewrite search_trailing_digits by assumption. reflexivity.
Qed.

Lemma key_leb_total a b : key_leb a b = false -> key_leb b a = true.
Proof. destruct a, b; cbn; intros H; try congruence; lia. Qed.

Lemma key_leb_trans a b c : key_leb a b = true -> key_leb b c = true -> key_leb a c = true.
Proof. destruct a, b, c; cbn; intros; try congruence; lia. Qed.

Lemma key_leb_inf a : key_leb Inf a = true -> a = Inf.
Proof. destruct a; cbn; congruence. Qed.

End NumericSpec.

Module ScanSpec.
Import PyStr Numeric Scan NumericSpec.

(** The order [sorted] establishes on file names. *)
Definition by_key (f g : string) : Prop :=
  key_le (get_numeric_part f) (get_numeric_part g).

Lemma insert_by_key_perm x : forall l, Permutation (insert_by_key x l) (x :: l).
Proof.
  induction l as [|y t IH]; cbn; [reflexivity|].
  destruct (key_leb _ _); [reflexivity|].
  rewrite IH. apply perm_swap.
Qed.

Lemma sorted_by_key_perm : forall l, Permutation (sorted_by_key l) l.
Proof.
  induction l as [|x t IH]; cbn; [reflexivity|].
  rewrite insert_by_key_perm. apply perm_skip, IH.
Qed.

Lemma insert_by_key_sorted x : forall l,
  StronglySorted by_key l -> StronglySorted by_key (insert_by_key x l).
Proof.
  induction l as [|y t IH]; intros Hs; cbn.
  - constructor; constructor.
  - inversion Hs as [|? ? Ht Hy]; subst.
    destruct (key_leb (get_numeric_part x) (get_numeric_part y)) eqn:E.
    + constructor; [exact Hs|]. constructor; [exact E|].
      eapply List.Forall_impl; [|exact Hy]. intros z Hz.
      unfold by_key, key_le in *. eapply key_leb_trans; eauto.
    + constructor; [apply IH; exact Ht|].
      eapply Permutation_Forall; [symmetry; apply insert_by_key_perm|].
      constructor; [|exact Hy]. apply key_leb_total, E.
Qed.

Lemma sorted_by_key_sorted : forall l, StronglySorted by_key (sorted_by_key l).
Proof.
  induction l as [|x t IH]; cbn; [constructor|]. apply insert_by_key_sorted, IH.
Qed.

Lemma filter_sorted (p : string -> bool) : forall l,
  StronglySorted by_key l -> StronglySorted by_key (List.filter p l).
Proof.
  induction l as [|x t IH]; intros Hs; cbn; [constructor|].
  inversion Hs as [|? ? Ht Hx]; subst.
  destruct (p x); [|apply IH, Ht].
  constructor; [apply IH, Ht|].
  apply List.Forall_forall. intros z Hz. apply List.filter_In in Hz as [Hz _].
  rewrite List.Forall_forall in Hx. apply Hx, Hz.
Qed.

Lemma sorted_after : forall l1 f l2 g,
  StronglySorted by_key (l1 ++ f :: l2) -> In g l2 -> by_key f g.
Proof.
  induction l1 as [|x l1 IH]; intros f l2 g Hs Hg; cbn in Hs.
  - inversion Hs as [|? ? _ Hf]; subst. rewrite List.Forall_forall in Hf. apply Hf, Hg.
  - inversion Hs; subst. eapply IH; eauto.
Qed.

Lemma filter_perm {A} (p : A -> bool) : forall l l',
  Permutation l l' -> Permutation (List.filter p l) (List.filter p l').
Proof.
  induction 1; cbn.
  - reflexivity.
  - destruct (p x); [apply perm_skip|]; assumption.
  - destruct (p x), (p y); try reflexivity. apply perm_swap.
  - etransitivity; eassumption.
Qed.

Lemma filter_filter {A} (p q : A -> bool) : forall l,
  List.filter p (List.filter q l) = List.filter (fun a => q a && p a) l.
Proof.
  induction l as [|x t IH]; cbn; [reflexivity|].
  destruct (q x); cbn; [destruct (p x)|]; rewrite IH; reflexivity.
Qed.

(** The test both bounds make together. *)
Definition between (start stop : Z) (f : string) : bool :=
  match get_numeric_part f with
  | Idx n => (start <=? n)%Z && (n <=? stop)%Z
  | Inf => false
  end.

Lemma in_index_range_between start stop f :
  in_index_range (Some start) (Some stop) f = between start stop f.
Proof.
  unfold in_index_range, between, key_ltb.
  destruct (get_numeric_part f) as [n|]; cbn; [|reflexivity].
  destruct (Z.leb_spec start n), (Z.leb_spec n stop); cbn; try reflexivity; lia.
Qed.

(** File names [slice_0.png] to [slice_30.png], in the order [os.listdir]
    happens to give: here from the highest to the lowest. *)
Definition slices_0_30 : list string :=
  map (fun i => "slice_" +:+ of_nat i +:+ ".png") (rev (seq 0 31)).

(** C7.  The files are enumerated in ascending order of the key that
    [get_numeric_part] gives them: the listing is only permuted, a later
    file never has a smaller key, and once a name without trailing digits
    has come, only such names follow.  The key of a name that ends in
    digits, a dot and an extension is the number these digits spell. *)
Theorem files_in_numeric_order :
  forall listing : list string,
    Permutation (all_image_filenames listing) (List.filter is_image_name listing)
    /\ StronglySorted by_key (all_image_filenames listing)
    /\ (forall start stop,
          StronglySorted by_key (image_filenames_filtered start stop listing))
    /\ (forall l1 f l2 g,
          all_image_filenames listing = l1 ++ f :: l2 ->
          get_numeric_part f = Inf -> In g l2 -> get_numeric_part g = Inf)
    /\ (forall stem ds ext,
          no_trailing_digit stem = true ->
          ds <> [] -> forallb is_digit ds = true ->
          ext <> [] -> forallb is_word ext = true ->
          get_numeric_part (str (stem ++ ds ++ "."%char :: ext))
          = Idx (int_of_digits ds)).
Proof.
  intros listing. unfold all_image_filenames, image_filenames_filtered.
  split; [apply sorted_by_key_perm|].
  split; [apply sorted_by_key_sorted|].
  split; [intros; apply filter_sorted, sorted_by_key_sorted|].
  split.
  - intros l1 f l2 g E Hf Hg.
    assert (Hs := sorted_by_key_sorted (List.filter is_image_name listing)).
    unfold all_image_filenames in E. rewrite E in Hs.
    assert (H := sorted_after _ _ _ _ Hs Hg). unfold by_key, key_le in H.
    rewrite Hf in H. apply key_leb_inf, H.
  - intros. apply get_numeric_part_trailing_digits; assumption.
Qed.

Lemma files_in_numeric_order_witness :
  get_numeric_part (str (chars "layer_" ++ chars "0012" ++ "."%char :: chars "png"))
  = Idx (int_of_digits (chars "0012"))
  /\ get_numeric_part "notes.png" = Inf
  /\ get_numeric_part "cover.png" = Inf.
Proof.
  split.
  - apply (proj2 (proj2 (proj2 (proj2 (files_in_numeric_order []))))
             (chars "layer_") (chars "0012") (chars "png"));
      solve [reflexivity | discriminate].
  - split; [reflexivity|].
    apply (proj1 (proj2 (proj2 (proj2
             (files_in_numeric_order ["notes.png"; "cover.png"; "b7.png"]))))
             ["b7.png"] "notes.png" ["cover.png"] "cover.png");
      [reflexivity | reflexivity | left; reflexivity].
Defined.

(** C5.  With both bounds configured the files that remain are exactly
    the image files of the listing whose embedded index [n] has
    [start_index <= n <= stop_index], both ends included; of a sequence
    indexed 0 to 30 the bounds 10 and 20 keep 11 layers. *)
Theorem index_range_inclusive :
  forall (listing : list string) (start stop : Z),
    Permutation (image_filenames_filtered (Some start) (Some stop) listing)
      (List.filter (fun f => is_image_name f && between start stop f) listing)
    /\ (forall f,
          In f (image_filenames_filtered (Some start) (Some stop) listing) <->
          In f listing /\ is_image_name f = true /\
          exists n, get_numeric_part f = Idx n /\ (start <= n <= stop)%Z)
    /\ length (image_filenames_filtered (Some 10%Z) (Some 20%Z) slices_0_30) = 11
    /\ image_filenames_filtered (Some 10%Z) (Some 20%Z) slices_0_30
       = map (fun i => "slice_" +:+ of_nat i +:+ ".png") (seq 10 11).
Proof.
  intros listing start stop.
  assert (P : Permutation (image_filenames_filtered (Some start) (Some stop) listing)
                (List.filter (fun f => is_image_name f && between start stop f) listing)).
  { unfold image_filenames_filtered, all_image_filenames.
    rewrite (List.filter_ext _ _ (in_index_range_between start stop)).
    rewrite (filter_perm _ _ _ (sorted_by_key_perm _)).
    rewrite filter_filter. reflexivity. }
  split; [exact P|]. split; [|split; vm_compute; reflexivity].
  intros f. split.
  - intros H. apply (Permutation_in _ P) in H. apply List.filter_In in H as [Hin Hb].
    apply andb_prop in Hb as [Hi Hb]. unfold between in Hb.
    destruct (get_numeric_part f) as [n|] eqn:E; [|discriminate].
    apply andb_prop in Hb as [H1 H2].
    repeat split; auto. exists n. split; [reflexivity|]. lia.
  - intros (Hin & Hi & n & E & Hn).
    apply (Permutation_in _ (Permutation_sym P)). apply List.filter_In. split; [exact Hin|].
    rewrite Hi. unfold between. rewrite E. cbn.
    apply andb_true_intro. split; lia.
Qed.

End ScanSpec.

(** ** Paths *)

Module OsPathSpec.
Import PyStr OsPath.

Definition has_sep (s : string) : bool := existsb (Ascii.eqb sep) (chars s).

Lemma str_chars s : str (chars s) = s.
Proof. apply string_of_list_ascii_of_string. Qed.

Lemma chars_str l : chars (str l) = l.
Proof. apply list_ascii_of_string_of_list_ascii. Qed.

Lemma chars_append a b : chars (a +:+ b) = chars a ++ chars b.
Proof.
  unfold chars. induction a as [|c a IH]; [reflexivity|].
  change (String c a +:+ b) with (String c (a +:+ b)). cbn. rewrite IH. reflexivity.
Qed.

Lemma chars_eqb_eq : forall a b, chars_eqb a b = true -> a = b.
Proof.
  induction a as [|x a IH]; destruct b as [|y b]; cbn; intros H;
    try reflexivity; try discriminate.
  apply andb_prop in H as [Hx H]. apply Ascii.eqb_eq in Hx. subst.
  f_equal. apply IH, H.
Qed.

Lemma rfind_from_absent c : forall l i best,
  existsb (Ascii.eqb c) l = false -> rfind_from c l i best = best.
Proof.
  induction l as [|x t IH]; intros i best H; cbn; [reflexivity|].
  cbn in H. apply orb_false_elim in H as [Hx Ht].
  rewrite Ascii.eqb_sym, Hx. apply IH, Ht.
Qed.

Lemma rfind_from_last c b : forall a i best,
  existsb (Ascii.eqb c) b = false ->
  rfind_from c (a ++ c :: b) i best = (i + Z.of_nat (length a))%Z.
Proof.
  induction a as [|x a IH]; intros i best Hb.
  - cbn. rewrite Ascii.eqb_refl, rfind_from_absent by exact Hb. lia.
  - cbn [app rfind_from]. rewrite IH by exact Hb. cbn [length]. lia.
Qed.

(** A list of characters has no [c], or a last one. *)
Lemma last_occurrence c : forall l,
  existsb (Ascii.eqb c) l = false \/
  exists a b, l = a ++ c :: b /\ existsb (Ascii.eqb c) b = false.
Proof.
  induction l as [|x t IH]; [left; reflexivity|].
  destruct IH as [Ht|(a & b & -> & Hb)].
  - destruct (Ascii.eqb c x) eqn:E.
    + right. apply Ascii.eqb_eq in E. subst. exists [], t. split; [reflexivity|exact Ht].
    + left. cbn. rewrite E. exact Ht.
  - right. exists (x :: a), b. split; [reflexivity|exact Hb].
Qed.

Lemma skipn_past {A} (a : list A) x b : skipn (S (length a)) (a ++ x :: b) = b.
Proof. induction a as [|y a IH]; cbn; [reflexivity|exact IH]. Qed.

(** What [basename] returns for a path whose last separator is known. *)
Lemma basename_after_sep a b :
  existsb (Ascii.eqb sep) b = false -> basename (str (a ++ sep :: b)) = str b.
Proof.
  intros Hb. unfold basename, rfind. rewrite chars_str.
  rewrite rfind_from_last by exact Hb.
  replace (Z.to_nat (0 + Z.of_nat (length a) + 1)) with (S (length a)) by lia.
  rewrite skipn_past. reflexivity.
Qed.

Lemma basename_no_sep_id s : has_sep s = false -> basename s = s.
Proof.
  intros H. unfold basename, rfind. rewrite rfind_from_absent by exact H.
  cbn. apply str_chars.
Qed.

(** A base name holds no separator. *)
Lemma basename_has_no_sep p : has_sep (basename p) = false.
Proof.
  destruct (last_occurrence sep (chars p)) as [H|(a & b & E & Hb)].
  - rewrite basename_no_sep_id by exact H. exact H.
  - rewrite <- (str_chars p), E, basename_after_sep by exact Hb.
    unfold has_sep. rewrite chars_str. exact Hb.
Qed.

Lemma no_sep_not_absolute s : has_sep s = false -> startswith s "/" = false.
Proof.
  unfold has_sep, startswith. destruct s as [|c s]; [reflexivity|].
  intros H. change (chars (String c s)) with (c :: chars s) in H.
  cbn [existsb] in H. apply orb_false_elim in H as [Hc _].
  change (String.prefix "/" (String c s))
    with (if ascii_dec "/" c then String.prefix "" s else false).
  destruct (ascii_dec "/" c) as [E|_]; [|reflexivity].
  subst c. unfold sep in Hc. rewrite Ascii.eqb_refl in Hc. discriminate.
Qed.

Lemma endswith_sep s : endswith s "/" = true -> exists a, chars s = a ++ [sep].
Proof.
  unfold endswith. intros H. apply andb_prop in H as [_ H].
  apply chars_eqb_eq in H. cbn in H.
  exists (firstn (length (chars s) - 1) (chars s)).
  assert (E := firstn_skipn (length (chars s) - 1) (chars s)).
  rewrite H in E. symmetry. exact E.
Qed.

(** [join] puts a name without separator below the folder under that name. *)
Lemma basename_join folder name :
  has_sep name = false -> basename (join folder name) = name.
Proof.
  intros Hn. unfold join. rewrite (no_sep_not_absolute _ Hn).
  destruct (String.eqb folder "") eqn:E0.
  - apply String.eqb_eq in E0. subst. cbn. apply basename_no_sep_id, Hn.
  - cbn [orb]. destruct (endswith folder "/") eqn:E1.
    + destruct (endswith_sep _ E1) as [a Ha].
      rewrite <- (str_chars (folder +:+ name)), chars_append, Ha, <- app_assoc.
      cbn [app]. rewrite basename_after_sep by exact Hn. apply str_chars.
    + rewrite <- (str_chars (folder +:+ "/" +:+ name)), !chars_append.
      cbn [chars list_ascii_of_string app].
      change "/"%char with sep.
      rewrite basename_after_sep by exact Hn. apply str_chars.
Qed.

End OsPathSpec.

(** ** The submission loop *)

Module SubmitSpec.
Import PyStr OsPath Numeric Scan Pipeline DequeSpec.

Section Loop.
Context {T : PipelineTypes} {C : Core}.
Variables (w : World) (input_path out : string) (total : nat).

Abbreviation step := (submit_step w input_path out total).

(** The mask of the layer a task is for. *)
Definition mask_of (t : Task) : array_obj := binary_image (image_data t).

Definition masks (fs : list Task) : list array_obj := map mask_of fs.

(** The cache after the masks of [fs] were pushed. *)
Definition cache_after (fs : list Task) : deque array_obj :=
  pushes (receding_layers (cfg w)) (masks fs).

(** How the store and the futures hang together. *)
Record sub_inv (u : Sub) : Prop := {
  inv_cache : objects u !! cache_ref = Some (cache_after (active_futures u));
  inv_length : length (objects u) = S (length (active_futures u));
  inv_next : next_id u = 2 * length (active_futures u);
  inv_task : forall j t,
    active_futures u !! j = Some t ->
    prior_binary_masks_snapshot t = S j
    /\ objects u !! S j = Some (of_iterable (cache_after (take j (active_futures u))))
    /\ obj_id (mask_of t) = 2 * j
    /\ task_output_folder t = out
}.

Lemma initial_inv : sub_inv (initial_sub w).
Proof.
  split; cbn; try reflexivity. intros j t H. destruct j; discriminate.
Qed.

Lemma masks_snoc fs t : masks (fs ++ [t]) = masks fs ++ [mask_of t].
Proof. unfold masks. rewrite map_app. reflexivity. Qed.

Lemma cache_after_snoc fs t :
  cache_after (fs ++ [t]) = append (mask_of t) (cache_after fs).
Proof. unfold cache_after. rewrite masks_snoc. apply pushes_snoc. Qed.

Lemma deref_cache u : sub_inv u -> deref (objects u) cache_ref = cache_after (active_futures u).
Proof. intros I. unfold deref. rewrite (inv_cache u I). reflexivity. Qed.

(** One more future: the state the loop reaches after a submission. *)
Lemma submitted_inv u t tr :
  sub_inv u ->
  prior_binary_masks_snapshot t = length (objects u) ->
  obj_id (mask_of t) = next_id u ->
  task_output_folder t = out ->
  sub_inv
    {| next_id := S (S (next_id u));
       objects :=
         alter (append (mask_of t)) cache_ref
           (objects u ++ [of_iterable (deref (objects u) cache_ref)]);
       tracker := tr;
       active_futures := active_futures u ++ [t] |}.
Proof.
  intros I Hsnap Hid Hout.
  assert (Hlen := inv_length u I).
  split; cbn [next_id objects active_futures].
  - rewrite list_lookup_alter_eq, lookup_app_l by (rewrite Hlen; unfold cache_ref; lia).
    rewrite (inv_cache u I). cbn. rewrite cache_after_snoc. reflexivity.
  - rewrite length_alter, !length_app. cbn. lia.
  - rewrite (inv_next u I), length_app. cbn. lia.
  - intros j t' Hj.
    rewrite list_lookup_alter_ne by (unfold cache_ref; lia).
    destruct (Nat.lt_ge_cases j (length (active_futures u))) as [Hlt|Hge].
    + rewrite lookup_app_l in Hj by exact Hlt.
      destruct (inv_task u I j t' Hj) as (H1 & H2 & H3 & H4).
      rewrite lookup_app_l by lia.
      rewrite take_app_le by lia. auto.
    + assert (j = length (active_futures u)).
      { apply lookup_lt_Some in Hj. rewrite length_app in Hj. cbn in Hj. lia. }
      subst j. rewrite list_lookup_middle in Hj by reflexivity.
      inversion Hj; subst t'.
      rewrite take_app_length.
      rewrite <- Hlen, list_lookup_middle by reflexivity.
      rewrite deref_cache by exact I.
      rewrite Hsnap, Hid, (inv_next u I). auto.
Qed.

Lemma body_inv c u item :
  sub_inv u -> sub_inv (snd (analyze_and_submit w input_path out total c u item)).
Proof.
  intros I. unfold analyze_and_submit. destruct item as [i filename].
  destruct (load_image (join input_path filename)) as [[bin orig]|]; [|exact I].
  destruct (if String.eqb (blending_mode (cfg w)) "roi_fade" then _ else _)
    as [tracker' rois].
  cbn [snd].
  match goal with
  | |- context [active_futures u ++ [?t]] =>
      apply (submitted_inv u t tracker' I); reflexivity
  end.
Qed.

Lemma step_inv s item : sub_inv (sub s) -> sub_inv (sub (step s item)).
Proof.
  intros I. unfold submit_step.
  destruct (sub_broken s); [exact I|].
  destruct (read_flag w (sub_ctl s)) as [running c1].
  destruct running; cbn [negb]; [|exact I].
  assert (I' := body_inv c1 (sub s) item I).
  destruct (analyze_and_submit _ _ _ _ c1 (sub s) item) as [c2 u]. exact I'.
Qed.

Lemma loop_inv items : forall s, sub_inv (sub s) -> sub_inv (sub (fold_left step items s)).
Proof.
  induction items as [|x items IH]; intros s I; cbn; [exact I|].
  apply IH, step_inv, I.
Qed.

Lemma submit_loop_inv c items :
  sub_inv (sub (submit_loop w input_path out total c items)).
Proof. apply loop_inv, initial_inv. Qed.

(** The loop only appends to [active_futures]. *)
Lemma body_futures c u item :
  exists more,
    active_futures (snd (analyze_and_submit w input_path out total c u item))
    = active_futures u ++ more.
Proof.
  unfold analyze_and_submit. destruct item as [i filename].
  destruct (load_image (join input_path filename)) as [[bin orig]|];
    [|exists []; symmetry; apply app_nil_r].
  destruct (if String.eqb (blending_mode (cfg w)) "roi_fade" then _ else _)
    as [tracker' rois].
  cbn. eexists. reflexivity.
Qed.

Lemma step_futures s item :
  exists more, active_futures (sub (step s item)) = active_futures (sub s) ++ more.
Proof.
  unfold submit_step.
  destruct (sub_broken s); [exists []; symmetry; apply app_nil_r|].
  destruct (read_flag w (sub_ctl s)) as [running c1].
  destruct running; cbn [negb]; [|exists []; symmetry; apply app_nil_r].
  assert (H := body_futures c1 (sub s) item).
  destruct (analyze_and_submit _ _ _ _ c1 (sub s) item) as [c2 u]. exact H.
Qed.

Lemma loop_futures items : forall s,
  exists more, active_futures (sub (fold_left step items s)) = active_futures (sub s) ++ more.
Proof.
  induction items as [|x items IH]; intros s; cbn.
  - exists []. symmetry. apply app_nil_r.
  - destruct (IH (step s x)) as [m2 E2]. destruct (step_futures s x) as [m1 E1].
    exists (m1 ++ m2). rewrite E2, E1, app_assoc. reflexivity.
Qed.

End Loop.
End SubmitSpec.

(** ** The snapshots handed to the workers *)

Module SnapshotSpec.
Import PyStr OsPath Numeric Scan Pipeline DequeSpec SubmitSpec.

Section Snapshots.
Context {T : PipelineTypes} {C : Core}.
Variables (w : World) (input_path out : string) (total : nat) (c : Ctl).
Variable files : list string.

(** The state of the submission loop after its first [k] iterations. *)
Definition after (k : nat) : SubState :=
  submit_loop w input_path out total c (take k (enumerate files)).

Definition futures_after (k : nat) : list Task := active_futures (sub (after k)).

Definition store_after (k : nat) : list (deque array_obj) := objects (sub (after k)).

Lemma after_inv k : sub_inv w out (sub (after k)).
Proof. apply loop_inv, initial_inv. Qed.

Lemma futures_grow k k' :
  k <= k' -> exists more, futures_after k' = futures_after k ++ more.
Proof.
  intros Hk. unfold futures_after, after, submit_loop.
  assert (E : take k' (enumerate files)
              = take k (enumerate files) ++ drop k (take k' (enumerate files))).
  { rewrite <- (take_drop k (take k' (enumerate files))) at 1.
    rewrite take_take. replace (k `min` k') with k by lia. reflexivity. }
  rewrite E, fold_left_app. apply loop_futures.
Qed.

Lemma in_drop {A} (x : A) n l : In x (drop n l) -> In x l.
Proof. intros H. rewrite <- (take_drop n l). apply in_or_app. right. exact H. Qed.

Lemma in_take_lookup {A} (x : A) : forall n l,
  In x (take n l) -> exists i, i < n /\ l !! i = Some x.
Proof.
  induction n as [|n IH]; intros l H; [destruct l; contradiction|].
  destruct l as [|y l]; [contradiction|]. cbn in H. destruct H as [->|H].
  - exists 0. split; [lia|reflexivity].
  - destruct (IH l H) as (i & Hi & E). exists (S i). split; [lia|exact E].
Qed.

End Snapshots.

(** C1.  The snapshot in the task of the [j]-th submitted layer is a deque
    of its own, not the cache.  It holds the masks the cache held when the
    task was built: the last [receding_layers] masks of the layers
    submitted before, in order, and so never the mask of the layer itself.
    Whatever the loop pushes afterwards, this layer's own mask included,
    the snapshot a worker finds in the store is still the same. *)
Theorem snapshot_isolated :
  forall {T : PipelineTypes} {C : Core} (w : World) (input_path out : string)
         (total : nat) (c : Ctl) (files : list string) (k k' j : nat) (t : Task),
    k <= k' ->
    futures_after w input_path out total c files k !! j = Some t ->
    let earlier := take j (futures_after w input_path out total c files k) in
    exists d,
      store_after w input_path out total c files k !! prior_binary_masks_snapshot t = Some d
      /\ store_after w input_path out total c files k' !! prior_binary_masks_snapshot t = Some d
      /\ prior_binary_masks_snapshot t <> cache_ref
      /\ items d = items (cache_after w earlier)
      /\ items d = drop (j - receding_layers (cfg w)) (masks earlier)
      /\ (forall m, In m (items d) ->
            exists j' t',
              j' < j
              /\ futures_after w input_path out total c files k !! j' = Some t'
              /\ m = mask_of t')
      /\ ~ In (mask_of t) (items d).
Proof.
  intros T C w input_path out total c files k k' j t Hk Hj earlier.
  assert (I := after_inv w input_path out total c files k).
  assert (I' := after_inv w input_path out total c files k').
  destruct (futures_grow w input_path out total c files k k' Hk) as [more Hmore].
  unfold futures_after, store_after in *.
  destruct (inv_task _ _ _ I j t Hj) as (Hsnap & Hst & Hid & _).
  assert (Hj' : active_futures (sub (after w input_path out total c files k')) !! j = Some t).
  { rewrite Hmore. apply lookup_app_l_Some, Hj. }
  destruct (inv_task _ _ _ I' j t Hj') as (_ & Hst' & _ & _).
  assert (Hlt : j < length (active_futures (sub (after w input_path out total c files k)))).
  { eapply lookup_lt_Some, Hj. }
  rewrite Hmore, take_app_le in Hst' by lia.
  assert (Hitems : items (of_iterable (cache_after w earlier))
                   = drop (j - receding_layers (cfg w)) (masks earlier)).
  { cbn [of_iterable items]. unfold cache_after. rewrite items_pushes.
    unfold masks. rewrite length_map. unfold earlier. rewrite length_take.
    replace (j `min` _) with j by lia. reflexivity. }
  assert (Hin : forall m, In m (items (of_iterable (cache_after w earlier))) ->
            exists j' t',
              j' < j
              /\ active_futures (sub (after w input_path out total c files k)) !! j' = Some t'
              /\ m = mask_of t').
  { intros m Hm. rewrite Hitems in Hm. apply in_drop in Hm.
    unfold masks in Hm. apply in_map_iff in Hm as (t' & <- & Ht').
    apply in_take_lookup in Ht' as (j' & Hj'lt & E). exists j', t'. auto. }
  exists (of_iterable (cache_after w earlier)).
  rewrite Hsnap. repeat split; auto.
  - intros (j' & t' & Hj'lt & E & Hm)%Hin.
    destruct (inv_task _ _ _ I j' t' E) as (_ & _ & Hid' & _).
    rewrite Hm, Hid' in Hid. lia.
Qed.

Import Demo.

Lemma snapshot_isolated_witness :
  let w := Demo.world Demo.folder_cfg [] None [] in
  let c := {| reads := 0; cleared := false; trace := [] |} in
  let files := ["1.png"; "2.png"; "3.png"; "4.png"] in
  exists t d,
    futures_after w "/in" "/out" 4 c files 4 !! 3 = Some t
    /\ store_after w "/in" "/out" 4 c files 4 !! prior_binary_masks_snapshot t = Some d
    /\ map obj_id (items d) = [2; 4]
    /\ obj_id (mask_of t) = 6.
Proof.
  intros w c files.
  destruct (futures_after w "/in" "/out" 4 c files 4 !! 3) as [t|] eqn:E;
    [|vm_compute in E; discriminate].
  destruct (snapshot_isolated w "/in" "/out" 4 c files 4 4 3 t (le_n 4) E)
    as (d & H1 & _ & _ & H4 & _).
  exists t, d. split; [reflexivity|]. split; [exact H1|].
  vm_compute in E. inversion E; subst t. split.
  - rewrite H4. vm_compute. reflexivity.
  - reflexivity.
Defined.

End SnapshotSpec.

(** ** The worker's output file *)

Module WorkerSpec.
Import PyStr OsPath Numeric Scan Pipeline OsPathSpec SubmitSpec.

Section Worker.
Context {T : PipelineTypes} {C : Core}.

(** A worker that returns has written one file, and returns its path. *)
Lemma worker_returns image_data prior app_config ops output_folder debug_save p :
  returned (_process_single_image_task image_data prior app_config ops
              output_folder debug_save) = Ok p ->
  p = join output_folder (basename (filepath image_data))
  /\ map fst (writes (_process_single_image_task image_data prior app_config ops
                        output_folder debug_save)) = [p].
Proof.
  unfold _process_single_image_task.
  destruct (bind _ _) as [img|e]; [|cbn; discriminate].
  destruct (imwrite_raises _ img) as [e|]; cbn; [discriminate|].
  intros H. inversion H. auto.
Qed.

(** A worker that raises has written nothing. *)
Lemma worker_raises image_data prior app_config ops output_folder debug_save e :
  returned (_process_single_image_task image_data prior app_config ops
              output_folder debug_save) = Raise e ->
  writes (_process_single_image_task image_data prior app_config ops
            output_folder debug_save) = [].
Proof.
  unfold _process_single_image_task.
  destruct (bind _ _) as [img|e']; [|reflexivity].
  destruct (imwrite_raises _ img) as [e'|]; cbn; [reflexivity|discriminate].
Qed.

(** The futures of a run are those of its submission loop. *)
Definition futures_of_run (w : World) : list Task :=
  match setup w started with
  | (c1, Ok input_path) =>
      if (length (filtered_files w input_path) =? 0)%nat then []
      else active_futures (sub (submitted w input_path c1))
  | (_, Raise _) => []
  end.

Lemma run_futures (w : World) : r_futures (run w) = futures_of_run w.
Proof.
  unfold run, futures_of_run. destruct (cleanup w _ _) as [c2 files].
  destruct (read_flag w c2). cbn [r_futures]. unfold try_body.
  destruct (setup w _) as [c1 [input_path|e]]; [|reflexivity].
  destruct (_ =? 0)%nat; [reflexivity|].
  unfold pool_and_repack.
  destruct (uvtools_mode w); [|reflexivity].
  destruct (read_flag w _) as [running c3]. destruct running; [|reflexivity].
  destruct (_run_uvtools_repack w _ c3) as [[c4 e] made]. reflexivity.
Qed.

Lemma run_futures_cases (w : World) :
  r_futures (run w) = []
  \/ exists input_path c1,
       r_futures (run w) = active_futures (sub (submitted w input_path c1)).
Proof.
  rewrite run_futures. unfold futures_of_run.
  destruct (setup w _) as [c1 [input_path|e]]; [|left; reflexivity].
  destruct (_ =? 0)%nat; [left; reflexivity|].
  right. exists input_path, c1. reflexivity.
Qed.

(** Every future of a run writes into [processing_output_path]. *)
Lemma run_futures_folder (w : World) i t :
  r_futures (run w) !! i = Some t -> task_output_folder t = processing_output_path w.
Proof.
  destruct (run_futures_cases w) as [E|(input_path & c1 & E)]; rewrite E.
  - destruct i; discriminate.
  - intros H. unfold submitted in H.
    assert (I := submit_loop_inv w input_path (processing_output_path w)
                   (length (filtered_files w input_path)) c1
                   (enumerate (filtered_files w input_path))).
    destruct (inv_task _ _ _ I i t H) as (_ & _ & _ & Hout). exact Hout.
Qed.

End Worker.


Import Demo.


End WorkerSpec.

(** ** Traces *)

Module TraceSpec.
Import PyStr OsPath Numeric Scan Pipeline.

Section Lists.
Context {A : Type}.
Variable P : A -> bool.

(** Where an element with [P] sits when only the middle part has such. *)
Lemma split_middle : forall (l0 mid l1 pre post : list A) (e : A),
  existsb P l0 = false -> existsb P l1 = false ->
  l0 ++ mid ++ l1 = pre ++ e :: post -> P e = true ->
  exists m1 m2, mid = m1 ++ e :: m2 /\ pre = l0 ++ m1 /\ post = m2 ++ l1.
Proof.
  induction l0 as [|a l0 IH]; intros mid l1 pre post e H0 H1 E He.
  - cbn [app] in E. revert pre E. induction mid as [|x mid IHm]; intros pre E.
    + cbn [app] in E. subst l1. rewrite existsb_app in H1. cbn in H1.
      rewrite He, orb_true_r in H1. discriminate.
    + destruct pre as [|y pre]; cbn in E; injection E as Ehd Etl.
      * subst. exists [], mid. auto.
      * subst y. destruct (IHm pre Etl) as (m1 & m2 & -> & -> & ->).
        exists (x :: m1), m2. auto.
  - cbn in H0. apply orb_false_elim in H0 as [Ha H0].
    destruct pre as [|y pre]; cbn in E; injection E as Ehd Etl.
    + subst. rewrite He in Ha. discriminate.
    + subst y. destruct (IH mid l1 pre post e H0 H1 Etl He) as (m1 & m2 & -> & -> & ->).
      exists m1, m2. auto.
Qed.


Lemma existsb_false_in (l : list A) x : existsb P l = false -> In x l -> P x = false.
Proof.
  intros H Hx. destruct (P x) eqn:E; [|reflexivity].
  assert (existsb P l = true) by (apply existsb_exists; eauto). congruence.
Qed.

End Lists.

Section Events.
Context {T : PipelineTypes} {C : Core}.

Definition is_error (e : event) : bool :=
  match e with ErrorSignal _ => true | _ => false end.

Definition is_submit (e : event) : bool :=
  match e with Submit _ => true | _ => false end.

Definition is_cancel (e : event) : bool :=
  match e with Cancel _ => true | _ => false end.

(** The calls [_run_uvtools_repack] makes. *)
Definition is_repack (e : event) : bool :=
  match e with GenerateUvtop _ | RepackLayers _ => true | _ => false end.

(** A read of the flag that finds it cleared. *)
Definition is_false_read (e : event) : bool :=
  match e with FlagRead false => true | _ => false end.

(** The flag as the [n]-th read finds it while [run] has not cleared it. *)
Definition sees_running (w : World) (n : nat) : bool :=
  match stop_after w with
  | None => true
  | Some k => (n <? k)%nat
  end.

Lemma flag_value_eq w c : flag_value w c = negb (cleared c) && sees_running w (reads c).
Proof. reflexivity. Qed.

Lemma flag_value_ext w c c' :
  reads c = reads c' -> cleared c = cleared c' -> flag_value w c = flag_value w c'.
Proof. intros H1 H2. rewrite !flag_value_eq, H1, H2. reflexivity. Qed.

Lemma sees_running_mono w n m : n <= m -> sees_running w m = true -> sees_running w n = true.
Proof.
  unfold sees_running. destruct (stop_after w) as [k|]; [|reflexivity].
  intros Hn Hm. apply Nat.ltb_lt in Hm. apply Nat.ltb_lt. lia.
Qed.

Lemma trace_cancels : forall l c,
  trace (fold_left (fun c f => emit (Cancel f) c) l c) = trace c ++ map Cancel l
  /\ reads (fold_left (fun c f => emit (Cancel f) c) l c) = reads c
  /\ cleared (fold_left (fun c f => emit (Cancel f) c) l c) = cleared c.
Proof.
  induction l as [|x l IH]; intros c; cbn [fold_left map].
  - rewrite app_nil_r. auto.
  - destruct (IH (emit (Cancel x) c)) as (H1 & H2 & H3).
    rewrite H1, H2, H3. cbn. rewrite <- app_assoc. auto.
Qed.

End Events.
End TraceSpec.

(** ** The submission loop, iteration by iteration *)

Module SubmitFlow.
Import PyStr OsPath Numeric Scan Pipeline TraceSpec SubmitSpec.

Section Flow.
Context {T : PipelineTypes} {C : Core}.
Variables (w : World) (input_path out : string) (total : nat).

Abbreviation step := (submit_step w input_path out total).
Abbreviation body := (analyze_and_submit w input_path out total).

(** Whether [core.load_image] reads the file of this name. *)
Definition loadable (f : string) : bool :=
  match load_image (join input_path f) with
  | Some _ => true
  | None => false
  end.

Definition task_path (t : Task) : string := filepath (image_data t).

(** An iteration that finds the flag set. *)
Definition pass (s : SubState) (item : nat * string) : SubState :=
  {| sub_ctl := fst (body (snd (read_flag w (sub_ctl s))) (sub s) item);
     sub := snd (body (snd (read_flag w (sub_ctl s))) (sub s) item);
     sub_broken := false |}.

(** The iteration that finds it cleared. *)
Definition halt (s : SubState) : SubState :=
  {| sub_ctl := emit (StatusUpdate stopped_msg) (snd (read_flag w (sub_ctl s)));
     sub := sub s; sub_broken := true |}.

Lemma step_pass s item :
  sub_broken s = false -> flag_value w (sub_ctl s) = true -> step s item = pass s item.
Proof.
  intros Hb Hf. unfold submit_step, pass, read_flag. rewrite Hb, Hf. cbn [negb snd].
  destruct (analyze_and_submit _ _ _ _ _ _ _). reflexivity.
Qed.

Lemma step_halt s item :
  sub_broken s = false -> flag_value w (sub_ctl s) = false -> step s item = halt s.
Proof.
  intros Hb Hf. unfold submit_step, halt, read_flag. rewrite Hb, Hf. reflexivity.
Qed.

Lemma steps_broken items : forall s, sub_broken s = true -> fold_left step items s = s.
Proof.
  induction items as [|x items IH]; intros s Hb; [reflexivity|].
  cbn [fold_left]. unfold submit_step at 2. rewrite Hb. apply IH, Hb.
Qed.

(** What the body of the loop does with one file. *)
Lemma body_cases c u i f :
  (loadable f = false
   /\ body c u (i, f)
      = (emit (StatusUpdate (skipping_msg f))
           (emit (StatusUpdate (analyzing_msg f i total)) c), u))
  \/ (exists t,
        loadable f = true
        /\ task_path t = join input_path f
        /\ fst (body c u (i, f))
           = emit (Submit t) (emit (StatusUpdate (analyzing_msg f i total)) c)
        /\ active_futures (snd (body c u (i, f))) = active_futures u ++ [t]).
Proof.
  unfold analyze_and_submit, loadable.
  destruct (load_image (join input_path f)) as [[bin orig]|]; [right|left; auto].
  destruct (if String.eqb (blending_mode (cfg w)) "roi_fade" then _ else _)
    as [tracker' rois].
  eexists. split; [reflexivity|]. split; [|split; reflexivity]. reflexivity.
Qed.

(** How a stretch of iterations that find the flag set moves the state. *)
Record advance (items : list (nat * string)) (s s' : SubState)
    (tr : list event) (new : list Task) : Prop := {
  adv_trace : trace (sub_ctl s') = trace (sub_ctl s) ++ tr;
  adv_reads : reads (sub_ctl s') = reads (sub_ctl s) + length items;
  adv_cleared : cleared (sub_ctl s') = cleared (sub_ctl s);
  adv_futures : active_futures (sub s') = active_futures (sub s) ++ new;
  adv_paths :
    map task_path new = map (join input_path) (List.filter loadable (map snd items));
  adv_submits : List.filter is_submit tr = map Submit new;
  adv_error : existsb is_error tr = false;
  adv_repack : existsb is_repack tr = false;
  adv_cancel : existsb is_cancel tr = false;
  adv_true_reads :
    cleared (sub_ctl s) = false ->
    (forall r, reads (sub_ctl s) <= r < reads (sub_ctl s) + length items ->
               sees_running w r = true) ->
    existsb is_false_read tr = false;
  adv_skips :
    forall f, In f (map snd items) -> loadable f = false ->
              In (StatusUpdate (skipping_msg f)) tr
}.

Lemma advance_nil s : advance [] s s [] [].
Proof.
  split; cbn; auto; try (symmetry; apply app_nil_r); try tauto.
Qed.

Lemma advance_app l1 l2 s s1 s2 tr1 tr2 n1 n2 :
  advance l1 s s1 tr1 n1 -> advance l2 s1 s2 tr2 n2 ->
  advance (l1 ++ l2) s s2 (tr1 ++ tr2) (n1 ++ n2).
Proof.
  intros A1 A2. split.
  - rewrite (adv_trace _ _ _ _ _ A2), (adv_trace _ _ _ _ _ A1), app_assoc. reflexivity.
  - rewrite (adv_reads _ _ _ _ _ A2), (adv_reads _ _ _ _ _ A1), length_app. lia.
  - rewrite (adv_cleared _ _ _ _ _ A2). apply (adv_cleared _ _ _ _ _ A1).
  - rewrite (adv_futures _ _ _ _ _ A2), (adv_futures _ _ _ _ _ A1), app_assoc. reflexivity.
  - rewrite !map_app, List.filter_app, map_app.
    rewrite (adv_paths _ _ _ _ _ A1), (adv_paths _ _ _ _ _ A2). reflexivity.
  - rewrite List.filter_app, map_app.
    rewrite (adv_submits _ _ _ _ _ A1), (adv_submits _ _ _ _ _ A2). reflexivity.
  - rewrite existsb_app, (adv_error _ _ _ _ _ A1), (adv_error _ _ _ _ _ A2). reflexivity.
  - rewrite existsb_app, (adv_repack _ _ _ _ _ A1), (adv_repack _ _ _ _ _ A2). reflexivity.
  - rewrite existsb_app, (adv_cancel _ _ _ _ _ A1), (adv_cancel _ _ _ _ _ A2). reflexivity.
  - intros Hc Hr. rewrite length_app in Hr. rewrite existsb_app.
    rewrite (adv_true_reads _ _ _ _ _ A1 Hc) by (intros r Hrr; apply Hr; lia).
    rewrite (adv_true_reads _ _ _ _ _ A2); [reflexivity| |].
    + rewrite (adv_cleared _ _ _ _ _ A1). exact Hc.
    + intros r Hrr. rewrite (adv_reads _ _ _ _ _ A1) in Hrr. apply Hr. lia.
  - intros f Hf Hl. rewrite map_app in Hf. apply in_app_or in Hf. apply in_or_app.
    destruct Hf as [Hf|Hf]; [left|right]; eapply adv_skips; eauto.
Qed.

Lemma advance_pass s item : exists tr new, advance [item] s (pass s item) tr new.
Proof.
  destruct item as [i f].
  destruct (body_cases (snd (read_flag w (sub_ctl s))) (sub s) i f)
    as [[Hl E]|(t & Hl & Hp & Ec & Ef)].
  - exists [FlagRead (flag_value w (sub_ctl s));
            StatusUpdate (analyzing_msg f i total);
            StatusUpdate (skipping_msg f)], [].
    unfold pass. rewrite E. split; cbn [sub_ctl sub fst snd map List.filter length].
    + cbn. rewrite <- !app_assoc. reflexivity.
    + cbn. lia.
    + reflexivity.
    + symmetry. apply app_nil_r.
    + rewrite Hl. reflexivity.
    + destruct (flag_value w (sub_ctl s)); reflexivity.
    + reflexivity.
    + reflexivity.
    + reflexivity.
    + intros Hc Hr. cbn. rewrite flag_value_eq, Hc, Hr by lia. reflexivity.
    + intros g [<-|[]] _. right. right. left. reflexivity.
  - exists [FlagRead (flag_value w (sub_ctl s));
            StatusUpdate (analyzing_msg f i total);
            Submit t], [t].
    unfold pass. split; cbn [sub_ctl sub fst snd map List.filter length].
    + rewrite Ec. cbn. rewrite <- !app_assoc. reflexivity.
    + rewrite Ec. cbn. lia.
    + rewrite Ec. reflexivity.
    + exact Ef.
    + rewrite Hl, Hp. reflexivity.
    + destruct (flag_value w (sub_ctl s)); reflexivity.
    + reflexivity.
    + reflexivity.
    + reflexivity.
    + intros Hc Hr. cbn. rewrite flag_value_eq, Hc, Hr by lia. reflexivity.
    + intros g [<-|[]] Hg. congruence.
Qed.

Lemma advance_passes items : forall s,
  exists tr new, advance items s (fold_left pass items s) tr new.
Proof.
  induction items as [|x items IH]; intros s.
  - exists [], []. apply advance_nil.
  - destruct (advance_pass s x) as (tr1 & n1 & A1).
    destruct (IH (pass s x)) as (tr2 & n2 & A2).
    exists (tr1 ++ tr2), (n1 ++ n2). apply (advance_app [x] items _ _ _ _ _ _ _ A1 A2).
Qed.

(** The iterations that run before the user's stop is seen. *)
Definition passing (r0 : nat) (items : list (nat * string)) : list (nat * string) :=
  match stop_after w with
  | None => items
  | Some k => take (k - r0) items
  end.

(** The loop: iterations that pass the check, and then a [break] if the
    flag is found cleared while files remain. *)
Lemma loop_decompose items : forall s,
  sub_broken s = false -> cleared (sub_ctl s) = false ->
  fold_left step items s
  = if (length (passing (reads (sub_ctl s)) items) <? length items)%nat
    then halt (fold_left pass (passing (reads (sub_ctl s)) items) s)
    else fold_left pass items s.
Proof.
  induction items as [|x items IH]; intros s Hb Hc.
  - unfold passing. destruct (stop_after w); [rewrite take_nil|]; reflexivity.
  - cbn [fold_left].
    destruct (flag_value w (sub_ctl s)) eqn:Hf.
    + rewrite step_pass by assumption.
      destruct (advance_pass s x) as (tr & new & A).
      rewrite IH; [|reflexivity|rewrite (adv_cleared _ _ _ _ _ A); exact Hc].
      rewrite (adv_reads _ _ _ _ _ A). cbn [length].
      rewrite flag_value_eq, Hc in Hf. cbn in Hf. unfold sees_running in Hf.
      unfold passing. destruct (stop_after w) as [k|].
      * apply Nat.ltb_lt in Hf.
        replace (k - reads (sub_ctl s)) with (S (k - (reads (sub_ctl s) + 1))) by lia.
        cbn [take length fold_left].
        destruct (Nat.ltb_spec (length (take (k - (reads (sub_ctl s) + 1)) items))
                    (length items));
          destruct (Nat.ltb_spec (S (length (take (k - (reads (sub_ctl s) + 1)) items)))
                      (S (length items))); try lia; reflexivity.
      * rewrite !Nat.ltb_irrefl. reflexivity.
    + rewrite step_halt by assumption. rewrite steps_broken by reflexivity.
      rewrite flag_value_eq, Hc in Hf. cbn in Hf. unfold sees_running in Hf.
      unfold passing. destruct (stop_after w) as [k|]; [|discriminate].
      apply Nat.ltb_ge in Hf.
      replace (k - reads (sub_ctl s)) with 0 by lia. reflexivity.
Qed.

End Flow.
End SubmitFlow.

(** ** The completion loop *)

Module CompletionFlow.
Import PyStr OsPath Numeric Scan Pipeline TraceSpec.

Section Flow.
Context {T : PipelineTypes} {C : Core}.
Variables (w : World) (st : list (deque array_obj)) (futures : list Task) (total : nat).

Abbreviation cstep := (completion_step w st futures total).

Definition entering (c : Ctl) : ComplState :=
  {| cs_ctl := c; processed_count := 0; yielded := []; cancelled := [];
     cs_status := Looping |}.

(** The cancellations of the [except] branch. *)
Definition cancel_calls : list event := map Cancel (seq 0 (length futures)).

Definition cancelled_of (done : list nat) : list nat :=
  List.filter (fun f => pending_at_cancel w f && negb (mem f done))
    (seq 0 (length futures)).

(** What holds of the loop state, whatever the schedule; [tr] are the
    events since the loop was entered with [c]. *)
Record compl_inv (c : Ctl) (s : ComplState) (tr : list event) : Prop := {
  ci_trace : trace (cs_ctl s) = trace c ++ tr;
  ci_submit : existsb is_submit tr = false;
  ci_repack : existsb is_repack tr = false;
  ci_reads : reads c <= reads (cs_ctl s);
  ci_looping :
    cs_status s = Looping ->
    cleared (cs_ctl s) = false /\ cancelled s = []
    /\ existsb is_error tr = false /\ existsb is_false_read tr = false
    /\ existsb is_cancel tr = false;
  ci_stop :
    cs_status s = LeftOnStop ->
    cleared (cs_ctl s) = false /\ cancelled s = []
    /\ existsb is_error tr = false /\ existsb is_cancel tr = false
    /\ flag_value w (cs_ctl s) = false;
  ci_fail :
    forall i, cs_status s = LeftOnFailure i ->
    cleared (cs_ctl s) = true /\ flag_value w c = true
    /\ cancelled s = cancelled_of (yielded s) /\ In i (yielded s)
    /\ exists e t tr0,
         futures !! i = Some t
         /\ returned (exec_task st t) = Raise e
         /\ tr = tr0 ++ ErrorSignal (task_failed_msg e) :: cancel_calls
         /\ existsb is_error tr0 = false
         /\ existsb is_false_read tr0 = false
}.

Lemma entering_inv c : cleared c = false -> compl_inv c (entering c) [].
Proof.
  intros Hc. split; cbn; auto; try discriminate.
  symmetry. apply app_nil_r.
Qed.

Lemma existsb_cancel_calls (P : event -> bool) :
  (forall i, P (Cancel i) = false) -> existsb P cancel_calls = false.
Proof.
  intros H. unfold cancel_calls. induction (seq 0 (length futures)) as [|x l IH];
    cbn; [reflexivity|]. rewrite H, IH. reflexivity.
Qed.

Lemma compl_step_inv c s tr i :
  cleared c = false -> compl_inv c s tr -> exists tr', compl_inv c (cstep s i) tr'.
Proof.
  intros Hc I. unfold completion_step.
  destruct (cs_status s) eqn:Hs; try (exists tr; exact I).
  destruct (futures !! i) as [t|] eqn:Hi; [|exists tr; exact I].
  destruct (ci_looping c s tr I Hs) as (Hcl & Hcan & Herr & Hfr & Hcc).
  unfold read_flag. destruct (flag_value w (cs_ctl s)) eqn:Hf; cbn [negb].
  - unfold take_result. destruct (returned (exec_task st t)) as [p|e] eqn:Hres.
    + eexists. split; cbn [cs_ctl cs_status cancelled yielded]; try discriminate.
      * cbn. rewrite (ci_trace c s tr I), <- !app_assoc. reflexivity.
      * rewrite !existsb_app, (ci_submit c s tr I). reflexivity.
      * rewrite !existsb_app, (ci_repack c s tr I). reflexivity.
      * cbn. pose proof (ci_reads c s tr I). lia.
      * intros _. cbn. rewrite !existsb_app, Herr, Hfr, Hcc. auto.
    + exists (tr ++ FlagRead true :: ErrorSignal (task_failed_msg e) :: cancel_calls).
      destruct (trace_cancels (seq 0 (length futures))
                  (clear_flag (emit (ErrorSignal (task_failed_msg e))
                     {| reads := S (reads (cs_ctl s)); cleared := cleared (cs_ctl s);
                        trace := trace (cs_ctl s) ++ [FlagRead true] |})))
        as (Ht & Hr & Hcl').
      split; cbn [cs_ctl cs_status cancelled yielded]; try discriminate.
      * rewrite Ht. cbn. rewrite (ci_trace c s tr I), <- !app_assoc. reflexivity.
      * rewrite existsb_app, (ci_submit c s tr I). cbn.
        apply existsb_cancel_calls. reflexivity.
      * rewrite existsb_app, (ci_repack c s tr I). cbn.
        apply existsb_cancel_calls. reflexivity.
      * rewrite Hr. cbn. pose proof (ci_reads c s tr I). lia.
      * intros j Hj. rewrite Hcl'. cbn. split; [reflexivity|]. split.
        { rewrite flag_value_eq, Hcl in Hf. cbn in Hf.
          rewrite flag_value_eq, Hc. cbn.
          eapply sees_running_mono; [apply (ci_reads c s tr I)|exact Hf]. }
        split; [reflexivity|]. split; [apply in_or_app; right; left; congruence|].
        inversion Hj; subst j.
        exists e, t, (tr ++ [FlagRead true]). rewrite <- app_assoc.
        repeat split; auto; rewrite existsb_app; cbn.
        { rewrite Herr. reflexivity. }
        { rewrite Hfr. reflexivity. }
  - exists (tr ++ [FlagRead false]).
    split; cbn [cs_ctl cs_status cancelled yielded]; try discriminate.
    + cbn. rewrite (ci_trace c s tr I), <- app_assoc. reflexivity.
    + rewrite existsb_app, (ci_submit c s tr I). reflexivity.
    + rewrite existsb_app, (ci_repack c s tr I). reflexivity.
    + cbn. pose proof (ci_reads c s tr I). lia.
    + intros _. cbn. rewrite !existsb_app, Herr, Hcc. repeat split; auto.
      rewrite flag_value_eq in Hf |- *. cbn. rewrite Hcl in *. cbn in *.
      destruct (sees_running w (S (reads (cs_ctl s)))) eqn:E; [|reflexivity].
      rewrite (sees_running_mono w (reads (cs_ctl s)) (S (reads (cs_ctl s)))) in Hf;
        [discriminate|lia|exact E].
Qed.

Lemma steps_inv c order : forall s tr,
  cleared c = false -> compl_inv c s tr ->
  exists tr', compl_inv c (fold_left cstep order s) tr'.
Proof.
  induction order as [|i order IH]; intros s tr Hc I; [exists tr; exact I|].
  cbn [fold_left]. destruct (compl_step_inv c s tr i Hc I) as [tr' I']. eapply IH; eauto.
Qed.

Lemma compl_loop_inv c :
  cleared c = false ->
  exists tr, compl_inv c (completion_loop w st futures total c) tr.
Proof. intros Hc. eapply steps_inv; eauto using entering_inv. Qed.


(** The futures that [as_completed] really yields. *)
Definition valid (order : list nat) : list nat :=
  List.filter (fun i => match futures !! i with Some _ => true | None => false end) order.

Definition returns_ok (i : nat) : Prop :=
  forall t, futures !! i = Some t -> exists p, returned (exec_task st t) = Ok p.

Lemma step_invalid s i : futures !! i = None -> cstep s i = s.
Proof.
  intros Hi. unfold completion_step. rewrite Hi. destruct (cs_status s); reflexivity.
Qed.

(** The iteration for a future that returned, with the flag set. *)
Lemma step_returned s i t p :
  cs_status s = Looping -> flag_value w (cs_ctl s) = true ->
  futures !! i = Some t -> returned (exec_task st t) = Ok p ->
  cstep s i
  = {| cs_ctl :=
         emit (ProgressUpdate (percent (S (processed_count s)) total))
           (emit (StatusUpdate (completed_msg (S (processed_count s)) total))
              (snd (read_flag w (cs_ctl s))));
       processed_count := S (processed_count s);
       yielded := yielded s ++ [i]; cancelled := []; cs_status := Looping |}.
Proof.
  intros Hs Hf Hi Hp. unfold completion_step, read_flag, take_result.
  rewrite Hs, Hi, Hf, Hp. reflexivity.
Qed.


(** Futures that return, while the flag stays set: the loop goes on. *)
Lemma steps_ok order : forall s,
  cs_status s = Looping -> cleared (cs_ctl s) = false ->
  (forall i, In i order -> returns_ok i) ->
  (forall r, reads (cs_ctl s) <= r < reads (cs_ctl s) + length order ->
             sees_running w r = true) ->
  cs_status (fold_left cstep order s) = Looping
  /\ cleared (cs_ctl (fold_left cstep order s)) = false
  /\ yielded (fold_left cstep order s) = yielded s ++ valid order
  /\ reads (cs_ctl (fold_left cstep order s)) <= reads (cs_ctl s) + length order.
Proof.
  induction order as [|i order IH]; intros s Hs Hc Hok Hr.
  - cbn. rewrite app_nil_r. repeat split; auto. lia.
  - cbn [fold_left valid List.filter length] in *.
    destruct (futures !! i) as [t|] eqn:Hi.
    + assert (Hf : flag_value w (cs_ctl s) = true).
      { rewrite flag_value_eq, Hc, (Hr (reads (cs_ctl s))) by lia. reflexivity. }
      destruct (Hok i (or_introl eq_refl) t Hi) as [p Hp].
      rewrite (step_returned s i t p Hs Hf Hi Hp).
      match goal with |- context [fold_left _ order ?s1] =>
        destruct (IH s1) as (H1 & H2 & H3 & H4) end.
      * reflexivity.
      * exact Hc.
      * intros j Hj. apply Hok. right. exact Hj.
      * intros r Hrr. cbn in Hrr. apply Hr. lia.
      * rewrite H1, H2, H3. cbn in H4 |- *. rewrite <- app_assoc.
        repeat split; auto. lia.
    + rewrite (step_invalid s i Hi).
      destruct (IH s Hs Hc) as (H1 & H2 & H3 & H4).
      * intros j Hj. apply Hok. right. exact Hj.
      * intros r Hrr. apply Hr. lia.
      * rewrite H1, H2, H3. repeat split; auto. lia.
Qed.

End Flow.
End CompletionFlow.

(** ** The run as a whole *)

Module RunSpec.
Import PyStr OsPath Numeric Scan Pipeline TraceSpec.

Section Run.
Context {T : PipelineTypes} {C : Core}.
Variable w : World.

(** The events of [_run_uvtools_extraction]. *)
Definition setup_events : list event :=
  if uvtools_mode w then
    [StatusUpdate "Starting UVTools slice extraction...";
     ExtractLayers (session_temp_folder w)]
    ++ match extract_layers w with
       | Ok _ => [StatusUpdate "UVTools extraction completed."]
       | Raise _ => []
       end
  else [].

(** The folder the images are read from, unless the extraction raises. *)
Definition input_of_run : outcome string :=
  if uvtools_mode w then extract_layers w else Ok (input_folder (cfg w)).

Lemma setup_spec c :
  trace (fst (setup w c)) = trace c ++ setup_events
  /\ reads (fst (setup w c)) = reads c
  /\ cleared (fst (setup w c)) = cleared c
  /\ snd (setup w c) = input_of_run.
Proof.
  unfold setup, setup_events, input_of_run. destruct (uvtools_mode w).
  - destruct (extract_layers w); cbn; rewrite <- ?app_assoc; auto.
  - cbn. rewrite app_nil_r. auto.
Qed.

(** The events of [_run_uvtools_repack]. *)
Definition repack_events (folder : string) : list event :=
  [StatusUpdate "Generating UVTools operation file..."; GenerateUvtop folder]
  ++ match generate_uvtop_file w with
     | Raise _ => []
     | Ok uvtop_filepath =>
         [StatusUpdate "Operation file generated.";
          StatusUpdate "Repacking slice file with processed layers...";
          RepackLayers uvtop_filepath]
         ++ match repack_layers w with
            | Raise _ => []
            | Ok final_output_path =>
                [StatusUpdate ("Successfully created: " +:+ basename final_output_path)]
            end
     end.

Lemma repack_spec folder c :
  trace (fst (fst (_run_uvtools_repack w folder c))) = trace c ++ repack_events folder
  /\ reads (fst (fst (_run_uvtools_repack w folder c))) = reads c
  /\ cleared (fst (fst (_run_uvtools_repack w folder c))) = cleared c.
Proof.
  unfold _run_uvtools_repack, repack_events.
  destruct (generate_uvtop_file w); [destruct (repack_layers w)|];
    cbn; rewrite <- ?app_assoc; auto.
Qed.

Lemma repack_events_quiet folder :
  existsb is_error (repack_events folder) = false
  /\ existsb is_false_read (repack_events folder) = false
  /\ existsb is_submit (repack_events folder) = false
  /\ In (GenerateUvtop folder) (repack_events folder).
Proof.
  unfold repack_events.
  destruct (generate_uvtop_file w); [destruct (repack_layers w)|]; cbn;
    repeat split; auto.
Qed.

(** The events between the [with] block and the end of the [try] block. *)
Definition gate_events (c2 : Ctl) : list event :=
  if uvtools_mode w then
    FlagRead (flag_value w c2)
    :: (if flag_value w c2 then repack_events (processing_output_path w) else [])
  else [].

Definition after_pool (input_path : string) (c1 : Ctl) : Ctl :=
  emit (StatusUpdate all_done_msg) (cs_ctl (completed w input_path c1)).

Lemma pool_spec input_path c1 :
  let b := pool_and_repack w input_path c1 in
  trace (b_ctl b)
  = trace (cs_ctl (completed w input_path c1))
    ++ StatusUpdate all_done_msg :: gate_events (after_pool input_path c1)
  /\ cleared (b_ctl b) = cleared (cs_ctl (completed w input_path c1))
  /\ reads (b_ctl b)
     = reads (cs_ctl (completed w input_path c1)) + (if uvtools_mode w then 1 else 0)
  /\ b_futures b = active_futures (sub (submitted w input_path c1))
  /\ b_store b = objects (sub (submitted w input_path c1))
  /\ b_cancelled b = cancelled (completed w input_path c1)
  /\ (uvtools_mode w && flag_value w (after_pool input_path c1) = false ->
      b_raised b = None
      /\ b_files b
         = files_after_pool w (objects (sub (submitted w input_path c1)))
             (cancelled (completed w input_path c1))
             (active_futures (sub (submitted w input_path c1)))).
Proof.
  unfold pool_and_repack, gate_events, after_pool.
  destruct (uvtools_mode w); cbn [andb].
  - unfold read_flag.
    destruct (flag_value w (emit (StatusUpdate all_done_msg) _)) eqn:Hf.
    + match goal with |- context [_run_uvtools_repack w ?f ?c] =>
        destruct (repack_spec f c) as (H1 & H2 & H3);
        destruct (_run_uvtools_repack w f c) as [[c4 e] made] end.
      cbn [fst] in *. cbn [b_ctl b_futures b_store b_cancelled b_raised b_files].
      rewrite H1, H2, H3. cbn. rewrite <- !app_assoc. cbn.
      repeat split; auto; try lia; discriminate.
    + cbn. rewrite <- !app_assoc. cbn. repeat split; auto; lia.
  - cbn. repeat split; auto; lia.
Qed.

Definition except_events (raised : option exn) : list event :=
  match raised with
  | Some e => [ErrorSignal (thread_error_msg e)]
  | None => []
  end.

Definition cleanup_events : list event :=
  if cleanup_runs w then
    [StatusUpdate ("Deleting temporary folder: " +:+ session_temp_folder w);
     Rmtree (session_temp_folder w);
     match rmtree_error w with
     | None => StatusUpdate "Temporary files deleted."
     | Some e => ErrorSignal ("Could not delete temp folder: " +:+ exc_str e)
     end]
  else [].

(** The last three events of every run. *)
Definition closing (running : bool) : list event :=
  [FlagRead running;
   StatusUpdate (if running then complete_msg else stopped_or_error_msg);
   FinishedSignal].

Lemma except_spec raised c :
  trace (except_clause raised c) = trace c ++ except_events raised
  /\ reads (except_clause raised c) = reads c
  /\ cleared (except_clause raised c) = cleared c.
Proof.
  destruct raised; cbn; rewrite ?app_nil_r; auto.
Qed.

Lemma cleanup_spec c files :
  trace (fst (cleanup w c files)) = trace c ++ cleanup_events
  /\ reads (fst (cleanup w c files)) = reads c
  /\ cleared (fst (cleanup w c files)) = cleared c
  /\ (cleanup_runs w = false -> snd (cleanup w c files) = files).
Proof.
  unfold cleanup, cleanup_events. destruct (cleanup_runs w).
  - destruct (rmtree_error w); cbn; rewrite <- ?app_assoc; repeat split; auto;
      discriminate.
  - cbn. rewrite app_nil_r. auto.
Qed.

(** A run: the [try] block, the [except] clause, the cleanup, and the last
    read of the flag. *)
Lemma run_spec :
  let b := try_body w started in
  r_trace (run w)
  = trace (b_ctl b) ++ except_events (b_raised b) ++ cleanup_events
    ++ closing (flag_value w (b_ctl b))
  /\ r_running (run w) = flag_value w (b_ctl b)
  /\ r_futures (run w) = b_futures b
  /\ r_store (run w) = b_store b
  /\ r_fates (run w) = imap (fate_of (b_store b) (b_cancelled b)) (b_futures b)
  /\ (cleanup_runs w = false -> r_files (run w) = b_files b).
Proof.
  intros b. unfold run. fold b.
  destruct (except_spec (b_raised b) (b_ctl b)) as (E1 & E2 & E3).
  destruct (cleanup_spec (except_clause (b_raised b) (b_ctl b)) (b_files b))
    as (K1 & K2 & K3 & K4).
  destruct (cleanup w (except_clause (b_raised b) (b_ctl b)) (b_files b))
    as [c2 files]. cbn [fst snd] in *.
  unfold read_flag.
  assert (Hf : flag_value w c2 = flag_value w (b_ctl b)).
  { apply flag_value_ext; congruence. }
  cbn [r_trace r_running r_futures r_store r_fates r_files].
  rewrite Hf. cbn. rewrite K1, E1, <- !app_assoc. cbn. repeat split; auto.
Qed.

End Run.
End RunSpec.

(** ** The submission loop of a run *)

Module PoolSpec.
Import PyStr OsPath Numeric Scan Pipeline TraceSpec SubmitSpec SubmitFlow.

Section Pool.
Context {T : PipelineTypes} {C : Core}.
Variables (w : World) (input_path out : string) (total : nat).

Definition entering (c : Ctl) : SubState :=
  {| sub_ctl := c; sub := initial_sub w; sub_broken := false |}.

(** The events of the [break]. *)
Definition halt_events (broke : bool) : list event :=
  if broke then [FlagRead false; StatusUpdate stopped_msg] else [].

(** Whether the loop over [items], entered after [r0] reads, is left by
    [break]. *)
Definition breaks (r0 : nat) (items : list (nat * string)) : bool :=
  (length (passing w r0 items) <? length items)%nat.

Lemma passing_running r0 items r :
  r0 <= r < r0 + length (passing w r0 items) -> sees_running w r = true.
Proof.
  unfold passing, sees_running. destruct (stop_after w) as [k|]; [|reflexivity].
  rewrite length_take. intros H. apply Nat.ltb_lt. lia.
Qed.

Lemma breaks_stopped r0 items :
  breaks r0 items = true -> sees_running w (r0 + length (passing w r0 items)) = false.
Proof.
  unfold breaks, passing, sees_running. destruct (stop_after w) as [k|].
  - rewrite length_take. intros H. apply Nat.ltb_lt in H. apply Nat.ltb_ge. lia.
  - rewrite Nat.ltb_irrefl. discriminate.
Qed.

Lemma not_breaks_all r0 items : breaks r0 items = false -> passing w r0 items = items.
Proof.
  unfold breaks, passing. destruct (stop_after w) as [k|]; [|reflexivity].
  intros H. apply Nat.ltb_ge in H. rewrite length_take in H.
  apply take_ge. lia.
Qed.

(** The loop, from the state in which [run] enters it. *)
Lemma loop_spec c items :
  cleared c = false ->
  exists tr new,
    advance w input_path (passing w (reads c) items) (entering c)
      (fold_left (pass w input_path out total) (passing w (reads c) items) (entering c))
      tr new
    /\ existsb is_false_read tr = false
    /\ trace (sub_ctl (submit_loop w input_path out total c items))
       = trace c ++ tr ++ halt_events (breaks (reads c) items)
    /\ cleared (sub_ctl (submit_loop w input_path out total c items)) = false
    /\ reads (sub_ctl (submit_loop w input_path out total c items))
       = reads c + length (passing w (reads c) items)
         + (if breaks (reads c) items then 1 else 0)
    /\ active_futures (sub (submit_loop w input_path out total c items)) = new.
Proof.
  intros Hc.
  destruct (advance_passes w input_path out total (passing w (reads c) items)
              (entering c)) as (tr & new & A).
  exists tr, new. split; [exact A|].
  assert (Hfr : existsb is_false_read tr = false).
  { apply (adv_true_reads _ _ _ _ _ _ _ A Hc).
    intros r Hr. eapply passing_running, Hr. }
  split; [exact Hfr|].
  unfold submit_loop. fold (entering c).
  rewrite loop_decompose by (cbn; auto). cbn [entering sub_ctl].
  fold (entering c). fold (breaks (reads c) items).
  pose proof (adv_trace _ _ _ _ _ _ _ A) as Ht.
  pose proof (adv_reads _ _ _ _ _ _ _ A) as Hr.
  pose proof (adv_cleared _ _ _ _ _ _ _ A) as Hcl.
  pose proof (adv_futures _ _ _ _ _ _ _ A) as Hfu.
  cbn [entering sub_ctl sub initial_sub active_futures app] in Ht, Hr, Hcl, Hfu.
  destruct (breaks (reads c) items) eqn:Hb.
  - assert (Hf : flag_value w (sub_ctl (fold_left (pass w input_path out total)
                   (passing w (reads c) items) (entering c))) = false).
    { rewrite flag_value_eq, Hr, (breaks_stopped _ _ Hb). apply andb_false_r. }
    unfold halt. cbn [sub_ctl sub]. unfold read_flag. rewrite Hf. cbn.
    rewrite Ht, Hcl, Hr, <- !app_assoc. cbn. repeat split; auto. lia.
  - rewrite (not_breaks_all _ _ Hb) in *. unfold halt_events.
    rewrite app_nil_r, Ht, Hcl, Hr. repeat split; auto; lia.
Qed.

End Pool.
End PoolSpec.

(** ** Runs that reach the worker pool *)

Module PoolRun.
Import PyStr OsPath Numeric Scan Pipeline TraceSpec SubmitSpec SubmitFlow.
Import CompletionFlow RunSpec PoolSpec.

Section PoolRun.
Context {T : PipelineTypes} {C : Core}.
Variable w : World.

(** The control state with which the scan begins. *)
Definition entry : Ctl := fst (setup w started).

Lemma entry_spec :
  trace entry = trace started ++ setup_events w
  /\ reads entry = 0 /\ cleared entry = false.
Proof.
  unfold entry. destruct (setup_spec w started) as (H1 & H2 & H3 & _).
  rewrite H1, H2, H3. auto.
Qed.

Lemma setup_events_quiet :
  existsb is_error (setup_events w) = false
  /\ existsb is_false_read (setup_events w) = false
  /\ existsb is_submit (setup_events w) = false
  /\ existsb is_repack (setup_events w) = false.
Proof.
  unfold setup_events. destruct (uvtools_mode w); [destruct (extract_layers w)|];
    cbn; auto.
Qed.

Lemma try_body_pool input_path :
  input_of_run w = Ok input_path -> filtered_files w input_path <> [] ->
  try_body w started = pool_and_repack w input_path entry.
Proof.
  intros Hin Hne. unfold try_body, entry.
  destruct (setup_spec w started) as (_ & _ & _ & H4).
  destruct (setup w started) as [c1 r]. cbn [fst snd] in *. rewrite H4, Hin.
  destruct (filtered_files w input_path) as [|f fs]; [congruence|]. reflexivity.
Qed.

Lemma try_body_raise e :
  input_of_run w = Raise e ->
  b_ctl (try_body w started) = entry
  /\ b_raised (try_body w started) = Some e
  /\ b_futures (try_body w started) = [].
Proof.
  intros Hin. unfold try_body, entry.
  destruct (setup_spec w started) as (_ & _ & _ & H4).
  destruct (setup w started) as [c1 r]. cbn [fst snd] in *. rewrite H4, Hin. auto.
Qed.

Lemma try_body_empty input_path :
  input_of_run w = Ok input_path -> filtered_files w input_path = [] ->
  b_ctl (try_body w started) = emit (ErrorSignal no_images_msg) entry
  /\ b_raised (try_body w started) = None
  /\ b_futures (try_body w started) = [].
Proof.
  intros Hin He. unfold try_body, entry.
  destruct (setup_spec w started) as (_ & _ & _ & H4).
  destruct (setup w started) as [c1 r]. cbn [fst snd] in *. rewrite H4, Hin, He. auto.
Qed.

Lemma snd_enumerate {A} (l : list A) : map snd (enumerate l) = l.
Proof.
  unfold enumerate. generalize 0. induction l as [|x l IH]; intros n; cbn;
    [reflexivity|]. rewrite IH. reflexivity.
Qed.

(** A run that reaches the pool, put together. *)
Lemma pool_run input_path :
  input_of_run w = Ok input_path -> filtered_files w input_path <> [] ->
  let items := enumerate (filtered_files w input_path) in
  let s := submitted w input_path entry in
  let cs := completed w input_path entry in
  let b := pool_and_repack w input_path entry in
  exists tr_sub tr_compl,
    advance w input_path (passing w 0 items) (entering w entry)
      (fold_left (pass w input_path (processing_output_path w)
                    (length (filtered_files w input_path)))
         (passing w 0 items) (entering w entry))
      tr_sub (active_futures (sub s))
    /\ existsb is_false_read tr_sub = false
    /\ trace (sub_ctl s) = trace entry ++ tr_sub ++ halt_events (breaks w 0 items)
    /\ cleared (sub_ctl s) = false
    /\ reads (sub_ctl s)
       = length (passing w 0 items) + (if breaks w 0 items then 1 else 0)
    /\ compl_inv w (objects (sub s)) (active_futures (sub s)) (sub_ctl s) cs tr_compl
    /\ r_trace (run w)
       = (trace started ++ setup_events w ++ tr_sub)
         ++ halt_events (breaks w 0 items)
         ++ tr_compl
         ++ StatusUpdate all_done_msg :: gate_events w (after_pool w input_path entry)
         ++ except_events (b_raised b) ++ cleanup_events w
         ++ closing (r_running (run w))
    /\ r_running (run w) = flag_value w (b_ctl b)
    /\ r_futures (run w) = active_futures (sub s)
    /\ r_store (run w) = objects (sub s)
    /\ r_fates (run w)
       = imap (fate_of (objects (sub s)) (cancelled cs)) (active_futures (sub s))
    /\ (cleanup_runs w = false -> r_files (run w) = b_files b)
    /\ cleared (b_ctl b) = cleared (cs_ctl cs)
    /\ reads (cs_ctl cs) <= reads (b_ctl b)
    /\ (uvtools_mode w && flag_value w (after_pool w input_path entry) = false ->
        b_raised b = None
        /\ b_files b
           = files_after_pool w (objects (sub s)) (cancelled cs) (active_futures (sub s))).
Proof.
  intros Hin Hne. cbv zeta.
  destruct entry_spec as (Et & Er & Ec).
  destruct (loop_spec w input_path (processing_output_path w)
              (length (filtered_files w input_path)) entry
              (enumerate (filtered_files w input_path)) Ec)
    as (tr_sub & new & A & Hfr & Ht & Hcl & Hr & Hfu).
  rewrite Er in *. cbn [Nat.add] in Hr.
  destruct (compl_loop_inv w
              (objects (sub (submitted w input_path entry)))
              (active_futures (sub (submitted w input_path entry)))
              (length (filtered_files w input_path))
              (sub_ctl (submitted w input_path entry)) Hcl) as [tr_compl I].
  exists tr_sub, tr_compl.
  destruct (run_spec w) as (R1 & R2 & R3 & R4 & R5 & R6).
  rewrite (try_body_pool input_path Hin Hne) in R1, R2, R3, R4, R5, R6.
  destruct (pool_spec w input_path entry) as (P1 & P2 & P3 & P4 & P5 & P6 & P7).
  pose proof (ci_trace _ _ _ _ _ _ I) as It.
  unfold completed, submitted in *. subst new.
  split; [exact A|]. split; [exact Hfr|]. split; [exact Ht|]. split; [exact Hcl|].
  split; [exact Hr|]. split; [exact I|].
  split.
  { rewrite R1, R2, P1, It, Ht, Et, <- !app_assoc. reflexivity. }
  split; [exact R2|]. split; [rewrite R3; exact P4|]. split; [rewrite R4; exact P5|].
  split; [rewrite R5, P4, P5, P6; reflexivity|]. split; [exact R6|].
  split; [exact P2|]. split; [rewrite P3; lia|exact P7].
Qed.

End PoolRun.
End PoolRun.

(** ** Unreadable images *)

Module UnreadableSpec.
Import PyStr OsPath Numeric Scan Pipeline TraceSpec SubmitSpec SubmitFlow.
Import CompletionFlow RunSpec PoolSpec PoolRun.

Section Tails.
Context {T : PipelineTypes} {C : Core}.
Variable w : World.

Lemma halt_events_no_submit b : existsb is_submit (halt_events b) = false.
Proof. destruct b; reflexivity. Qed.

Lemma gate_events_no_submit c : existsb is_submit (gate_events w c) = false.
Proof.
  unfold gate_events. destruct (uvtools_mode w); [|reflexivity].
  destruct (flag_value w c); [|reflexivity]. cbn [existsb is_submit orb].
  apply (repack_events_quiet w).
Qed.

Lemma except_events_no_submit r : existsb is_submit (except_events r) = false.
Proof. destruct r; reflexivity. Qed.

Lemma cleanup_events_no_submit : existsb is_submit (cleanup_events w) = false.
Proof.
  unfold cleanup_events. destruct (cleanup_runs w); [|reflexivity].
  destruct (rmtree_error w); reflexivity.
Qed.

Lemma closing_no_submit b : existsb is_submit (closing b) = false.
Proof. reflexivity. Qed.

(** What follows the submission loop holds no submission. *)
Lemma tail_no_submit b0 tr_compl c r b1 :
  existsb is_submit tr_compl = false ->
  existsb is_submit
    (halt_events b0 ++ tr_compl
     ++ StatusUpdate all_done_msg :: gate_events w c
     ++ except_events r ++ cleanup_events w ++ closing b1) = false.
Proof.
  intros H. rewrite !existsb_app. cbn [existsb is_submit orb].
  rewrite !existsb_app, halt_events_no_submit, H, gate_events_no_submit,
    except_events_no_submit, cleanup_events_no_submit. reflexivity.
Qed.

End Tails.

(** C4 as the specification states it: a file that fails to load stops the
    submissions, so every task is for a file in front of it, and an error
    is reported. *)
Definition aborts_on_unreadable {T : PipelineTypes} {C : Core} (w : World) : Prop :=
  forall input_path pre f post,
    input_of_run w = Ok input_path ->
    filtered_files w input_path = pre ++ f :: post ->
    load_image (join input_path f) = None ->
    (forall t, In t (r_futures (run w)) ->
               exists g, In g pre /\ task_path t = join input_path g)
    /\ exists msg, In (ErrorSignal msg) (r_trace (run w)).

(** C4, as the code has it.  An image that cannot be loaded is skipped:
    the status stream gets "Skipping unloadable image", no task is
    submitted for the file and no mask is pushed for it, and the loop goes
    on: the tasks of a run are those of the loadable files among the files
    the loop reaches, which are all files unless the user stops the run.
    No error is emitted up to the last submission. *)
Theorem unreadable_image_skipped :
  forall {T : PipelineTypes} {C : Core} (w : World) (input_path : string),
    input_of_run w = Ok input_path ->
    filtered_files w input_path <> [] ->
    let reached := map snd (passing w 0 (enumerate (filtered_files w input_path))) in
    map task_path (r_futures (run w))
    = map (join input_path) (List.filter (loadable input_path) reached)
    /\ (stop_after w = None -> reached = filtered_files w input_path)
    /\ (forall f, In f reached -> load_image (join input_path f) = None ->
          In (StatusUpdate (skipping_msg f)) (r_trace (run w))
          /\ ~ In (join input_path f) (map task_path (r_futures (run w))))
    /\ deref (r_store (run w)) cache_ref = cache_after w (r_futures (run w))
    /\ exists tr1 tr2,
         r_trace (run w) = tr1 ++ tr2
         /\ existsb is_error tr1 = false
         /\ List.filter is_submit tr1 = map Submit (r_futures (run w))
         /\ existsb is_submit tr2 = false.
Proof.
  intros T C w input_path Hin Hne reached.
  destruct (pool_run w input_path Hin Hne)
    as (tr_sub & tr_compl & A & Hfr & Ht & Hcl & Hr & I & Rt & Rr & Rf & Rs & Rfa & Rfi & _).
  pose proof (adv_paths _ _ _ _ _ _ _ A) as Hp.
  rewrite Rf, Rs.
  split; [exact Hp|]. split.
  { intros Hs. unfold reached, passing. rewrite Hs. apply snd_enumerate. }
  split.
  { intros f Hf Hl. assert (Hlf : loadable input_path f = false).
    { unfold loadable. rewrite Hl. reflexivity. }
    split.
    - rewrite Rt. apply in_or_app. left. apply in_or_app. right. apply in_or_app. right.
      eapply adv_skips; eauto.
    - rewrite Hp. intros Hg. apply in_map_iff in Hg as (g & Eg & Hg).
      apply List.filter_In in Hg as [_ Hg]. unfold loadable in Hg.
      rewrite Eg, Hl in Hg. discriminate. }
  split.
  { apply deref_cache with (out := processing_output_path w).
    unfold submitted. apply submit_loop_inv. }
  exists (trace started ++ setup_events w ++ tr_sub).
  eexists. split; [exact Rt|]. split; [|split].
  - rewrite !existsb_app. destruct (setup_events_quiet w) as (E & _).
    rewrite E, (adv_error _ _ _ _ _ _ _ A). reflexivity.
  - rewrite !List.filter_app. destruct (setup_events_quiet w) as (_ & _ & E & _).
    rewrite (adv_submits _ _ _ _ _ _ _ A). cbn [started emit trace app List.filter is_submit].
    replace (List.filter is_submit (setup_events w)) with (@nil event); [reflexivity|].
    symmetry. clear -E. induction (setup_events w) as [|x l IH]; [reflexivity|].
    cbn in E |- *. apply orb_false_elim in E as [Ex El]. rewrite Ex. apply IH, El.
  - apply tail_no_submit. apply (ci_submit _ _ _ _ _ _ I).
Qed.

Import Demo.

Lemma unreadable_image_skipped_witness :
  let w := world folder_cfg ["x2.png"; "bad1.png"; "y3.png"] None [0; 1] in
  map task_path (r_futures (run w)) = ["/in/x2.png"; "/in/y3.png"].
Proof.
  intros w.
  assert (Hin : input_of_run w = Ok "/in") by reflexivity.
  assert (Hne : filtered_files w "/in" <> []) by (vm_compute; discriminate).
  rewrite (proj1 (unreadable_image_skipped w "/in" Hin Hne)).
  vm_compute. reflexivity.
Defined.

(** The run over [bad1.png], which cannot be loaded, and [x2.png]: the task
    for [x2.png] is submitted all the same. *)
Lemma unreadable_image_not_fatal :
  ~ aborts_on_unreadable (world folder_cfg ["x2.png"; "bad1.png"] None [0]).
Proof.
  intros H.
  destruct (H "/in" [] "bad1.png" ["x2.png"]) as [Hf _];
    [reflexivity | vm_compute; reflexivity | reflexivity |].
  destruct (r_futures (run (world folder_cfg ["x2.png"; "bad1.png"] None [0])))
    as [|t l] eqn:E; [vm_compute in E; discriminate|].
  destruct (Hf t (or_introl eq_refl)) as (g & [] & _).
Qed.

End UnreadableSpec.

(** ** The repack gate *)

Module RepackSpec.
Import PyStr OsPath Numeric Scan Pipeline TraceSpec SubmitSpec SubmitFlow.
Import CompletionFlow RunSpec PoolSpec PoolRun.

Section Gate.
Context {T : PipelineTypes} {C : Core}.
Variable w : World.

Definition head_char (s : string) : option ascii :=
  match s with
  | String c _ => Some c
  | EmptyString => None
  end.

Lemma task_failed_head exc : head_char (task_failed_msg exc) = Some "A"%char.
Proof. reflexivity. Qed.

Lemma thread_error_head e : head_char (thread_error_msg e) = Some "E"%char.
Proof. reflexivity. Qed.

Lemma except_events_no (P : event -> bool) r :
  (forall s, P (ErrorSignal s) = false) -> existsb P (except_events r) = false.
Proof. intros H. destruct r; cbn; rewrite ?H; reflexivity. Qed.

Lemma cleanup_events_no (P : event -> bool) :
  (forall s, P (StatusUpdate s) = false) -> (forall s, P (ErrorSignal s) = false) ->
  (forall s, P (Rmtree s) = false) ->
  existsb P (cleanup_events w) = false.
Proof.
  intros H1 H2 H3. unfold cleanup_events. destruct (cleanup_runs w); [|reflexivity].
  destruct (rmtree_error w); cbn; rewrite ?H1, ?H2, ?H3; reflexivity.
Qed.

Lemma halt_events_no (P : event -> bool) b :
  (forall s, P (StatusUpdate s) = false) -> P (FlagRead false) = false ->
  existsb P (halt_events b) = false.
Proof. intros H1 H2. destruct b; cbn; rewrite ?H1, ?H2; reflexivity. Qed.

(** The flag cannot be found set after it was found cleared. *)
Lemma flag_value_mono c c' :
  reads c <= reads c' -> cleared c = false ->
  flag_value w c' = true -> flag_value w c = true.
Proof.
  intros Hr Hc Hf. rewrite flag_value_eq in *. rewrite Hc. cbn.
  apply andb_prop in Hf as [_ Hf]. eapply sees_running_mono; eauto.
Qed.

(** What a set flag at the gate tells about the two loops. *)
Lemma gate_open input_path tr_compl :
  let items := enumerate (filtered_files w input_path) in
  let s := submitted w input_path (entry w) in
  let cs := completed w input_path (entry w) in
  cleared (sub_ctl s) = false ->
  reads (sub_ctl s) = length (passing w 0 items) + (if breaks w 0 items then 1 else 0) ->
  compl_inv w (objects (sub s)) (active_futures (sub s)) (sub_ctl s) cs tr_compl ->
  flag_value w (after_pool w input_path (entry w)) = true ->
  breaks w 0 items = false
  /\ cs_status cs = Looping
  /\ cancelled cs = []
  /\ existsb is_error tr_compl = false
  /\ existsb is_false_read tr_compl = false.
Proof.
  intros items s cs Hcl Hr I Hf.
  assert (Hf' : flag_value w (cs_ctl cs) = true) by exact Hf.
  assert (Hs : cs_status cs = Looping).
  { destruct (cs_status cs) as [| |i] eqn:E; [reflexivity| |].
    - destruct (ci_stop _ _ _ _ _ _ I E) as (_ & _ & _ & _ & H). congruence.
    - destruct (ci_fail _ _ _ _ _ _ I i E) as (H & _).
      rewrite flag_value_eq, H in Hf'. discriminate. }
  destruct (ci_looping _ _ _ _ _ _ I Hs) as (H1 & H2 & H3 & H4 & _).
  split; [|auto].
  destruct (breaks w 0 items) eqn:Hb; [|reflexivity].
  pose proof (breaks_stopped w 0 items Hb) as Hst. cbn [Nat.add] in Hst.
  rewrite flag_value_eq in Hf'. apply andb_prop in Hf' as [_ Hf'].
  rewrite (sees_running_mono w (length (passing w 0 items)) (reads (cs_ctl cs))) in Hst;
    [discriminate| |exact Hf'].
  pose proof (ci_reads _ _ _ _ _ _ I). lia.
Qed.

Lemma started_quiet (P : event -> bool) :
  (forall s, P (StatusUpdate s) = false) -> existsb P (trace started) = false.
Proof. intros H. cbn. rewrite H. reflexivity. Qed.

Lemma closing_no (P : event -> bool) b :
  (forall s, P (StatusUpdate s) = false) -> (forall r, P (FlagRead r) = false) ->
  P FinishedSignal = false -> existsb P (closing b) = false.
Proof. intros H1 H2 H3. cbn. rewrite H1, H2, H3. reflexivity. Qed.

(** The epilogue reports no task failure. *)
Lemma epilogue_no_task_failure r b exc :
  ~ In (ErrorSignal (task_failed_msg exc))
      (except_events r ++ cleanup_events w ++ closing b).
Proof.
  intros H. apply in_app_or in H as [H|H]; [|apply in_app_or in H as [H|H]].
  - destruct r as [e|]; [|contradiction]. destruct H as [H|[]].
    apply (f_equal (fun ev => match ev with
                              | ErrorSignal s => head_char s
                              | _ => None
                              end)) in H.
    rewrite task_failed_head, thread_error_head in H. discriminate.
  - unfold cleanup_events in H. destruct (cleanup_runs w); [|contradiction].
    destruct H as [H|[H|[H|[]]]]; try discriminate.
    destruct (rmtree_error w); [|discriminate].
    apply (f_equal (fun ev => match ev with
                              | ErrorSignal s => head_char s
                              | _ => None
                              end)) in H.
    rewrite task_failed_head in H. discriminate.
  - destruct H as [H|[H|[H|[]]]]; discriminate.
Qed.

(** The epilogue holds no call of the repack collaborator. *)
Lemma epilogue_no_repack r b :
  existsb is_repack (except_events r ++ cleanup_events w ++ closing b) = false.
Proof.
  rewrite !existsb_app, except_events_no, cleanup_events_no by reflexivity.
  reflexivity.
Qed.

Ltac quiet :=
  repeat first
    [ rewrite existsb_app
    | rewrite started_quiet by reflexivity
    | rewrite except_events_no by reflexivity
    | rewrite cleanup_events_no by reflexivity
    | rewrite halt_events_no by reflexivity
    | rewrite closing_no by reflexivity ].

(** A trace holds no repack call, or the calls of one [_run_uvtools_repack]
    behind a prefix in which the flag was always found set and no error was
    reported. *)
Lemma trace_shape :
  existsb is_repack (r_trace (run w)) = false
  \/ (uvtools_mode w = true
      /\ exists l0 l1,
           r_trace (run w) = l0 ++ repack_events w (processing_output_path w) ++ l1
           /\ existsb is_repack l0 = false
           /\ existsb is_repack l1 = false
           /\ existsb is_false_read l0 = false
           /\ existsb is_error l0 = false
           /\ forall exc, ~ In (ErrorSignal (task_failed_msg exc)) l1).
Proof.
  destruct (run_spec w) as (R1 & _).
  destruct (entry_spec w) as (Et & _ & _).
  destruct (setup_events_quiet w) as (Se & Sf & Ss & Sr).
  destruct (input_of_run w) as [input_path|e] eqn:Hin.
  2:{ left. destruct (try_body_raise w e Hin) as (B1 & B2 & _).
      rewrite R1, B1, B2, Et. quiet. rewrite Sr. reflexivity. }
  destruct (filtered_files w input_path) as [|f0 fs] eqn:Hfiles.
  { left. destruct (try_body_empty w input_path Hin Hfiles) as (B1 & B2 & _).
    rewrite R1, B1, B2. cbn [emit trace]. rewrite Et. quiet. rewrite Sr.
    reflexivity. }
  assert (Hne : filtered_files w input_path <> []) by congruence.
  destruct (pool_run w input_path Hin Hne)
    as (tr_sub & tr_compl & A & Hfr & Ht & Hcl & Hr & I & Rt & _).
  unfold gate_events in Rt.
  destruct (uvtools_mode w) eqn:Hu.
  2:{ left. rewrite Rt. quiet. cbn [existsb is_repack orb]. quiet.
      rewrite Sr, (adv_repack _ _ _ _ _ _ _ A), (ci_repack _ _ _ _ _ _ I).
      reflexivity. }
  destruct (flag_value w (after_pool w input_path (entry w))) eqn:Hf.
  2:{ left. rewrite Rt. quiet. cbn [existsb is_repack orb]. quiet.
      rewrite Sr, (adv_repack _ _ _ _ _ _ _ A), (ci_repack _ _ _ _ _ _ I).
      reflexivity. }
  right. split; [reflexivity|].
  destruct (gate_open input_path tr_compl Hcl Hr I Hf) as (Hb & _ & _ & He & Hfc).
  rewrite Hb in Rt. cbn [halt_events app] in Rt.
  exists ((trace started ++ setup_events w ++ tr_sub) ++ tr_compl
          ++ [StatusUpdate all_done_msg; FlagRead true]).
  eexists. split.
  { rewrite Rt, <- !app_assoc. cbn [app]. reflexivity. }
  split.
  { quiet. rewrite Sr, (adv_repack _ _ _ _ _ _ _ A), (ci_repack _ _ _ _ _ _ I).
    reflexivity. }
  split; [apply epilogue_no_repack|]. split.
  { quiet. rewrite Sf, Hfr, Hfc. reflexivity. }
  split.
  { quiet. rewrite Se, (adv_error _ _ _ _ _ _ _ A), He. reflexivity. }
  intros exc. apply epilogue_no_task_failure.
Qed.

End Gate.

Ltac quiet :=
  repeat first
    [ rewrite existsb_app
    | rewrite started_quiet by reflexivity
    | rewrite except_events_no by reflexivity
    | rewrite cleanup_events_no by reflexivity
    | rewrite halt_events_no by reflexivity
    | rewrite closing_no by reflexivity ].

(** C8.  The repack collaborator is called only in uvtools mode and only
    behind a prefix of the run in which every read of the flag found it set
    and no error was reported: never after a read that found the flag
    cleared, as a stop by the user leaves it, and never in a run that
    reported a task failure.  A run in uvtools mode whose
    extraction succeeds, that has files, is not stopped, and whose tasks all
    return, calls it. *)
Theorem repack_only_on_completion :
  forall {T : PipelineTypes} {C : Core} (w : World),
    (forall pre e post,
       r_trace (run w) = pre ++ e :: post -> is_repack e = true ->
       uvtools_mode w = true
       /\ existsb is_false_read pre = false
       /\ existsb is_error pre = false)
    /\ (forall pre post,
          r_trace (run w) = pre ++ FlagRead false :: post ->
          existsb is_repack post = false)
    /\ (forall exc,
          In (ErrorSignal (task_failed_msg exc)) (r_trace (run w)) ->
          existsb is_repack (r_trace (run w)) = false)
    /\ (forall input_path,
          uvtools_mode w = true ->
          extract_layers w = Ok input_path ->
          filtered_files w input_path <> [] ->
          stop_after w = None ->
          (forall i t, r_futures (run w) !! i = Some t ->
                       exists p, returned (exec_task (r_store (run w)) t) = Ok p) ->
          In (GenerateUvtop (processing_output_path w)) (r_trace (run w))).
Proof.
  intros T C w.
  assert (Hfirst : forall pre e post,
            r_trace (run w) = pre ++ e :: post -> is_repack e = true ->
            uvtools_mode w = true
            /\ existsb is_false_read pre = false
            /\ existsb is_error pre = false).
  { intros pre e post E He.
    destruct (trace_shape w) as [H|(Hu & l0 & l1 & Et & H0 & H1 & Hf & Her & _)].
    - rewrite E, existsb_app in H. cbn in H. rewrite He, orb_true_r in H. discriminate.
    - rewrite E in Et. symmetry in Et.
      destruct (split_middle is_repack _ _ _ _ _ _ H0 H1 Et He)
        as (m1 & m2 & Em & -> & _).
      destruct (repack_events_quiet w (processing_output_path w)) as (Qe & Qf & _).
      rewrite Em, existsb_app in Qe, Qf.
      apply orb_false_elim in Qe as [Qe _]. apply orb_false_elim in Qf as [Qf _].
      rewrite !existsb_app, Hf, Her, Qe, Qf. auto. }
  split; [exact Hfirst|]. split; [|split].
  - intros pre post E.
    destruct (existsb is_repack post) eqn:Hp; [|reflexivity].
    apply existsb_exists in Hp as (e & He & Hr).
    apply in_split in He as (p1 & p2 & ->).
    destruct (Hfirst (pre ++ FlagRead false :: p1) e p2) as (_ & Hf & _).
    + rewrite E, <- app_assoc. reflexivity.
    + exact Hr.
    + rewrite existsb_app in Hf. cbn in Hf. rewrite orb_true_r in Hf. discriminate.
  - intros exc Hin.
    destruct (trace_shape w) as [H|(Hu & l0 & l1 & Et & H0 & H1 & Hf & Her & Hno)];
      [exact H|].
    exfalso. rewrite Et in Hin.
    apply in_app_or in Hin as [Hin|Hin]; [|apply in_app_or in Hin as [Hin|Hin]].
    + apply (existsb_false_in is_error _ _ Her) in Hin. discriminate.
    + destruct (repack_events_quiet w (processing_output_path w)) as (Qe & _).
      apply (existsb_false_in is_error _ _ Qe) in Hin. discriminate.
    + exact (Hno exc Hin).
  - intros input_path Hu Hex Hne Hstop Hok.
    assert (Hin : input_of_run w = Ok input_path).
    { unfold input_of_run. rewrite Hu. exact Hex. }
    destruct (pool_run w input_path Hin Hne)
      as (tr_sub & tr_compl & A & Hfr & Ht & Hcl & Hr & I & Rt & Rr & Rf & Rs & _).
    rewrite Rf, Rs in Hok.
    assert (Hrun : forall r, sees_running w r = true).
    { intros r. unfold sees_running. rewrite Hstop. reflexivity. }
    destruct (steps_ok w (objects (sub (submitted w input_path (entry w))))
                (active_futures (sub (submitted w input_path (entry w))))
                (length (filtered_files w input_path))
                (completion_order w)
                (CompletionFlow.entering (sub_ctl (submitted w input_path (entry w)))))
      as (_ & Hc & _ & _).
    { reflexivity. }
    { exact Hcl. }
    { intros i _ t Hi. eapply Hok, Hi. }
    { intros r _. apply Hrun. }
    assert (Hf : flag_value w (after_pool w input_path (entry w)) = true).
    { unfold after_pool, completed, completion_loop.
      rewrite flag_value_eq. cbn [emit cleared reads].
      unfold CompletionFlow.entering in Hc. rewrite Hc, Hrun. reflexivity. }
    rewrite Rt. unfold gate_events. rewrite Hu, Hf.
    repeat (apply in_or_app; right). right. right.
    apply in_or_app. left. apply (repack_events_quiet w).
Qed.

Import Demo.

Lemma repack_only_on_completion_witness :
  let w := world uvtools_cfg ["a1.png"; "b2.png"] None [1; 0] in
  In (GenerateUvtop (processing_output_path w)) (r_trace (run w)).
Proof.
  intros w.
  apply (proj2 (proj2 (proj2 (repack_only_on_completion w)))
           "/tmp/run_20250101-000000/Input");
    try reflexivity.
  - vm_compute. discriminate.
  - intros i t Hi. destruct i as [|[|i]]; vm_compute in Hi; inversion Hi; subst;
      eexists; vm_compute; reflexivity.
Defined.

End RepackSpec.

(** ** Runs that end early: a task failure, a stop by the user *)

Module AbortSpec.
Import PyStr OsPath Numeric Scan Pipeline TraceSpec SubmitSpec SubmitFlow.
Import CompletionFlow RunSpec PoolSpec PoolRun WorkerSpec UnreadableSpec RepackSpec.

Section Abort.
Context {T : PipelineTypes} {C : Core}.
Variable w : World.









Lemma fates_lookup st cancelled futures j :
  imap (fate_of st cancelled) futures !! j = fate_of st cancelled j <$> futures !! j.
Proof. apply list_lookup_imap. Qed.

End Abort.



Import Demo.



End AbortSpec.

(** ** A stop by the user *)

Module StopSpec.
Import PyStr OsPath Numeric Scan Pipeline TraceSpec SubmitSpec SubmitFlow.
Import CompletionFlow RunSpec PoolSpec PoolRun WorkerSpec UnreadableSpec RepackSpec.
Import AbortSpec.

Section Stop.
Context {T : PipelineTypes} {C : Core}.
Variable w : World.

Lemma snd_take_enumerate {A} (l : list A) k :
  map snd (take k (enumerate l)) = take k l.
Proof. rewrite <- (snd_enumerate l) at 2. symmetry. apply firstn_map. Qed.



End Stop.



Import Demo.



End StopSpec.

(** ** Undo and redo in the slice editor *)

Module SliceEditorSpec.
Import SliceEditor.

Section Undo.
Context {C : Type} {EC : EditCommand C}.
Implicit Types (p : Project C) (c : C) (l : list C).

Lemma pop_snoc l c : pop (l ++ [c]) = Some (c, l).
Proof. unfold pop. rewrite last_snoc, removelast_last. reflexivity. Qed.

Lemma pop_nil : pop (@nil C) = None.
Proof. reflexivity. Qed.

Lemma list_remove_In c : forall l, In c l -> exists l', list_remove c l = Some l'.
Proof.
  induction l as [|y l IH]; intros H; [contradiction|]. cbn.
  destruct (decide (y = c)) as [->|Hne]; [eauto|].
  destruct H as [->|H]; [congruence|]. destruct (IH H) as [l' E]. rewrite E. eauto.
Qed.

Lemma list_remove_perm c : forall l l', list_remove c l = Some l' -> Permutation l (c :: l').
Proof.
  induction l as [|y l IH]; intros l' H; [discriminate|]. cbn in H.
  destruct (decide (y = c)) as [->|Hne].
  - injection H as <-. reflexivity.
  - destruct (list_remove c l) as [t|]; [|discriminate]. injection H as <-.
    rewrite (IH t eq_refl). apply perm_swap.
Qed.

Lemma list_remove_absent c : forall l, ~ In c l -> list_remove c l = None.
Proof.
  induction l as [|y l IH]; intros H; [reflexivity|]. cbn.
  destruct (decide (y = c)) as [->|Hne]; [exfalso; apply H; left; reflexivity|].
  rewrite IH; [reflexivity|]. intros Hc. apply H. right. exact Hc.
Qed.

Lemma layer_edits_In p c :
  In c (layer_edits p (get_affected_layer c)) ->
  exists l, edits p !! get_affected_layer c = Some l /\ In c l.
Proof.
  unfold layer_edits. destruct (edits p !! get_affected_layer c) as [l|]; cbn;
    [eauto|contradiction].
Qed.

(** The fields of the project [perform_undo] returns. *)
Lemma undo_fields p rest c :
  undo_stack p = rest ++ [c] ->
  fst (perform_undo p) = Some c
  /\ undo_stack (snd (perform_undo p)) = rest
  /\ redo_stack (snd (perform_undo p)) = redo_stack p ++ [c]
  /\ edits (snd (perform_undo p))
     = match edits p !! get_affected_layer c with
       | Some l =>
           match list_remove c l with
           | Some l' => <[get_affected_layer c := l']> (edits p)
           | None => edits p
           end
       | None => edits p
       end.
Proof.
  intros Hu. unfold perform_undo. rewrite Hu, pop_snoc.
  unfold _find_and_remove_command. cbn [with_stacks edits].
  destruct (edits p !! get_affected_layer c) as [l|]; [|cbn; auto].
  destruct (list_remove c l); cbn; auto.
Qed.

(** The fields of the project [perform_redo] returns. *)
Lemma redo_fields p rest c :
  redo_stack p = rest ++ [c] ->
  fst (perform_redo p) = Some c
  /\ undo_stack (snd (perform_redo p)) = undo_stack p ++ [c]
  /\ redo_stack (snd (perform_redo p)) = rest
  /\ edits (snd (perform_redo p)) = append_edit c (edits p).
Proof.
  intros Hr. unfold perform_redo. rewrite Hr, pop_snoc. cbn. auto.
Qed.

Lemma append_edit_layer c (e : gmap Z (list C)) layer :
  default [] (append_edit c e !! layer)
  = if decide (layer = get_affected_layer c)
    then default [] (e !! layer) ++ [c]
    else default [] (e !! layer).
Proof.
  unfold append_edit. destruct (decide (layer = get_affected_layer c)) as [->|Hne].
  - destruct (e !! get_affected_layer c) as [l|] eqn:E; rewrite lookup_alter_eq.
    + rewrite E. reflexivity.
    + rewrite lookup_insert_eq. reflexivity.
  - rewrite lookup_alter_ne by congruence.
    destruct (e !! get_affected_layer c); [reflexivity|].
    rewrite lookup_insert_ne by congruence. reflexivity.
Qed.

(** How often a command occurs in a list. *)
Definition occ (c : C) (l : list C) : nat := count_occ (fun a b => decide (a = b)) l c.

Lemma occ_snoc c l x : occ c (l ++ [x]) = occ c l + (if decide (x = c) then 1 else 0).
Proof.
  unfold occ. rewrite count_occ_app. cbn. destruct (decide (x = c)); reflexivity.
Qed.

Lemma occ_remove c x l l' :
  list_remove x l = Some l' -> occ c l = (if decide (x = c) then 1 else 0) + occ c l'.
Proof.
  intros H. apply list_remove_perm in H. unfold occ.
  rewrite (proj1 (Permutation_count_occ (fun a b => decide (a = b)) _ _) H c).
  cbn. destruct (decide (x = c)); reflexivity.
Qed.

Lemma occ_In c l : 0 < occ c l -> In c l.
Proof. intros H. apply (count_occ_In (fun a b => decide (a = b))). exact H. Qed.

(** Every command of the undo stack is among the edits of its layer, as
    often as it is on the stack. *)
Definition covered p : Prop :=
  forall c, occ c (undo_stack p) <= occ c (layer_edits p (get_affected_layer c)).

(** The projects the editor builds: from one without edits, by
    [add_edit], [perform_undo] and [perform_redo]. *)
Inductive reachable : Project C -> Prop :=
| reach_new p :
    edits p = ∅ -> undo_stack p = [] -> redo_stack p = [] -> reachable p
| reach_add p c : reachable p -> reachable (add_edit c p)
| reach_undo p : reachable p -> reachable (snd (perform_undo p))
| reach_redo p : reachable p -> reachable (snd (perform_redo p)).

Lemma covered_top p rest c :
  covered p -> undo_stack p = rest ++ [c] ->
  In c (layer_edits p (get_affected_layer c)).
Proof.
  intros Hc Hu. apply occ_In. specialize (Hc c). rewrite Hu, occ_snoc in Hc.
  destruct (decide (c = c)); [lia|congruence].
Qed.





End Undo.



Definition rect (layer : Z) : DrawRectangleCommand :=
  {| layer_index := layer; x := 10; y := 20; width := 30; height := 40; color := 255 |}.



End SliceEditorSpec.

(** ** Concrete file names and paths *)

Module Examples.
Import PyStr OsPath Numeric Scan.

Example numeric_simple : get_numeric_part "layer_0012.png" = Idx 12.
Proof. reflexivity. Qed.

Example numeric_two_dots : get_numeric_part "a12.34.png" = Idx 34.
Proof. reflexivity. Qed.

Example numeric_none : get_numeric_part "cover.png" = Inf.
Proof. reflexivity. Qed.

Example numeric_digits_not_last : get_numeric_part "3crash.png" = Inf.
Proof. reflexivity. Qed.

Example basename_of_path : basename "/tmp/in/slice_7.png" = "slice_7.png".
Proof. reflexivity. Qed.

Example join_folder_name : join "/tmp/out" "slice_7.png" = "/tmp/out/slice_7.png".
Proof. reflexivity. Qed.

Example sorted_listing :
  all_image_filenames ["b10.png"; "cover.PNG"; "a2.png"; "notes.txt"; "c2.bmp"]
  = ["a2.png"; "c2.bmp"; "b10.png"; "cover.PNG"].
Proof. reflexivity. Qed.

Example percent_of_29 : Pipeline.percent 29 100 = 28%Z.
Proof. reflexivity. Qed.

End Examples.

(** ** The kinds of events a run emits *)

Module EventSpec.
Import PyStr OsPath Numeric Scan Pipeline TraceSpec RunSpec PoolRun.

Section Kinds.
Context {T : PipelineTypes} {C : Core}.
Variable w : World.

(** A property of events that holds of everything the [try] block can
    emit: the signals, the reads of the flag and the calls it makes. *)
Record body_kind (K : event -> bool) : Prop := {
  k_status : forall s, K (StatusUpdate s) = true;
  k_progress : forall p, K (ProgressUpdate p) = true;
  k_error : forall s, K (ErrorSignal s) = true;
  k_read : forall b, K (FlagRead b) = true;
  k_extract : forall f, K (ExtractLayers f) = true;
  k_submit : forall t, K (Submit t) = true;
  k_cancel : forall i, K (Cancel i) = true;
  k_uvtop : forall f, K (GenerateUvtop f) = true;
  k_repack : forall f, K (RepackLayers f) = true
}.

(** [c'] has the events of [c] and then events of kind [K] only. *)
Definition extends (K : event -> bool) (c c' : Ctl) : Prop :=
  exists tr, trace c' = trace c ++ tr /\ forallb K tr = true.

Lemma extends_refl K c : extends K c c.
Proof. exists []. rewrite app_nil_r. auto. Qed.

Lemma extends_trans K c1 c2 c3 : extends K c1 c2 -> extends K c2 c3 -> extends K c1 c3.
Proof.
  intros (t1 & E1 & H1) (t2 & E2 & H2). exists (t1 ++ t2).
  rewrite E2, E1, <- app_assoc, forallb_app, H1, H2. auto.
Qed.

Lemma extends_emit K e c : K e = true -> extends K c (emit e c).
Proof. intros H. exists [e]. cbn. rewrite H. auto. Qed.

Lemma extends_read K c : body_kind K -> extends K c (snd (read_flag w c)).
Proof. intros HK. exists [FlagRead (flag_value w c)]. cbn. rewrite (k_read K HK). auto. Qed.

Lemma extends_clear K c c' : extends K c c' -> extends K c (clear_flag c').
Proof. intros H. exact H. Qed.

Lemma extends_setup K c : body_kind K -> extends K c (fst (setup w c)).
Proof.
  intros HK. destruct (setup_spec w c) as (E & _). exists (setup_events w).
  split; [exact E|]. unfold setup_events.
  destruct (uvtools_mode w); [|reflexivity].
  destruct (extract_layers w); cbn;
    rewrite ?(k_status K HK), ?(k_extract K HK); reflexivity.
Qed.

Lemma extends_repack K folder c :
  body_kind K -> extends K c (fst (fst (_run_uvtools_repack w folder c))).
Proof.
  intros HK. destruct (repack_spec w folder c) as (E & _). exists (repack_events w folder).
  split; [exact E|]. unfold repack_events.
  destruct (generate_uvtop_file w); [destruct (repack_layers w)|]; cbn;
    rewrite ?(k_status K HK), ?(k_uvtop K HK), ?(k_repack K HK); reflexivity.
Qed.

(** The submission loop emits status lines, reads of the flag and
    submissions. *)
Record submit_kind (K : event -> bool) : Prop := {
  sk_status : forall s, K (StatusUpdate s) = true;
  sk_read : forall b, K (FlagRead b) = true;
  sk_submit : forall t, K (Submit t) = true
}.

Lemma body_submit_kind K : body_kind K -> submit_kind K.
Proof. intros HK. split; [apply (k_status K HK)|apply (k_read K HK)|apply (k_submit K HK)]. Qed.

Lemma extends_body K input_path out total c u item :
  submit_kind K -> extends K c (fst (analyze_and_submit w input_path out total c u item)).
Proof.
  intros HK. unfold analyze_and_submit. destruct item as [i filename].
  destruct (load_image (join input_path filename)) as [[bin orig]|].
  - destruct (if String.eqb (blending_mode (cfg w)) "roi_fade" then _ else _)
      as [tracker' rois].
    cbn [fst]. eapply extends_trans; apply extends_emit;
      [apply (sk_status K HK)|apply (sk_submit K HK)].
  - cbn [fst]. eapply extends_trans; apply extends_emit; apply (sk_status K HK).
Qed.

Lemma extends_submit_step K input_path out total s item :
  submit_kind K -> extends K (sub_ctl s) (sub_ctl (submit_step w input_path out total s item)).
Proof.
  intros HK. unfold submit_step. destruct (sub_broken s); [apply extends_refl|].
  assert (Hr : extends K (sub_ctl s) (snd (read_flag w (sub_ctl s)))).
  { exists [FlagRead (flag_value w (sub_ctl s))]. cbn. rewrite (sk_read K HK). auto. }
  destruct (read_flag w (sub_ctl s)) as [running c1]. cbn [snd] in Hr.
  destruct running; cbn [negb].
  - pose proof (extends_body K input_path out total c1 (sub s) item HK) as Hb.
    destruct (analyze_and_submit _ _ _ _ c1 (sub s) item) as [c2 u]. cbn [fst] in Hb.
    cbn [sub_ctl]. eapply extends_trans; eauto.
  - cbn [sub_ctl]. eapply extends_trans; [exact Hr|].
    apply extends_emit, (sk_status K HK).
Qed.

Lemma extends_submit_loop K input_path out total items : forall s,
  submit_kind K ->
  extends K (sub_ctl s) (sub_ctl (fold_left (submit_step w input_path out total) items s)).
Proof.
  induction items as [|x items IH]; intros s HK; [apply extends_refl|].
  cbn [fold_left]. eapply extends_trans; [apply extends_submit_step, HK|apply IH, HK].
Qed.

Lemma extends_cancels K l : forall c,
  body_kind K -> extends K c (fold_left (fun c f => emit (Cancel f) c) l c).
Proof.
  induction l as [|x l IH]; intros c HK; [apply extends_refl|].
  cbn [fold_left]. eapply extends_trans; [apply extends_emit, (k_cancel K HK)|apply IH, HK].
Qed.

Lemma extends_completion_step K st futures total s i :
  body_kind K ->
  extends K (cs_ctl s) (cs_ctl (completion_step w st futures total s i)).
Proof.
  intros HK. unfold completion_step.
  destruct (cs_status s); try apply extends_refl.
  destruct (futures !! i) as [t|]; [|apply extends_refl].
  pose proof (extends_read K (cs_ctl s) HK) as Hr.
  destruct (read_flag w (cs_ctl s)) as [running c1]. cbn [snd] in Hr.
  destruct running; cbn [negb]; [|exact Hr].
  unfold take_result. destruct (returned (exec_task st t)) as [p|e]; cbn [cs_ctl].
  - eapply extends_trans; [exact Hr|].
    eapply extends_trans; apply extends_emit;
      [apply (k_status K HK)|apply (k_progress K HK)].
  - eapply extends_trans; [exact Hr|].
    eapply extends_trans; [apply extends_emit, (k_error K HK)|].
    apply (extends_cancels K _ (clear_flag _) HK).
Qed.

Lemma extends_completion_loop K st futures total order : forall s,
  body_kind K ->
  extends K (cs_ctl s) (cs_ctl (fold_left (completion_step w st futures total) order s)).
Proof.
  induction order as [|x order IH]; intros s HK; [apply extends_refl|].
  cbn [fold_left]. eapply extends_trans; [apply extends_completion_step, HK|apply IH, HK].
Qed.

Lemma extends_pool K input_path c :
  body_kind K -> extends K c (b_ctl (pool_and_repack w input_path c)).
Proof.
  intros HK.
  assert (H1 : extends K c (cs_ctl (completed w input_path c))).
  { unfold completed, completion_loop.
    eapply extends_trans; [|apply extends_completion_loop, HK]. cbn [cs_ctl].
    unfold submitted, submit_loop.
    apply (extends_submit_loop K _ _ _ _
             {| sub_ctl := c; sub := initial_sub w; sub_broken := false |}
             (body_submit_kind K HK)). }
  unfold pool_and_repack.
  assert (H2 : extends K c (emit (StatusUpdate all_done_msg) (cs_ctl (completed w input_path c)))).
  { eapply extends_trans; [exact H1|]. apply extends_emit, (k_status K HK). }
  destruct (uvtools_mode w); [|exact H2].
  pose proof (extends_read K (emit (StatusUpdate all_done_msg)
                (cs_ctl (completed w input_path c))) HK) as Hr.
  destruct (read_flag w _) as [running c3]. cbn [snd] in Hr.
  destruct running.
  - pose proof (extends_repack K (processing_output_path w) c3 HK) as Hp.
    destruct (_run_uvtools_repack w _ c3) as [[c4 e] made]. cbn [fst] in Hp. cbn [b_ctl].
    eapply extends_trans; [exact H2|]. eapply extends_trans; eauto.
  - cbn [b_ctl]. eapply extends_trans; eauto.
Qed.

(** The [try] block emits events of the kinds above only. *)
Lemma extends_try_body K c : body_kind K -> extends K c (b_ctl (try_body w c)).
Proof.
  intros HK. unfold try_body.
  pose proof (extends_setup K c HK) as Hs.
  destruct (setup w c) as [c1 [input_path|e]]; cbn [fst] in Hs; [|exact Hs].
  destruct (_ =? 0)%nat.
  - cbn [b_ctl]. eapply extends_trans; [exact Hs|]. apply extends_emit, (k_error K HK).
  - eapply extends_trans; [exact Hs|]. apply extends_pool, HK.
Qed.

Lemma kind_excludes K (P : event -> bool) tr :
  forallb K tr = true -> (forall e, K e = true -> P e = false) -> List.filter P tr = [].
Proof.
  intros H HP. induction tr as [|e tr IH]; [reflexivity|].
  cbn in H |- *. apply andb_prop in H as [He H]. rewrite (HP e He). apply IH, H.
Qed.

End Kinds.
End EventSpec.

(** ** What every run does, and the runs that never reach the pool *)

Module FrameSpec.
Import PyStr OsPath Numeric Scan Pipeline TraceSpec SubmitSpec SubmitFlow.
Import CompletionFlow RunSpec PoolSpec PoolRun RepackSpec EventSpec.

Definition is_finished {T : PipelineTypes} {C : Core} (e : event) : bool :=
  match e with FinishedSignal => true | _ => false end.

Definition is_rmtree {T : PipelineTypes} {C : Core} (e : event) : bool :=
  match e with Rmtree _ => true | _ => false end.

(** The events of the [try] block: all but the two of the [finally]
    clause. *)
Definition in_try {T : PipelineTypes} {C : Core} (e : event) : bool :=
  match e with FinishedSignal | Rmtree _ => false | _ => true end.

Section Frame.
Context {T : PipelineTypes} {C : Core}.
Variable w : World.

Lemma in_try_kind : body_kind in_try.
Proof. split; reflexivity. Qed.

Lemma kind_no K (P : event -> bool) tr :
  forallb K tr = true -> (forall e, K e = true -> P e = false) -> existsb P tr = false.
Proof.
  intros H HP. induction tr as [|e tr IH]; [reflexivity|].
  cbn in H |- *. apply andb_prop in H as [He H]. rewrite (HP e He). apply IH, H.
Qed.

Lemma in_try_not_finished e : in_try e = true -> is_finished e = false.
Proof. destruct e; cbn; congruence. Qed.

Lemma in_try_not_rmtree e : in_try e = true -> is_rmtree e = false.
Proof. destruct e; cbn; congruence. Qed.

(** The events of a run up to the [except] clause. *)
Lemma try_events :
  exists tr,
    trace (b_ctl (try_body w started)) = StatusUpdate "Processing started..." :: tr
    /\ forallb in_try tr = true.
Proof.
  destruct (extends_try_body w in_try started in_try_kind) as (tr & E & H).
  exists tr. split; [exact E|exact H].
Qed.

Lemma filter_none {A} (P : A -> bool) l : existsb P l = false -> List.filter P l = [].
Proof.
  induction l as [|x l IH]; cbn; [reflexivity|]. intros H.
  apply orb_false_elim in H as [Hx H]. rewrite Hx. apply IH, H.
Qed.

End Frame.

(** Whatever happens in a run, its first event is the status "Processing
    started...", its last three are the final read of the flag, the closing
    status that goes with the value read, and the finished signal; the
    finished signal is emitted exactly once. *)
Theorem finished_signal_last :
  forall {T : PipelineTypes} {C : Core} (w : World),
    exists mid,
      r_trace (run w)
      = StatusUpdate "Processing started..." :: mid
        ++ [FlagRead (r_running (run w));
            StatusUpdate (if r_running (run w) then "Processing complete!"
                          else "Processing stopped by user or error.");
            FinishedSignal]
      /\ existsb is_finished mid = false
      /\ List.filter is_finished (r_trace (run w)) = [FinishedSignal].
Proof.
  intros T C w.
  destruct (run_spec w) as (R1 & R2 & _).
  destruct (try_events w) as (tr & E & H).
  exists (tr ++ except_events (b_raised (try_body w started)) ++ cleanup_events w).
  assert (Hmid : existsb is_finished
            (tr ++ except_events (b_raised (try_body w started)) ++ cleanup_events w)
          = false).
  { rewrite !existsb_app, (kind_no in_try is_finished tr H in_try_not_finished).
    rewrite except_events_no, cleanup_events_no by reflexivity. reflexivity. }
  assert (Et : r_trace (run w)
          = StatusUpdate "Processing started..."
            :: (tr ++ except_events (b_raised (try_body w started)) ++ cleanup_events w)
            ++ [FlagRead (r_running (run w));
                StatusUpdate (if r_running (run w) then "Processing complete!"
                              else "Processing stopped by user or error.");
                FinishedSignal]).
  { rewrite R1, R2, E. unfold closing, complete_msg, stopped_or_error_msg.
    cbn [app]. rewrite <- !app_assoc. reflexivity. }
  split; [exact Et|]. split; [exact Hmid|].
  rewrite Et. cbn [List.filter is_finished]. rewrite List.filter_app.
  rewrite (filter_none _ _ Hmid). reflexivity.
Qed.

(** [shutil.rmtree] is called at most once in a run, on the session
    folder, and exactly when the run is in uvtools mode with the deletion
    switched on and the session folder exists; the call stands between its
    status line and the report of its outcome, right in front of the closing
    events, also when it raised. *)
Theorem rmtree_only_when_configured :
  forall {T : PipelineTypes} {C : Core} (w : World),
    List.filter is_rmtree (r_trace (run w))
    = (if cleanup_runs w then [Rmtree (session_temp_folder w)] else [])
    /\ (cleanup_runs w = true <->
        input_mode (cfg w) = "uvtools"
        /\ uvtools_delete_temp_on_completion (cfg w) = true
        /\ session_temp_folder w <> ""
        /\ temp_isdir w = true)
    /\ (cleanup_runs w = true ->
        exists pre,
          r_trace (run w)
          = pre
            ++ [StatusUpdate ("Deleting temporary folder: " +:+ session_temp_folder w);
                Rmtree (session_temp_folder w);
                match rmtree_error w with
                | None => StatusUpdate "Temporary files deleted."
                | Some e => ErrorSignal ("Could not delete temp folder: " +:+ exc_str e)
                end]
            ++ closing (r_running (run w))).
Proof.
  intros T C w.
  destruct (run_spec w) as (R1 & R2 & _).
  destruct (try_events w) as (tr & E & H).
  split; [|split].
  - rewrite R1, E, !List.filter_app. cbn [List.filter is_rmtree].
    rewrite (filter_none is_rmtree tr
               (kind_no in_try is_rmtree tr H in_try_not_rmtree)).
    rewrite (filter_none is_rmtree (except_events _))
      by (apply except_events_no; reflexivity).
    cbn [app]. unfold cleanup_events.
    destruct (cleanup_runs w); [|reflexivity].
    destruct (rmtree_error w); reflexivity.
  - unfold cleanup_runs, uvtools_mode. rewrite !andb_true_iff, negb_true_iff.
    rewrite String.eqb_eq, String.eqb_neq. tauto.
  - intros Hc. exists (trace (b_ctl (try_body w started))
                       ++ except_events (b_raised (try_body w started))).
    rewrite R1, R2. unfold cleanup_events. rewrite Hc, <- !app_assoc. reflexivity.
Qed.

End FrameSpec.

(** ** Runs without images, and failures of the UVTools calls *)

Module EdgeSpec.
Import PyStr OsPath Numeric Scan Pipeline TraceSpec SubmitSpec SubmitFlow.
Import CompletionFlow RunSpec PoolSpec PoolRun RepackSpec.

Section Edge.
Context {T : PipelineTypes} {C : Core}.
Variable w : World.

Lemma entry_flag : flag_value w (entry w) = sees_running w 0.
Proof.
  destruct (entry_spec w) as (_ & Hr & Hc). rewrite flag_value_eq, Hr, Hc. reflexivity.
Qed.

Lemma try_body_no_images input_path :
  input_of_run w = Ok input_path -> filtered_files w input_path = [] ->
  try_body w started
  = {| b_ctl := emit (ErrorSignal no_images_msg) (entry w); b_raised := None;
       b_futures := []; b_store := []; b_cancelled := [];
       b_files := initial_files w |}.
Proof.
  intros Hin He. unfold try_body, entry.
  destruct (setup_spec w started) as (_ & _ & _ & H4).
  destruct (setup w started) as [c1 r]. cbn [fst snd] in *. rewrite H4, Hin, He.
  reflexivity.
Qed.

Lemma try_body_no_input e :
  input_of_run w = Raise e ->
  try_body w started
  = {| b_ctl := entry w; b_raised := Some e;
       b_futures := []; b_store := []; b_cancelled := [];
       b_files := initial_files w |}.
Proof.
  intros Hin. unfold try_body, entry.
  destruct (setup_spec w started) as (_ & _ & _ & H4).
  destruct (setup w started) as [c1 r]. cbn [fst snd] in *. rewrite H4, Hin.
  reflexivity.
Qed.

(** The exception [_run_uvtools_repack] lets through. *)
Definition repack_raised : option exn :=
  match generate_uvtop_file w with
  | Raise e => Some e
  | Ok _ =>
      match repack_layers w with
      | Raise e => Some e
      | Ok _ => None
      end
  end.

Lemma repack_raises folder c :
  snd (fst (_run_uvtools_repack w folder c)) = repack_raised.
Proof.
  unfold _run_uvtools_repack, repack_raised.
  destruct (generate_uvtop_file w); [destruct (repack_layers w)|]; reflexivity.
Qed.

Lemma pool_raised input_path c1 :
  uvtools_mode w = true ->
  flag_value w (after_pool w input_path c1) = true ->
  b_raised (pool_and_repack w input_path c1) = repack_raised.
Proof.
  intros Hu Hf. unfold pool_and_repack. rewrite Hu. unfold read_flag.
  unfold after_pool in Hf. rewrite Hf.
  match goal with |- context [_run_uvtools_repack w ?f ?c] =>
    pose proof (repack_raises f c) as H;
    destruct (_run_uvtools_repack w f c) as [[c4 e] made] end.
  exact H.
Qed.

(** A run has no repack call, or it is a run in uvtools mode that went
    through both loops without error and with the flag set, and ends with
    the calls of [_run_uvtools_repack], the report of what they raised, and
    the [finally] clause. *)
Lemma repack_run_shape :
  existsb is_repack (r_trace (run w)) = false
  \/ (uvtools_mode w = true
      /\ exists l0,
           r_trace (run w)
           = l0 ++ repack_events w (processing_output_path w)
             ++ except_events repack_raised ++ cleanup_events w
             ++ closing (r_running (run w))
           /\ existsb is_repack l0 = false
           /\ existsb is_error l0 = false
           /\ (stop_after w = None -> r_running (run w) = true)).
Proof.
  destruct (run_spec w) as (R1 & _).
  destruct (entry_spec w) as (Et & _ & _).
  destruct (setup_events_quiet w) as (Se & Sf & Ss & Sr).
  destruct (input_of_run w) as [input_path|e] eqn:Hin.
  2:{ left. destruct (try_body_raise w e Hin) as (B1 & B2 & _).
      rewrite R1, B1, B2, Et. quiet. rewrite Sr. reflexivity. }
  destruct (filtered_files w input_path) as [|f0 fs] eqn:Hfiles.
  { left. destruct (try_body_empty w input_path Hin Hfiles) as (B1 & B2 & _).
    rewrite R1, B1, B2. cbn [emit trace]. rewrite Et. quiet. rewrite Sr.
    reflexivity. }
  assert (Hne : filtered_files w input_path <> []) by congruence.
  destruct (pool_run w input_path Hin Hne)
    as (tr_sub & tr_compl & A & Hfr & Ht & Hcl & Hr & I & Rt & Rr & _ & _ & _ & _
        & Bc & _).
  unfold gate_events in Rt.
  destruct (uvtools_mode w) eqn:Hu.
  2:{ left. rewrite Rt. quiet. cbn [existsb is_repack orb]. quiet.
      rewrite Sr, (adv_repack _ _ _ _ _ _ _ A), (ci_repack _ _ _ _ _ _ I).
      reflexivity. }
  destruct (flag_value w (after_pool w input_path (entry w))) eqn:Hf.
  2:{ left. rewrite Rt. quiet. cbn [existsb is_repack orb]. quiet.
      rewrite Sr, (adv_repack _ _ _ _ _ _ _ A), (ci_repack _ _ _ _ _ _ I).
      reflexivity. }
  right. split; [reflexivity|].
  destruct (gate_open w input_path tr_compl Hcl Hr I Hf) as (Hb & Hs & _ & He & Hfc).
  rewrite Hb in Rt. cbn [halt_events app] in Rt.
  rewrite (pool_raised input_path (entry w) Hu Hf) in Rt.
  exists ((trace started ++ setup_events w ++ tr_sub) ++ tr_compl
          ++ [StatusUpdate all_done_msg; FlagRead true]).
  split.
  { rewrite Rt, <- !app_assoc. cbn [app]. reflexivity. }
  split.
  { quiet. rewrite Sr, (adv_repack _ _ _ _ _ _ _ A), (ci_repack _ _ _ _ _ _ I).
    reflexivity. }
  split.
  { quiet. rewrite Se, (adv_error _ _ _ _ _ _ _ A), He. reflexivity. }
  intros Hstop. rewrite Rr, flag_value_eq, Bc.
  destruct (ci_looping _ _ _ _ _ _ I Hs) as (Hc & _). rewrite Hc.
  unfold sees_running. rewrite Hstop. reflexivity.
Qed.

End Edge.

(** When no file name is left after the extension filter and the index
    range, the run reports "No images found in the specified folder or index
    range." on the error signal and goes straight to the [finally] clause:
    nothing is submitted, no worker runs, nothing is repacked.  The flag is
    not cleared on this path, so a run the user did not stop ends with the
    status "Processing complete!". *)
Theorem no_images_run :
  forall {T : PipelineTypes} {C : Core} (w : World) (input_path : string),
    input_of_run w = Ok input_path ->
    filtered_files w input_path = [] ->
    r_trace (run w)
    = StatusUpdate "Processing started..." :: setup_events w
      ++ [ErrorSignal "No images found in the specified folder or index range."]
      ++ cleanup_events w ++ closing (r_running (run w))
    /\ r_futures (run w) = []
    /\ r_fates (run w) = []
    /\ existsb is_repack (r_trace (run w)) = false
    /\ (cleanup_runs w = false -> r_files (run w) = initial_files w)
    /\ (stop_after w = None ->
        r_running (run w) = true
        /\ In (StatusUpdate "Processing complete!") (r_trace (run w))).
Proof.
  intros T C w input_path Hin He.
  destruct (run_spec w) as (R1 & R2 & R3 & R4 & R5 & R6).
  rewrite (try_body_no_images w input_path Hin He) in *.
  cbn [b_ctl b_raised b_futures b_store b_cancelled b_files] in *.
  destruct (entry_spec w) as (Et & Er & Ec).
  assert (Hf : r_running (run w) = sees_running w 0).
  { rewrite R2, flag_value_eq. cbn [emit reads cleared]. rewrite Er, Ec. reflexivity. }
  assert (Htr : r_trace (run w)
          = StatusUpdate "Processing started..." :: setup_events w
            ++ [ErrorSignal "No images found in the specified folder or index range."]
            ++ cleanup_events w ++ closing (r_running (run w))).
  { rewrite R1, R2. cbn [emit trace except_events]. rewrite Et.
    cbn [started emit trace app]. rewrite <- !app_assoc. reflexivity. }
  split; [exact Htr|]. split; [exact R3|]. split; [rewrite R5; reflexivity|].
  split.
  { rewrite Htr. destruct (setup_events_quiet w) as (_ & _ & _ & Sr).
    cbn [existsb is_repack orb]. rewrite !existsb_app, Sr.
    rewrite cleanup_events_no, closing_no by reflexivity. reflexivity. }
  split; [exact R6|].
  intros Hstop.
  assert (Hrun : r_running (run w) = true).
  { rewrite Hf. unfold sees_running. rewrite Hstop. reflexivity. }
  split; [exact Hrun|].
  rewrite Htr, Hrun. right. apply in_or_app. right. apply in_or_app. right.
  apply in_or_app. right. right. left. reflexivity.
Qed.

(** When the slice extraction raises, the run reports the exception with
    its traceback on the error signal, lists no folder and submits nothing,
    and goes on to the [finally] clause; the status "UVTools extraction
    completed." is not emitted.  The flag is not cleared on this path. *)
Theorem extraction_failure_run :
  forall {T : PipelineTypes} {C : Core} (w : World) (e : exn),
    input_mode (cfg w) = "uvtools" ->
    extract_layers w = Raise e ->
    r_trace (run w)
    = [StatusUpdate "Processing started...";
       StatusUpdate "Starting UVTools slice extraction...";
       ExtractLayers
         (join (uvtools_temp_folder (cfg w)) (output_file_prefix (cfg w) +:+ run_timestamp w));
       ErrorSignal
         ("Error in processing thread: " +:+ exc_str e
          +:+ String "010" (String "010" (exc_traceback e)))]
      ++ cleanup_events w ++ closing (r_running (run w))
    /\ r_futures (run w) = []
    /\ r_fates (run w) = []
    /\ (cleanup_runs w = false -> r_files (run w) = initial_files w)
    /\ (stop_after w = None -> r_running (run w) = true).
Proof.
  intros T C w e Hmode He.
  assert (Hu : uvtools_mode w = true).
  { unfold uvtools_mode. rewrite Hmode. reflexivity. }
  assert (Hin : input_of_run w = Raise e).
  { unfold input_of_run. rewrite Hu. exact He. }
  destruct (run_spec w) as (R1 & R2 & R3 & R4 & R5 & R6).
  rewrite (try_body_no_input w e Hin) in *.
  cbn [b_ctl b_raised b_futures b_store b_cancelled b_files] in *.
  destruct (entry_spec w) as (Et & Er & Ec).
  split.
  { rewrite R1, R2, Et. unfold setup_events. rewrite Hu, He.
    cbn [started emit trace app except_events]. reflexivity. }
  split; [exact R3|]. split; [rewrite R5; reflexivity|]. split; [exact R6|].
  intros Hstop. rewrite R2, flag_value_eq, Er, Ec. unfold sees_running.
  rewrite Hstop. reflexivity.
Qed.

(** When [_run_uvtools_repack] is reached, it is for the folder the workers
    wrote to.  If the generation of the operation file raises, the exception
    is reported on the error signal and the repack is not called; if the
    repack raises, its exception is reported; if both return, the status
    names the file that was created and no error was reported up to there.
    An exception of either call does not clear the flag: a run the user did
    not stop still ends with "Processing complete!". *)
Theorem repack_failure_reported :
  forall {T : PipelineTypes} {C : Core} (w : World) (folder : string),
    In (GenerateUvtop folder) (r_trace (run w)) ->
    folder = processing_output_path w
    /\ input_mode (cfg w) = "uvtools"
    /\ match generate_uvtop_file w with
       | Raise e =>
           In (ErrorSignal (thread_error_msg e)) (r_trace (run w))
           /\ forall uvtop, ~ In (RepackLayers uvtop) (r_trace (run w))
       | Ok uvtop =>
           In (RepackLayers uvtop) (r_trace (run w))
           /\ match repack_layers w with
              | Raise e => In (ErrorSignal (thread_error_msg e)) (r_trace (run w))
              | Ok final_output_path =>
                  exists pre post,
                    r_trace (run w)
                    = pre ++ StatusUpdate ("Successfully created: "
                                           +:+ basename final_output_path) :: post
                    /\ existsb is_error pre = false
              end
       end
    /\ (stop_after w = None ->
        r_running (run w) = true
        /\ In (StatusUpdate "Processing complete!") (r_trace (run w))).
Proof.
  intros T C w folder Hin.
  destruct (repack_run_shape w) as [H|(Hu & l0 & Et & H0 & He & Hrun)].
  { apply (existsb_false_in is_repack _ _ H) in Hin. discriminate. }
  assert (Hg : In (GenerateUvtop folder) (repack_events w (processing_output_path w))).
  { rewrite Et in Hin. apply in_app_or in Hin as [Hin|Hin].
    - apply (existsb_false_in is_repack _ _ H0) in Hin. discriminate.
    - apply in_app_or in Hin as [Hin|Hin]; [exact Hin|].
      assert (Hq : existsb is_repack
                (except_events (repack_raised w) ++ cleanup_events w
                 ++ closing (r_running (run w))) = false)
        by apply epilogue_no_repack.
      apply (existsb_false_in is_repack _ _ Hq) in Hin. discriminate. }
  split.
  { unfold repack_events in Hg.
    destruct Hg as [Hg|[Hg|Hg]]; [discriminate|congruence|].
    destruct (generate_uvtop_file w); [|contradiction].
    destruct Hg as [Hg|[Hg|[Hg|Hg]]]; try discriminate.
    destruct (repack_layers w); [|contradiction].
    destruct Hg as [Hg|[]]. discriminate. }
  split.
  { unfold uvtools_mode in Hu. apply String.eqb_eq in Hu. exact Hu. }
  split.
  - rewrite Et. unfold repack_events, repack_raised.
    destruct (generate_uvtop_file w) as [uvtop|e].
    + split.
      { apply in_or_app. right. right. right. right. right. left. reflexivity. }
      destruct (repack_layers w) as [final_output_path|e].
      * exists (l0 ++ [StatusUpdate "Generating UVTools operation file...";
                       GenerateUvtop (processing_output_path w);
                       StatusUpdate "Operation file generated.";
                       StatusUpdate "Repacking slice file with processed layers...";
                       RepackLayers uvtop]).
        eexists. split.
        { repeat (rewrite <- app_assoc || cbn [app]). reflexivity. }
        rewrite existsb_app, He. reflexivity.
      * apply in_or_app. right. apply in_or_app. right. left. reflexivity.
    + split.
      { apply in_or_app. right. apply in_or_app. right. left. reflexivity. }
      intros uvtop Hr. apply in_app_or in Hr as [Hr|Hr].
      * apply (existsb_false_in is_repack _ _ H0) in Hr. discriminate.
      * cbn [app] in Hr. destruct Hr as [Hr|[Hr|Hr]]; try discriminate.
        assert (Hq : existsb is_repack
                  (except_events (Some e) ++ cleanup_events w
                   ++ closing (r_running (run w))) = false)
          by apply epilogue_no_repack.
        apply (existsb_false_in is_repack _ _ Hq) in Hr. discriminate.
  - intros Hstop. rewrite (Hrun Hstop). split; [reflexivity|].
    rewrite Et, (Hrun Hstop). repeat (apply in_or_app; right).
    right. left. reflexivity.
Qed.

Import Demo.

Lemma no_images_run_witness :
  let w := world folder_cfg ["notes.txt"; "slice_1.jpg"] None [] in
  r_futures (run w) = []
  /\ In (ErrorSignal "No images found in the specified folder or index range.")
       (r_trace (run w))
  /\ In (StatusUpdate "Processing complete!") (r_trace (run w)).
Proof.
  intros w.
  assert (Hin : input_of_run w = Ok "/in") by reflexivity.
  assert (He : filtered_files w "/in" = []) by (vm_compute; reflexivity).
  destruct (no_images_run w "/in" Hin He) as (H1 & H2 & _ & _ & _ & H6).
  split; [exact H2|]. split.
  - rewrite H1. right. apply in_or_app. right. left. reflexivity.
  - apply H6. reflexivity.
Defined.

(** The world in which the slice file cannot be extracted. *)
Definition world_without_slices : World :=
  {| cfg := uvtools_cfg; run_timestamp := "20250101-000000";
     extract_layers :=
       Raise {| exc_str := "UVTools extraction failed: exit status 2";
                exc_traceback := "Traceback: extract_layers" |};
     listdir _ := ["a1.png"];
     stop_after := None;
     completion_order := [0];
     pending_at_cancel _ := false;
     generate_uvtop_file := Ok "/tmp/run_20250101-000000/repack.uvtop";
     repack_layers := Ok "/tmp/run_20250101-000000/run_part.ctb";
     temp_isdir := true;
     rmtree_error := None;
     rmtree_partial _ := true;
     initial_files := [] |}.

Lemma extraction_failure_run_witness :
  r_futures (run world_without_slices) = []
  /\ r_running (run world_without_slices) = true.
Proof.
  destruct (extraction_failure_run world_without_slices
              {| exc_str := "UVTools extraction failed: exit status 2";
                 exc_traceback := "Traceback: extract_layers" |}
              eq_refl eq_refl) as (_ & H2 & _ & _ & H5).
  split; [exact H2|apply H5; reflexivity].
Defined.

(** The world in which the repack of the processed layers fails. *)
Definition world_without_repack : World :=
  {| cfg := uvtools_cfg; run_timestamp := "20250101-000000";
     extract_layers := Ok "/tmp/run_20250101-000000/Input";
     listdir _ := ["a1.png"];
     stop_after := None;
     completion_order := [0];
     pending_at_cancel _ := false;
     generate_uvtop_file := Ok "/tmp/run_20250101-000000/repack.uvtop";
     repack_layers :=
       Raise {| exc_str := "UVTools repacking failed: exit status 2";
                exc_traceback := "Traceback: repack_layers" |};
     temp_isdir := true;
     rmtree_error := None;
     rmtree_partial _ := true;
     initial_files := [] |}.

Lemma repack_failure_reported_witness :
  In (ErrorSignal
        (thread_error_msg
           {| exc_str := "UVTools repacking failed: exit status 2";
              exc_traceback := "Traceback: repack_layers" |}))
     (r_trace (run world_without_repack))
  /\ r_running (run world_without_repack) = true.
Proof.
  assert (Hin : In (GenerateUvtop "/tmp/run_20250101-000000/Output")
                  (r_trace (run world_without_repack))).
  { vm_compute. repeat (first [left; reflexivity | right]). }
  destruct (repack_failure_reported world_without_repack _ Hin) as (_ & _ & H3 & H4).
  lazy beta iota delta [generate_uvtop_file repack_layers world_without_repack] in H3.
  destruct H3 as [_ H3].
  split; [exact H3|apply H4; reflexivity].
Defined.

End EdgeSpec.

(** ** The files the workers write *)

Module OutputSpec.
Import PyStr OsPath Numeric Scan Pipeline TraceSpec SubmitSpec SubmitFlow.
Import CompletionFlow RunSpec PoolSpec PoolRun WorkerSpec ScanSpec OsPathSpec.
Import AbortSpec StopSpec.

Section Outputs.
Context {T : PipelineTypes} {C : Core}.
Variables (w : World) (input_path : string).

(** The files the submission loop reaches, and those among them it
    submits a task for. *)
Definition reached : list string :=
  map snd (passing w 0 (enumerate (filtered_files w input_path))).

Definition submitted_names : list string := List.filter (loadable input_path) reached.

Lemma lookup_map {A B} (f : A -> B) : forall l i, map f l !! i = option_map f (l !! i).
Proof.
  induction l as [|x l IH]; intros [|i]; cbn; try reflexivity. apply IH.
Qed.

Lemma lookup_In {A} (l : list A) i x : l !! i = Some x -> In x l.
Proof. intros H. eapply list_elem_of_In, list_elem_of_lookup_2, H. Qed.

Lemma reached_prefix : exists k, reached = take k (filtered_files w input_path).
Proof.
  unfold reached, passing. destruct (stop_after w) as [k|].
  - exists (k - 0). apply snd_take_enumerate.
  - exists (length (filtered_files w input_path)).
    rewrite snd_enumerate, take_ge; [reflexivity|lia].
Qed.

Lemma in_take {A} (x : A) : forall k l, In x (take k l) -> In x l.
Proof.
  induction k as [|k IH]; intros [|y l] H; cbn in H; try contradiction.
  destruct H as [->|H]; [left; reflexivity|right; apply IH, H].
Qed.

Lemma NoDup_take_of {A} : forall k (l : list A), List.NoDup l -> List.NoDup (take k l).
Proof.
  induction k as [|k IH]; intros [|y l] H; cbn; try constructor.
  - inversion H; subst. intros Hy. apply in_take in Hy. contradiction.
  - inversion H; subst. apply IH. assumption.
Qed.

Lemma filtered_in_listing f :
  In f (filtered_files w input_path) -> In f (listdir w input_path).
Proof.
  unfold filtered_files, image_filenames_filtered, all_image_filenames. intros H.
  apply List.filter_In in H as [H _].
  apply (Permutation_in _ (sorted_by_key_perm _)) in H.
  apply List.filter_In in H as [H _]. exact H.
Qed.

Lemma submitted_in_filtered f :
  In f submitted_names -> In f (filtered_files w input_path) /\ loadable input_path f = true.
Proof.
  unfold submitted_names. intros H. apply List.filter_In in H as [H Hl].
  split; [|exact Hl]. destruct reached_prefix as [k E]. rewrite E in H.
  eapply in_take, H.
Qed.

Lemma submitted_names_NoDup :
  List.NoDup (listdir w input_path) -> List.NoDup submitted_names.
Proof.
  intros H. unfold submitted_names. apply List.NoDup_filter.
  destruct reached_prefix as [k E]. rewrite E. apply NoDup_take_of.
  unfold filtered_files, image_filenames_filtered, all_image_filenames.
  apply List.NoDup_filter.
  eapply Permutation_NoDup; [symmetry; apply sorted_by_key_perm|].
  apply List.NoDup_filter, H.
Qed.

Hypothesis Hin : input_of_run w = Ok input_path.

(** The tasks of a run stand for the submitted names, one by one. *)
Lemma future_name i t :
  r_futures (run w) !! i = Some t ->
  exists f, submitted_names !! i = Some f /\ task_path t = join input_path f.
Proof.
  intros Hi.
  destruct (filtered_files w input_path) as [|f0 fs] eqn:Hfiles.
  { destruct (run_spec w) as (_ & _ & R3 & _).
    destruct (try_body_empty w input_path Hin Hfiles) as (_ & _ & B3).
    rewrite R3, B3 in Hi. destruct i; discriminate. }
  assert (Hne : filtered_files w input_path <> []) by congruence.
  destruct (pool_run w input_path Hin Hne)
    as (tr_sub & tr_compl & A & _ & _ & _ & _ & _ & _ & _ & Rf & _).
  pose proof (adv_paths _ _ _ _ _ _ _ A) as Hp.
  fold reached in Hp. fold submitted_names in Hp.
  rewrite Rf in Hi.
  assert (H : map task_path (active_futures (sub (submitted w input_path (entry w)))) !! i
              = Some (task_path t)).
  { rewrite lookup_map, Hi. reflexivity. }
  rewrite Hp, lookup_map in H.
  destruct (submitted_names !! i) as [f|]; [|discriminate].
  exists f. split; [reflexivity|]. cbn in H. congruence.
Qed.

(** A layer that completed was written under the name of its file. *)
Lemma completed_name i p :
  (forall f, In f (listdir w input_path) -> has_sep f = false) ->
  r_fates (run w) !! i = Some (Completed p) ->
  exists f,
    submitted_names !! i = Some f
    /\ p = join (processing_output_path w) f
    /\ basename p = f.
Proof.
  intros Hsep Hi.
  destruct (run_spec w) as (_ & _ & R3 & R4 & R5 & _).
  rewrite R5, fates_lookup, <- R3 in Hi.
  destruct (r_futures (run w) !! i) as [t|] eqn:Ht; [|discriminate].
  cbn in Hi. injection Hi as Hi.
  destruct (future_name i t Ht) as (f & Hf & Hp).
  exists f. split; [exact Hf|].
  assert (Hs : has_sep f = false).
  { apply Hsep, filtered_in_listing, submitted_in_filtered.
    eapply lookup_In, Hf. }
  unfold fate_of in Hi. destruct (mem i _); [discriminate|].
  destruct (returned (exec_task _ t)) as [q|e] eqn:E; [|discriminate].
  injection Hi as ->. unfold exec_task in E.
  destruct (worker_returns _ _ _ _ _ _ _ E) as [Hq _].
  rewrite (run_futures_folder w i t Ht) in Hq.
  unfold task_path in Hp. rewrite Hp, (basename_join _ _ Hs) in Hq.
  split; [exact Hq|]. rewrite Hq. apply basename_join, Hs.
Qed.

End Outputs.

(** The output of a completed layer carries the name of its input: when
    the names [os.listdir] returns hold no separator, the path a completed
    task returns is the output folder of the run joined with the name of a
    file that passed the filters and could be loaded, and that name is the
    base name of the output. *)
Theorem completed_layer_keeps_name :
  forall {T : PipelineTypes} {C : Core} (w : World) (input_path : string)
         (i : nat) (p : string),
    input_of_run w = Ok input_path ->
    (forall f, In f (listdir w input_path) -> has_sep f = false) ->
    r_fates (run w) !! i = Some (Completed p) ->
    exists f,
      In f (listdir w input_path)
      /\ In f (image_filenames_filtered (start_index (cfg w)) (stop_index (cfg w))
                 (listdir w input_path))
      /\ load_image (join input_path f) <> None
      /\ p = join (processing_output_path w) f
      /\ basename p = f.
Proof.
  intros T C w input_path i p Hin Hsep Hi.
  destruct (completed_name w input_path Hin i p Hsep Hi) as (f & Hf & Hp & Hb).
  assert (Hs : In f (submitted_names w input_path)).
  { eapply lookup_In, Hf. }
  destruct (submitted_in_filtered w input_path f Hs) as [Hff Hl].
  exists f. split; [apply filtered_in_listing, Hff|]. split; [exact Hff|].
  split; [|auto].
  unfold loadable in Hl. destruct (load_image (join input_path f)); congruence.
Qed.

(** No two layers of a run are written to the same file: when
    [os.listdir] returns distinct names without separator, two tasks that
    completed returned different paths. *)
Theorem outputs_distinct :
  forall {T : PipelineTypes} {C : Core} (w : World) (input_path : string)
         (i j : nat) (p q : string),
    input_of_run w = Ok input_path ->
    List.NoDup (listdir w input_path) ->
    (forall f, In f (listdir w input_path) -> has_sep f = false) ->
    r_fates (run w) !! i = Some (Completed p) ->
    r_fates (run w) !! j = Some (Completed q) ->
    i <> j ->
    p <> q.
Proof.
  intros T C w input_path i j p q Hin Hnd Hsep Hi Hj Hij Hpq.
  destruct (completed_name w input_path Hin i p Hsep Hi) as (f & Hf & _ & Hbf).
  destruct (completed_name w input_path Hin j q Hsep Hj) as (g & Hg & _ & Hbg).
  apply Hij. subst q. rewrite Hbf in Hbg. subst g.
  eapply NoDup_lookup; eauto. apply NoDup_ListNoDup, submitted_names_NoDup, Hnd.
Qed.

Import Demo.

Lemma completed_layer_keeps_name_witness :
  exists f,
    In f ["b2.png"; "notes.txt"; "a1.png"]
    /\ "/out/b2.png" = join "/out" f
    /\ basename "/out/b2.png" = f.
Proof.
  destruct (completed_layer_keeps_name
              (world folder_cfg ["b2.png"; "notes.txt"; "a1.png"] None [1; 0])
              "/in" 1 "/out/b2.png")
    as (f & H1 & _ & _ & H4 & H5).
  - reflexivity.
  - intros f [<-|[<-|[<-|[]]]]; reflexivity.
  - vm_compute. reflexivity.
  - exists f. auto.
Defined.

Lemma outputs_distinct_witness : "/out/a1.png" <> "/out/b2.png".
Proof.
  apply (outputs_distinct
           (world folder_cfg ["b2.png"; "notes.txt"; "a1.png"] None [1; 0])
           "/in" 0 1).
  - reflexivity.
  - repeat constructor; cbn; intuition discriminate.
  - intros f [<-|[<-|[<-|[]]]]; reflexivity.
  - vm_compute. reflexivity.
  - vm_compute. reflexivity.
  - lia.
Defined.

End OutputSpec.

(** ** Progress reports *)

Module ProgressSpec.
Import PyStr OsPath Numeric Scan Pipeline TraceSpec SubmitSpec SubmitFlow.
Import CompletionFlow RunSpec PoolSpec PoolRun RepackSpec AbortSpec EventSpec FrameSpec.

Definition is_progress {T : PipelineTypes} {C : Core} (e : event) : bool :=
  match e with ProgressUpdate _ => true | _ => false end.

Section Progress.
Context {T : PipelineTypes} {C : Core}.
Variables (w : World) (st : list (deque array_obj)) (futures : list Task) (total : nat).

(** The events of the iteration in which the [k]-th result is taken. *)
Definition completion_events (k : nat) : list event :=
  [FlagRead true; StatusUpdate (completed_msg k total); ProgressUpdate (percent k total)].

(** The completion loop while the flag stays set and the futures return:
    one status and one progress report for each future, counted from the
    results taken so far. *)
Lemma steps_ok_events order : forall s,
  cs_status s = Looping -> cleared (cs_ctl s) = false ->
  (forall i, In i order -> returns_ok st futures i) ->
  (forall r, reads (cs_ctl s) <= r < reads (cs_ctl s) + length order ->
             sees_running w r = true) ->
  trace (cs_ctl (fold_left (completion_step w st futures total) order s))
  = trace (cs_ctl s)
    ++ flat_map completion_events
         (seq (S (processed_count s)) (length (valid futures order)))
  /\ processed_count (fold_left (completion_step w st futures total) order s)
     = processed_count s + length (valid futures order)
  /\ reads (cs_ctl (fold_left (completion_step w st futures total) order s))
     = reads (cs_ctl s) + length (valid futures order).
Proof.
  induction order as [|i order IH]; intros s Hs Hc Hok Hr.
  - cbn. rewrite app_nil_r. split; [reflexivity|lia].
  - cbn [fold_left valid List.filter length] in *.
    destruct (futures !! i) as [t|] eqn:Hi.
    + assert (Hf : flag_value w (cs_ctl s) = true).
      { rewrite flag_value_eq, Hc, (Hr (reads (cs_ctl s))) by lia. reflexivity. }
      destruct (Hok i (or_introl eq_refl) t Hi) as [p Hp].
      rewrite (step_returned w st futures total s i t p Hs Hf Hi Hp).
      match goal with |- context [fold_left _ order ?s1] =>
        destruct (IH s1) as (H1 & H2 & H3) end.
      * reflexivity.
      * exact Hc.
      * intros j Hj. apply Hok. right. exact Hj.
      * intros r Hrr. cbn in Hrr. apply Hr. lia.
      * rewrite H1, H2, H3. cbn [cs_ctl processed_count length seq flat_map].
        unfold read_flag. rewrite Hf. cbn [snd emit trace reads].
        unfold completion_events at 2. rewrite <- !app_assoc. cbn [app].
        split; [reflexivity|unfold valid; lia].
    + rewrite (step_invalid w st futures total s i Hi).
      apply IH; auto.
      * intros j Hj. apply Hok. right. exact Hj.
      * intros r Hrr. apply Hr. lia.
Qed.

Lemma valid_all order :
  (forall i, In i order -> i < length futures) -> valid futures order = order.
Proof.
  induction order as [|i order IH]; intros H; [reflexivity|].
  cbn. destruct (lookup_lt_is_Some_2 futures i (H i (or_introl eq_refl))) as [t Ht].
  rewrite Ht. f_equal. apply IH. intros j Hj. apply H. right. exact Hj.
Qed.

Lemma filter_completion_events l :
  List.filter is_progress (flat_map completion_events l)
  = map (fun k => ProgressUpdate (percent k total)) l.
Proof.
  induction l as [|k l IH]; [reflexivity|]. cbn. rewrite IH. reflexivity.
Qed.

Lemma setup_no_progress : existsb is_progress (setup_events w) = false.
Proof.
  unfold setup_events. destruct (uvtools_mode w); [|reflexivity].
  destruct (extract_layers w); reflexivity.
Qed.

Lemma gate_no_progress c : existsb is_progress (gate_events w c) = false.
Proof.
  unfold gate_events, repack_events. destruct (uvtools_mode w); [|reflexivity].
  destruct (flag_value w c); [|reflexivity].
  destruct (generate_uvtop_file w); [destruct (repack_layers w)|]; reflexivity.
Qed.

Definition not_progress (e : event) : bool := negb (is_progress e).

Lemma not_progress_kind : submit_kind not_progress.
Proof. split; reflexivity. Qed.

End Progress.

(** Progress is counted in completions against the number of files that
    passed the filters.  In a run that is not stopped and whose tasks all
    return, each yielded once, the [k]-th result taken is reported with the
    status "Completed processing images (k/total)" and the progress value
    [int((k / total) * 100)]; there are as many reports as loadable files, so
    with a file that could not be loaded the last report stays below
    [total/total]. *)
Theorem progress_counts_completions :
  forall {T : PipelineTypes} {C : Core} (w : World) (input_path : string),
    input_of_run w = Ok input_path ->
    filtered_files w input_path <> [] ->
    stop_after w = None ->
    (forall i t, r_futures (run w) !! i = Some t ->
                 exists p, returned (exec_task (r_store (run w)) t) = Ok p) ->
    Permutation (completion_order w) (seq 0 (length (r_futures (run w)))) ->
    let total := length (filtered_files w input_path) in
    let m := length (List.filter (loadable input_path) (filtered_files w input_path)) in
    length (r_futures (run w)) = m
    /\ m <= total
    /\ List.filter is_progress (r_trace (run w))
       = map (fun k => ProgressUpdate (percent k total)) (seq 1 m)
    /\ (forall k, 1 <= k <= m ->
                  In (StatusUpdate (completed_msg k total)) (r_trace (run w)))
    /\ r_running (run w) = true.
Proof.
  intros T C w input_path Hin Hne Hstop Hok Hperm total m.
  destruct (pool_run w input_path Hin Hne)
    as (tr_sub & tr_compl & A & Hfr & Ht & Hcl & Hr & I & Rt & Rr & Rf & Rs & _ & _
        & Bc & _).
  rewrite Rf, Rs in *.
  assert (Hrun : forall r, sees_running w r = true).
  { intros r. unfold sees_running. rewrite Hstop. reflexivity. }
  assert (Hpass : passing w 0 (enumerate (filtered_files w input_path))
                  = enumerate (filtered_files w input_path)).
  { unfold passing. rewrite Hstop. reflexivity. }
  assert (Hm : length (active_futures (sub (submitted w input_path (entry w)))) = m).
  { pose proof (adv_paths _ _ _ _ _ _ _ A) as Hp.
    rewrite Hpass, snd_enumerate in Hp.
    apply (f_equal (@length string)) in Hp. rewrite !length_map in Hp. exact Hp. }
  assert (Hall : forall i, In i (completion_order w) ->
                   i < length (active_futures (sub (submitted w input_path (entry w))))).
  { intros i Hi. apply (Permutation_in _ Hperm) in Hi. apply in_seq in Hi. lia. }
  assert (Hlen : length (completion_order w) = m).
  { rewrite (Permutation_length Hperm), length_seq. exact Hm. }
  assert (Hret : forall i, In i (completion_order w) ->
                   returns_ok (objects (sub (submitted w input_path (entry w))))
                     (active_futures (sub (submitted w input_path (entry w)))) i).
  { intros i _ t Hi. eapply Hok, Hi. }
  destruct (steps_ok_events w _ _ (length (filtered_files w input_path))
              (completion_order w)
              (CompletionFlow.entering (sub_ctl (submitted w input_path (entry w))))
              eq_refl Hcl Hret (fun r _ => Hrun r)) as (E1 & _).
  destruct (steps_ok w _ _ (length (filtered_files w input_path))
              (completion_order w)
              (CompletionFlow.entering (sub_ctl (submitted w input_path (entry w))))
              eq_refl Hcl Hret (fun r _ => Hrun r)) as (_ & Hc & _ & _).
  rewrite (valid_all _ _ Hall), Hlen in E1.
  cbn [CompletionFlow.entering cs_ctl processed_count] in E1.
  assert (Etr : tr_compl = flat_map (completion_events total) (seq 1 m)).
  { pose proof (ci_trace _ _ _ _ _ _ I) as It.
    unfold completed, completion_loop in It.
    unfold CompletionFlow.entering in E1. rewrite E1 in It.
    apply app_inv_head in It. symmetry. exact It. }
  assert (Hsub : existsb is_progress
                   (tr_sub ++ halt_events (breaks w 0 (enumerate (filtered_files w input_path))))
                 = false).
  { destruct (extends_submit_loop w not_progress input_path (processing_output_path w)
                (length (filtered_files w input_path))
                (enumerate (filtered_files w input_path))
                {| sub_ctl := entry w; sub := initial_sub w; sub_broken := false |}
                not_progress_kind) as (tr' & E' & H').
    cbn [sub_ctl] in E'.
    assert (E2 : tr' = tr_sub
                       ++ halt_events (breaks w 0 (enumerate (filtered_files w input_path)))).
    { unfold submitted, submit_loop in Ht. rewrite E' in Ht.
      apply app_inv_head in Ht. exact Ht. }
    rewrite <- E2. apply (kind_no not_progress is_progress tr' H').
    intros e He. unfold not_progress in He. apply negb_true_iff in He. exact He. }
  rewrite existsb_app in Hsub. apply orb_false_elim in Hsub as [Hs1 Hs2].
  split; [exact Hm|]. split.
  { unfold m, total. apply List.filter_length_le. }
  split.
  { rewrite Rt, Etr, !List.filter_app. cbn [List.filter is_progress].
    rewrite !List.filter_app, filter_completion_events.
    rewrite (filter_none is_progress (trace started)) by reflexivity.
    rewrite (filter_none is_progress (setup_events w)) by apply setup_no_progress.
    rewrite (filter_none is_progress tr_sub) by exact Hs1.
    rewrite (filter_none is_progress (halt_events _)) by exact Hs2.
    rewrite (filter_none is_progress (gate_events w _)) by apply gate_no_progress.
    rewrite (filter_none is_progress (except_events _))
      by (apply except_events_no; reflexivity).
    rewrite (filter_none is_progress (cleanup_events w))
      by (apply cleanup_events_no; reflexivity).
    rewrite (filter_none is_progress (closing _)) by reflexivity.
    cbn [app]. rewrite app_nil_r. reflexivity. }
  split.
  { intros k Hk. rewrite Rt, Etr. apply in_or_app. right. apply in_or_app. right.
    apply in_or_app. left. apply in_flat_map. exists k. split.
    - apply in_seq. lia.
    - right. left. reflexivity. }
  rewrite Rr, flag_value_eq, Bc.
  unfold completed, completion_loop. unfold CompletionFlow.entering in Hc.
  rewrite Hc, Hrun. reflexivity.
Qed.

Import Demo.

Lemma progress_counts_completions_witness :
  let w := world folder_cfg ["a1.png"; "bad1.png"; "b2.png"] None [1; 0] in
  List.filter is_progress (r_trace (run w)) = [ProgressUpdate 33; ProgressUpdate 66].
Proof.
  intros w.
  assert (Hin : input_of_run w = Ok "/in") by reflexivity.
  assert (Hne : filtered_files w "/in" <> []) by (vm_compute; discriminate).
  assert (Hok : forall i t, r_futures (run w) !! i = Some t ->
                  exists p, returned (exec_task (r_store (run w)) t) = Ok p).
  { intros i t Hi. destruct i as [|[|i]]; vm_compute in Hi; inversion Hi; subst;
      eexists; vm_compute; reflexivity. }
  assert (Hperm : Permutation (completion_order w) (seq 0 (length (r_futures (run w))))).
  { vm_compute. apply perm_swap. }
  destruct (progress_counts_completions w "/in" Hin Hne eq_refl Hok Hperm)
    as (_ & _ & H3 & _).
  rewrite H3. vm_compute. reflexivity.
Defined.

End ProgressSpec.

(** ** The index range with open bounds, and the order of equal keys *)

Module FilterSpec.
Import PyStr Numeric Scan NumericSpec ScanSpec.

Definition key_eqb (a b : sort_key) : bool :=
  match a, b with
  | Idx x, Idx y => (x =? y)%Z
  | Inf, Inf => true
  | _, _ => false
  end.

(** The files whose key is [k]. *)
Definition with_key (k : sort_key) (l : list string) : list string :=
  List.filter (fun f => key_eqb (get_numeric_part f) k) l.

Lemma key_eqb_leb a b k : key_eqb a k = true -> key_eqb b k = true -> key_leb a b = true.
Proof.
  destruct a, b, k; cbn; intros H1 H2; try discriminate; try reflexivity.
  apply Z.eqb_eq in H1, H2. apply Z.leb_le. lia.
Qed.

Lemma with_key_insert k x : forall l,
  with_key k (insert_by_key x l)
  = if key_eqb (get_numeric_part x) k then x :: with_key k l else with_key k l.
Proof.
  induction l as [|y t IH]; [reflexivity|]. cbn [insert_by_key].
  destruct (key_leb (get_numeric_part x) (get_numeric_part y)) eqn:E; [reflexivity|].
  unfold with_key in *. cbn [List.filter]. rewrite IH.
  destruct (key_eqb (get_numeric_part y) k) eqn:Ey; [|reflexivity].
  destruct (key_eqb (get_numeric_part x) k) eqn:Ex; [|reflexivity].
  rewrite (key_eqb_leb _ _ k Ex Ey) in E. discriminate.
Qed.

Lemma with_key_sorted k : forall l, with_key k (sorted_by_key l) = with_key k l.
Proof.
  induction l as [|x t IH]; [reflexivity|]. cbn [sorted_by_key].
  rewrite with_key_insert, IH. reflexivity.
Qed.

Lemma filter_comm {A} (p q : A -> bool) l :
  List.filter p (List.filter q l) = List.filter q (List.filter p l).
Proof.
  rewrite !filter_filter. apply List.filter_ext. intros a. apply andb_comm.
Qed.

Lemma in_index_range_cases start stop f :
  in_index_range start stop f = true <->
  match get_numeric_part f with
  | Idx n =>
      (forall s, start = Some s -> (s <= n)%Z) /\ (forall s, stop = Some s -> (n <= s)%Z)
  | Inf => stop = None
  end.
Proof.
  unfold in_index_range, key_ltb.
  destruct (get_numeric_part f) as [n|], start as [a|], stop as [b|]; cbn;
    repeat match goal with
           | |- context [(?x <=? ?y)%Z] => destruct (Z.leb_spec x y); cbn
           end;
    split; intros Hx; try discriminate; try reflexivity;
    try (split; intros s Hs; inversion Hs; subst; lia);
    try (destruct Hx as [H1 H2];
         try specialize (H1 _ eq_refl); try specialize (H2 _ eq_refl); lia).
Qed.

Lemma filter_all {A} (p : A -> bool) l : (forall a, p a = true) -> List.filter p l = l.
Proof.
  intros H. induction l as [|x l IH]; [reflexivity|]. cbn. rewrite H, IH. reflexivity.
Qed.

(** The index range as the filtering loop applies it, for any choice of
    bounds.  A file with an index is kept when the index is not below a
    configured [start_index] and not above a configured [stop_index]; a
    file without index compares as infinity: it is never below the start,
    and it is above every stop, so it is kept exactly when no [stop_index]
    is configured.  Without bounds the loop keeps every image file. *)
Theorem index_filter_open_bounds :
  forall (listing : list string) (start stop : option Z),
    (forall f,
       In f (image_filenames_filtered start stop listing) <->
       In f listing /\ is_image_name f = true /\
       match get_numeric_part f with
       | Idx n =>
           (forall s, start = Some s -> (s <= n)%Z)
           /\ (forall s, stop = Some s -> (n <= s)%Z)
       | Inf => stop = None
       end)
    /\ image_filenames_filtered None None listing = all_image_filenames listing.
Proof.
  intros listing start stop. split.
  - intros f. unfold image_filenames_filtered, all_image_filenames.
    rewrite List.filter_In, <- in_index_range_cases. split.
    + intros [H Hr]. apply (Permutation_in _ (sorted_by_key_perm _)) in H.
      apply List.filter_In in H as [H Hi]. auto.
    + intros (H & Hi & Hr). split; [|exact Hr].
      apply (Permutation_in _ (Permutation_sym (sorted_by_key_perm _))).
      apply List.filter_In. auto.
  - unfold image_filenames_filtered. apply filter_all. reflexivity.
Qed.

(** [sorted] is stable: files with the same key, among them all files
    without index, are enumerated in the order in which [os.listdir]
    returned them, before and after the index range is applied. *)
Theorem equal_keys_keep_listing_order :
  forall (listing : list string) (start stop : option Z) (k : sort_key),
    with_key k (all_image_filenames listing)
    = with_key k (List.filter is_image_name listing)
    /\ with_key k (image_filenames_filtered start stop listing)
       = List.filter (in_index_range start stop)
           (with_key k (List.filter is_image_name listing)).
Proof.
  intros listing start stop k. unfold all_image_filenames, image_filenames_filtered.
  split; [apply with_key_sorted|].
  unfold with_key at 1. rewrite filter_comm. fold (with_key k (all_image_filenames listing)).
  unfold all_image_filenames. rewrite with_key_sorted. reflexivity.
Qed.

End FilterSpec.

(** ** Adding edits, and the edits against the undo stack *)

Module EditSpec.
Import SliceEditor SliceEditorSpec.

Section Edits.
Context {C : Type} {EC : EditCommand C}.
Implicit Types (p : Project C) (c : C) (l : list C).

(** [l.append(c)] and then [l.remove(c)]: the first item equal to [c]
    goes, which is the appended one only if [l] held none. *)
Lemma remove_appended c : forall l,
  exists l',
    list_remove c (l ++ [c]) = Some l'
    /\ Permutation l' l
    /\ (~ In c l -> l' = l)
    /\ (forall l0, list_remove c l = Some l0 -> l' = l0 ++ [c]).
Proof.
  induction l as [|a l IH].
  - exists []. cbn. destruct (decide (c = c)); [|congruence].
    repeat split; auto. discriminate.
  - cbn. destruct (decide (a = c)) as [->|Hne].
    + exists (l ++ [c]). split; [reflexivity|]. split.
      { symmetry. apply Permutation_cons_append. }
      split.
      { intros H. exfalso. apply H. left. reflexivity. }
      intros l0 H. injection H as <-. reflexivity.
    + destruct IH as (l' & E & P & Ha & Hr). rewrite E. exists (a :: l').
      split; [reflexivity|]. split; [apply perm_skip, P|]. split.
      { intros H. f_equal. apply Ha. intros Hc. apply H. right. exact Hc. }
      intros l0 H. destruct (list_remove c l) as [t|]; [|discriminate].
      injection H as <-. cbn. f_equal. apply Hr. reflexivity.
Qed.

Lemma append_edit_lookup c (e : gmap Z (list C)) :
  append_edit c e !! get_affected_layer c
  = Some (default [] (e !! get_affected_layer c) ++ [c]).
Proof.
  unfold append_edit.
  destruct (e !! get_affected_layer c) as [l|] eqn:E; rewrite lookup_alter_eq.
  - rewrite E. reflexivity.
  - rewrite lookup_insert_eq. reflexivity.
Qed.

(** [perform_undo] right after [c] was appended to its layer and pushed on
    the undo stack. *)
Lemma undo_after_append p p1 c :
  undo_stack p1 = undo_stack p ++ [c] ->
  edits p1 = append_edit c (edits p) ->
  exists l',
    list_remove c (layer_edits p (get_affected_layer c) ++ [c]) = Some l'
    /\ fst (perform_undo p1) = Some c
    /\ undo_stack (snd (perform_undo p1)) = undo_stack p
    /\ redo_stack (snd (perform_undo p1)) = redo_stack p1 ++ [c]
    /\ layer_edits (snd (perform_undo p1)) (get_affected_layer c) = l'
    /\ forall layer, layer <> get_affected_layer c ->
         layer_edits (snd (perform_undo p1)) layer = layer_edits p layer.
Proof.
  intros Hu He.
  destruct (remove_appended c (layer_edits p (get_affected_layer c))) as (l' & Er & _).
  exists l'. split; [exact Er|].
  destruct (undo_fields p1 (undo_stack p) c Hu) as (H1 & H2 & H3 & H4).
  rewrite He, append_edit_lookup in H4. fold (layer_edits p (get_affected_layer c)) in H4.
  rewrite Er in H4.
  split; [exact H1|]. split; [exact H2|]. split; [exact H3|].
  unfold layer_edits at 1 2. rewrite H4. split.
  - rewrite lookup_insert_eq. reflexivity.
  - intros layer Hne. rewrite lookup_insert_ne by congruence.
    pose proof (append_edit_layer c (edits p) layer) as Hl.
    destruct (decide (layer = get_affected_layer c)); [congruence|].
    unfold layer_edits. exact Hl.
Qed.

(** What the round trip leaves of the layers. *)
Lemma layers_after_append_undo p p2 c l' :
  list_remove c (layer_edits p (get_affected_layer c) ++ [c]) = Some l' ->
  layer_edits p2 (get_affected_layer c) = l' ->
  (forall layer, layer <> get_affected_layer c -> layer_edits p2 layer = layer_edits p layer) ->
  (forall layer, Permutation (layer_edits p2 layer) (layer_edits p layer))
  /\ (~ In c (layer_edits p (get_affected_layer c)) ->
      forall layer, layer_edits p2 layer = layer_edits p layer)
  /\ (forall l0, list_remove c (layer_edits p (get_affected_layer c)) = Some l0 ->
                 layer_edits p2 (get_affected_layer c) = l0 ++ [c]).
Proof.
  intros Er Hl Ho.
  destruct (remove_appended c (layer_edits p (get_affected_layer c)))
    as (l1 & Er1 & P & Ha & Hr).
  rewrite Er in Er1. injection Er1 as <-.
  split; [|split].
  - intros layer. destruct (decide (layer = get_affected_layer c)) as [->|Hne].
    + rewrite Hl. exact P.
    + rewrite (Ho layer Hne). reflexivity.
  - intros Hn layer. destruct (decide (layer = get_affected_layer c)) as [->|Hne].
    + rewrite Hl. apply Ha, Hn.
    + apply Ho, Hne.
  - intros l0 H0. rewrite Hl. apply Hr, H0.
Qed.

(** The edits of every layer are commands of that layer, and each command
    is among the edits of its layer as often as it is on the undo stack. *)
Record balanced p : Prop := {
  bal_layer : forall layer c, In c (layer_edits p layer) -> get_affected_layer c = layer;
  bal_count : forall c, occ c (layer_edits p (get_affected_layer c)) = occ c (undo_stack p)
}.

Lemma balanced_append p p' c0 :
  balanced p ->
  undo_stack p' = undo_stack p ++ [c0] ->
  edits p' = append_edit c0 (edits p) ->
  balanced p'.
Proof.
  intros [Hl Hc] Hu He. split.
  - intros layer c. unfold layer_edits in *. rewrite He, append_edit_layer.
    destruct (decide (layer = get_affected_layer c0)) as [->|Hne]; [|apply Hl].
    intros H. apply in_app_or in H as [H|[<-|[]]]; [apply Hl, H|reflexivity].
  - intros c. specialize (Hc c). unfold layer_edits in *.
    rewrite Hu, He, occ_snoc, append_edit_layer.
    destruct (decide (get_affected_layer c = get_affected_layer c0)) as [E|Hne].
    + rewrite occ_snoc. lia.
    + destruct (decide (c0 = c)) as [->|_]; [congruence|lia].
Qed.

Lemma balanced_covered p : balanced p -> covered p.
Proof. intros [_ Hc] c. rewrite Hc. lia. Qed.

Lemma balanced_undo p : balanced p -> balanced (snd (perform_undo p)).
Proof.
  intros Hb. destruct (undo_stack p) as [|x u] eqn:Hu using rev_ind.
  { unfold perform_undo. rewrite Hu. exact Hb. }
  clear IHu. destruct (undo_fields p u x Hu) as (_ & H2 & _ & H4).
  pose proof (covered_top p u x (balanced_covered p Hb) Hu) as Hin.
  destruct (layer_edits_In p x Hin) as (l & El & Hl).
  destruct (list_remove_In x l Hl) as [l' Er]. rewrite El, Er in H4.
  destruct Hb as [Hlay Hc]. split.
  - intros layer c. unfold layer_edits in *. rewrite H4.
    destruct (decide (layer = get_affected_layer x)) as [->|Hne].
    + rewrite lookup_insert_eq. cbn [from_option id]. intros H.
      apply (Hlay (get_affected_layer x) c). rewrite El. cbn [from_option id].
      apply (Permutation_in _ (Permutation_sym (list_remove_perm x l l' Er))).
      right. exact H.
    + rewrite lookup_insert_ne by congruence. apply Hlay.
  - intros c. specialize (Hc c). unfold layer_edits in *.
    rewrite H2, H4. rewrite Hu, occ_snoc in Hc.
    destruct (decide (get_affected_layer c = get_affected_layer x)) as [E|Hne].
    + rewrite E in *. rewrite lookup_insert_eq. rewrite El in Hc.
      cbn [from_option id] in Hc |- *.
      rewrite (occ_remove c x l l' Er) in Hc. lia.
    + rewrite lookup_insert_ne by congruence.
      destruct (decide (x = c)) as [->|_]; [congruence|lia].
Qed.

Lemma balanced_redo p : balanced p -> balanced (snd (perform_redo p)).
Proof.
  intros Hb. destruct (redo_stack p) as [|x r] eqn:Hr using rev_ind.
  { unfold perform_redo. rewrite Hr. exact Hb. }
  clear IHr. destruct (redo_fields p r x Hr) as (_ & H2 & _ & H4).
  eapply balanced_append; eauto.
Qed.

Lemma reachable_balanced p : reachable p -> balanced p.
Proof.
  induction 1 as [p He Hu Hr|p c H IH|p H IH|p H IH].
  - split.
    + intros layer c. unfold layer_edits. rewrite He, lookup_empty. contradiction.
    + intros c. unfold layer_edits. rewrite He, Hu, lookup_empty. reflexivity.
  - eapply balanced_append; eauto.
  - apply balanced_undo, IH.
  - apply balanced_redo, IH.
Qed.

(** The commands of a layer on a stack. *)
Definition of_layer (layer : Z) (l : list C) : list C :=
  List.filter (fun c => bool_decide (get_affected_layer c = layer)) l.

Lemma occ_of_layer c layer l :
  occ c (of_layer layer l)
  = if decide (get_affected_layer c = layer) then occ c l else 0.
Proof.
  unfold occ, of_layer. induction l as [|x l IH].
  - destruct (decide _); reflexivity.
  - cbn [List.filter]. destruct (bool_decide_reflect (get_affected_layer x = layer)) as [E|E].
    + cbn [count_occ]. rewrite IH.
      destruct (decide (x = c)) as [->|Hne]; [|reflexivity].
      destruct (decide (get_affected_layer c = layer)); [reflexivity|congruence].
    + rewrite IH. cbn [count_occ].
      destruct (decide (x = c)) as [->|Hne]; [|reflexivity].
      destruct (decide (get_affected_layer c = layer)); [congruence|reflexivity].
Qed.

Lemma balanced_layers p layer :
  balanced p -> Permutation (layer_edits p layer) (of_layer layer (undo_stack p)).
Proof.
  intros [Hl Hc].
  apply (Permutation_count_occ (fun a b => decide (a = b))). intros c.
  change (occ c (layer_edits p layer) = occ c (of_layer layer (undo_stack p))).
  rewrite occ_of_layer. destruct (decide (get_affected_layer c = layer)) as [<-|Hne].
  - apply Hc.
  - unfold occ. apply count_occ_not_In. intros H. apply Hne, (Hl layer c H).
Qed.

End Edits.

(** [add_edit] appends the command to the edits of its layer and to the
    undo stack, and empties the redo stack, so that a redo right after it
    does nothing.  An undo right after it returns the command, restores the
    undo stack and leaves the command alone on the redo stack; every layer
    holds the same edits as before, up to their order.  The order is kept
    when the layer held no equal command; when it held one, as after a
    paste onto the same layer, the undo takes out that older edit and the
    new one stays at the end of the layer. *)
Theorem add_edit_then_undo :
  forall {C : Type} {EC : EditCommand C} (p : Project C) (c : C),
    let p1 := add_edit c p in
    let p2 := snd (perform_undo p1) in
    layer_edits p1 (get_affected_layer c) = layer_edits p (get_affected_layer c) ++ [c]
    /\ (forall layer, layer <> get_affected_layer c ->
                      layer_edits p1 layer = layer_edits p layer)
    /\ undo_stack p1 = undo_stack p ++ [c]
    /\ redo_stack p1 = []
    /\ perform_redo p1 = (None, p1)
    /\ fst (perform_undo p1) = Some c
    /\ undo_stack p2 = undo_stack p
    /\ redo_stack p2 = [c]
    /\ (forall layer, Permutation (layer_edits p2 layer) (layer_edits p layer))
    /\ (~ In c (layer_edits p (get_affected_layer c)) ->
        forall layer, layer_edits p2 layer = layer_edits p layer)
    /\ (forall l0, list_remove c (layer_edits p (get_affected_layer c)) = Some l0 ->
                   layer_edits p2 (get_affected_layer c) = l0 ++ [c]).
Proof.
  intros C EC p c p1 p2.
  assert (Hu : undo_stack p1 = undo_stack p ++ [c]) by reflexivity.
  assert (He : edits p1 = append_edit c (edits p)) by reflexivity.
  destruct (undo_after_append p p1 c Hu He) as (l' & Er & U1 & U2 & U3 & U4 & U5).
  destruct (layers_after_append_undo p p2 c l' Er U4 U5) as (L1 & L2 & L3).
  pose proof (append_edit_layer c (edits p)) as Hl.
  split.
  { specialize (Hl (get_affected_layer c)).
    destruct (decide (get_affected_layer c = get_affected_layer c)); [|congruence].
    exact Hl. }
  split.
  { intros layer Hne. specialize (Hl layer).
    destruct (decide (layer = get_affected_layer c)); [congruence|]. exact Hl. }
  split; [reflexivity|]. split; [reflexivity|]. split; [reflexivity|].
  split; [exact U1|]. split; [exact U2|]. split; [exact U3|].
  split; [exact L1|]. split; [exact L2|exact L3].
Qed.

(** A redo followed by an undo: both return the command that was on top
    of the redo stack, both stacks are as before, and every layer holds the
    same edits as before up to their order, in the same order when the layer
    held no command equal to the one redone. *)
Theorem redo_then_undo :
  forall {C : Type} {EC : EditCommand C} (p : Project C) (rest : list C) (c : C),
    redo_stack p = rest ++ [c] ->
    let p1 := snd (perform_redo p) in
    let p2 := snd (perform_undo p1) in
    fst (perform_redo p) = Some c
    /\ layer_edits p1 (get_affected_layer c) = layer_edits p (get_affected_layer c) ++ [c]
    /\ fst (perform_undo p1) = Some c
    /\ undo_stack p2 = undo_stack p
    /\ redo_stack p2 = redo_stack p
    /\ (forall layer, Permutation (layer_edits p2 layer) (layer_edits p layer))
    /\ (~ In c (layer_edits p (get_affected_layer c)) ->
        forall layer, layer_edits p2 layer = layer_edits p layer).
Proof.
  intros C EC p rest c Hr p1 p2.
  destruct (redo_fields p rest c Hr) as (R1 & R2 & R3 & R4).
  destruct (undo_after_append p p1 c R2 R4) as (l' & Er & U1 & U2 & U3 & U4 & U5).
  destruct (layers_after_append_undo p p2 c l' Er U4 U5) as (L1 & L2 & _).
  split; [exact R1|]. split.
  { pose proof (append_edit_layer c (edits p) (get_affected_layer c)) as Hl.
    destruct (decide (get_affected_layer c = get_affected_layer c)); [|congruence].
    unfold layer_edits, p1. rewrite R4. exact Hl. }
  split; [exact U1|]. split; [exact U2|]. split.
  { unfold p2. rewrite U3. unfold p1. rewrite R3. symmetry. exact Hr. }
  split; [exact L1|exact L2].
Qed.

(** In a project built from one without edits by [add_edit],
    [perform_undo] and [perform_redo], the edits of every layer are, up to
    their order, the commands of that layer on the undo stack: what can be
    undone is what is drawn.  With an empty undo stack no layer has an
    edit, and all layers together hold as many edits as the undo stack has
    commands of them. *)
Theorem edits_match_undo_stack :
  forall {C : Type} {EC : EditCommand C} (p : Project C),
    reachable p ->
    (forall layer, Permutation (layer_edits p layer) (of_layer layer (undo_stack p)))
    /\ (forall layer c, In c (layer_edits p layer) -> get_affected_layer c = layer)
    /\ (undo_stack p = [] -> forall layer, layer_edits p layer = [])
    /\ (forall layer, length (layer_edits p layer) <= length (undo_stack p)).
Proof.
  intros C EC p Hr. pose proof (reachable_balanced p Hr) as Hb.
  split; [intros layer; apply balanced_layers, Hb|].
  split; [apply (bal_layer p Hb)|]. split.
  - intros Hu layer. pose proof (balanced_layers p layer Hb) as P.
    rewrite Hu in P. apply Permutation_nil. symmetry. exact P.
  - intros layer. rewrite (Permutation_length (balanced_layers p layer Hb)).
    apply List.filter_length_le.
Qed.

Lemma add_edit_then_undo_witness :
  let p := add_edit (rect 0) new_project in
  let c := {| layer_index := 0; x := 0; y := 0; width := 5; height := 5; color := 0 |} in
  layer_edits (snd (perform_undo (add_edit c p))) 0 = [rect 0]
  /\ layer_edits (snd (perform_undo (add_edit (rect 0) (add_edit c p)))) 0 = [c; rect 0].
Proof.
  intros p c. split.
  - apply (proj1 (proj2 (proj2 (proj2 (proj2 (proj2 (proj2 (proj2 (proj2 (proj2
             (add_edit_then_undo p c))))))))))).
    vm_compute. intros [H|[]]. discriminate.
  - assert (Hr : list_remove (rect 0)
                   (layer_edits (add_edit c p) (get_affected_layer (rect 0))) = Some [c])
      by (vm_compute; reflexivity).
    exact (proj2 (proj2 (proj2 (proj2 (proj2 (proj2 (proj2 (proj2 (proj2 (proj2
             (add_edit_then_undo (add_edit c p) (rect 0)))))))))))
             [c] Hr).
Defined.

Lemma redo_then_undo_witness :
  let p := snd (perform_undo (add_edit (rect 1) (add_edit (rect 0) new_project))) in
  layer_edits (snd (perform_undo (snd (perform_redo p)))) 1 = layer_edits p 1.
Proof.
  intros p.
  apply (proj2 (proj2 (proj2 (proj2 (proj2 (proj2 (redo_then_undo p [] (rect 1) eq_refl))))))).
  vm_compute. intros [].
Defined.

Lemma edits_match_undo_stack_witness :
  let p := snd (perform_undo (add_edit (rect 1) (add_edit (rect 0) new_project))) in
  Permutation (layer_edits p 0) [rect 0] /\ layer_edits p 1 = [].
Proof.
  intros p.
  assert (Hr : reachable p).
  { apply reach_undo, reach_add, reach_add, reach_new; reflexivity. }
  destruct (edits_match_undo_stack p Hr) as (H1 & _).
  split; [exact (H1 0%Z)|].
  apply Permutation_nil. symmetry. exact (H1 1%Z).
Defined.

End EditSpec.

(** ** The slice editor's UVTools wrapper *)

Module UvtoolsWrapperSpec.
Import PyStr OsPath Numeric Scan NumericSpec ScanSpec OsPathSpec UvtoolsWrapper.

(** *** The key of a path *)

Lemma span_across (P : ascii -> bool) c t : forall a ds r1,
  P c = false -> span P (a ++ c :: t) = (ds, r1) ->
  exists a', a = ds ++ a' /\ r1 = a' ++ c :: t.
Proof.
  induction a as [|x a IH]; intros ds r1 Hc H.
  - cbn in H. rewrite Hc in H. inversion H. exists []. auto.
  - cbn in H. destruct (P x).
    + destruct (span P (a ++ c :: t)) as [ds' r'] eqn:E. inversion H; subst.
      destruct (IH ds' r1 Hc eq_refl) as (a' & -> & ->). exists a'. auto.
    + inversion H; subst. exists (x :: a). auto.
Qed.

Lemma at_end_before_sep u b : at_end (u ++ sep :: b) = false.
Proof.
  destruct u as [|x [|y u]]; [destruct b|..]; reflexivity.
Qed.

(** No match of the pattern starts in front of a separator. *)
Lemma match_here_before_sep a b : match_here (a ++ sep :: b) = None.
Proof.
  unfold match_here.
  destruct (span is_digit (a ++ sep :: b)) as [ds r1] eqn:E.
  destruct (span_across is_digit sep b a ds r1 eq_refl E) as (a' & -> & ->).
  destruct ds as [|d ds]; [reflexivity|].
  destruct a' as [|dot a']; cbn [app]; [reflexivity|].
  destruct (Ascii.eqb dot ".") eqn:Hdot; [|reflexivity].
  destruct (span is_word (a' ++ sep :: b)) as [ws r3] eqn:E2.
  destruct (span_across is_word sep b a' ws r3 eq_refl E2) as (a3 & -> & ->).
  destruct ws; [reflexivity|]. rewrite at_end_before_sep. reflexivity.
Qed.

Lemma search_after_sep b : forall a, search (a ++ sep :: b) = search b.
Proof.
  induction a as [|x a IH].
  - cbn [app]. pose proof (match_here_before_sep [] b) as M. cbn [app] in M.
    cbn [search]. rewrite M. reflexivity.
  - pose proof (match_here_before_sep (x :: a) b) as M. cbn [app] in M |- *.
    cbn [search]. rewrite M. exact IH.
Qed.

Lemma key_after_sep a b :
  get_numeric_part (str (a ++ sep :: b)) = get_numeric_part (str b).
Proof.
  unfold get_numeric_part. rewrite !chars_str, search_after_sep. reflexivity.
Qed.

Lemma key_of_basename p : get_numeric_part p = get_numeric_part (basename p).
Proof.
  destruct (last_occurrence sep (chars p)) as [H|(a & b & E & Hb)].
  - rewrite basename_no_sep_id by exact H. reflexivity.
  - rewrite <- (str_chars p), E, key_after_sep, basename_after_sep by exact Hb.
    reflexivity.
Qed.

Lemma key_of_join d f : get_numeric_part (join d f) = get_numeric_part f.
Proof.
  unfold join. destruct (startswith f "/"); [reflexivity|].
  destruct (String.eqb d "") eqn:E0.
  - apply String.eqb_eq in E0. subst. reflexivity.
  - cbn [orb]. destruct (endswith d "/") eqn:E1.
    + destruct (endswith_sep _ E1) as [a Ha].
      rewrite <- (str_chars (d +:+ f)), chars_append, Ha, <- app_assoc. cbn [app].
      rewrite key_after_sep, str_chars. reflexivity.
    + rewrite <- (str_chars (d +:+ "/" +:+ f)), !chars_append.
      cbn [chars list_ascii_of_string app]. change "/"%char with sep.
      rewrite key_after_sep, str_chars. reflexivity.
Qed.

(** Sorting commutes with a renaming that keeps the keys. *)
Lemma insert_by_key_map (g : string -> string) x : forall l,
  (forall y, get_numeric_part (g y) = get_numeric_part y) ->
  insert_by_key (g x) (map g l) = map g (insert_by_key x l).
Proof.
  intros l Hg. induction l as [|y t IH]; [reflexivity|].
  cbn [map insert_by_key]. rewrite !Hg.
  destruct (key_leb _ _); [reflexivity|]. cbn [map]. rewrite IH. reflexivity.
Qed.

Lemma sorted_by_key_map (g : string -> string) : forall l,
  (forall y, get_numeric_part (g y) = get_numeric_part y) ->
  sorted_by_key (map g l) = map g (sorted_by_key l).
Proof.
  intros l Hg. induction l as [|x t IH]; [reflexivity|].
  cbn [map sorted_by_key]. rewrite IH. apply insert_by_key_map, Hg.
Qed.

(** *** The operation file *)

(** The entry of one file. *)
Definition file_entry (f_path : string) : string :=
  "    <GenericFileRepresentation>" +:+ nl
  +:+ "      <FilePath>" +:+ f_path +:+ "</FilePath>" +:+ nl
  +:+ "    </GenericFileRepresentation>" +:+ nl.

Lemma append_assoc (a b c : string) : (a +:+ b) +:+ c = a +:+ b +:+ c.
Proof.
  induction a as [|x a IH]; [reflexivity|].
  change (String x a +:+ b) with (String x (a +:+ b)).
  change (String x (a +:+ b) +:+ c) with (String x ((a +:+ b) +:+ c)).
  change (String x a +:+ b +:+ c) with (String x (a +:+ b +:+ c)).
  rewrite IH. reflexivity.
Qed.

Lemma append_nil_r (a : string) : a +:+ "" = a.
Proof.
  induction a as [|x a IH]; [reflexivity|].
  change (String x a +:+ "") with (String x (a +:+ "")). rewrite IH. reflexivity.
Qed.

Lemma add_file_entry xml f_path : add_file xml f_path = xml +:+ file_entry f_path.
Proof. reflexivity. Qed.

Lemma fold_add_file files : forall xml,
  fold_left add_file files xml = xml +:+ String.concat "" (map file_entry files).
Proof.
  induction files as [|f files IH]; intros xml.
  - cbn. symmetry. apply append_nil_r.
  - cbn [fold_left map]. rewrite IH, add_file_entry, append_assoc. f_equal.
    destruct files as [|g files]; [apply append_nil_r|reflexivity].
Qed.

Lemma sorted_by_key_nil l : sorted_by_key l = [] -> l = [].
Proof.
  intros H. pose proof (Permutation_length (sorted_by_key_perm l)) as E.
  rewrite H in E. destruct l; [reflexivity|discriminate].
Qed.

Lemma has_sep_append a b : has_sep (a +:+ b) = has_sep a || has_sep b.
Proof. unfold has_sep. rewrite chars_append, existsb_app. reflexivity. Qed.

Lemma length_chars_append a b :
  length (chars (a +:+ b)) = length (chars a) + length (chars b).
Proof. rewrite chars_append, length_app. reflexivity. Qed.

(** The base name of a path that ends in a string without separator. *)
Lemma basename_append y t : has_sep t = false -> basename (y +:+ t) = basename y +:+ t.
Proof.
  intros Ht. destruct (last_occurrence sep (chars y)) as [H|(a & b & E & Hb)].
  - rewrite !basename_no_sep_id; [reflexivity|exact H|].
    rewrite has_sep_append. unfold has_sep at 1. rewrite H. exact Ht.
  - rewrite <- (str_chars (y +:+ t)), chars_append, E, <- app_assoc. cbn [app].
    rewrite basename_after_sep.
    + rewrite <- (str_chars y) at 1. rewrite E, basename_after_sep by exact Hb.
      rewrite <- (str_chars (str b +:+ t)), chars_append, chars_str. reflexivity.
    + rewrite existsb_app, Hb. exact Ht.
Qed.

(** [join] puts the name at the end of the path. *)
Lemma join_ends_with d f : exists y, join d f = y +:+ f.
Proof.
  unfold join. destruct (startswith f "/"); [exists ""; reflexivity|].
  destruct (String.eqb d "" || endswith d "/").
  - exists d. reflexivity.
  - exists (d +:+ "/"). symmetry. apply append_assoc.
Qed.

(** An operating system in which every command exits with status [code],
    for concrete calls. *)
Definition exits_with (code : Z) : Os :=
  {| makedirs_raises _ := None;
     spawn _ := Ok {| returncode := code; stderr := "" |};
     called_process_error _ process :=
       {| exc_str := "Command returned non-zero exit status " +:+ of_Z (returncode process);
          exc_traceback := "" |};
     os_listdir _ := Ok ["10.png"; "notes.txt"; "9.PNG"];
     write_raises _ _ := None |}.

(** The key by which the operation file is ordered is computed from the
    whole path, and the folder in front has no influence on it: the key of
    a path is the key of its base name, joining a folder in front of a name
    keeps the key, and so sorting the joined paths gives the names in the
    order of their own keys. *)
Theorem numeric_part_ignores_folder :
  forall (p folder f : string) (names : list string),
    get_numeric_part p = get_numeric_part (basename p)
    /\ get_numeric_part (join folder f) = get_numeric_part f
    /\ sorted_by_key (map (join folder) names) = map (join folder) (sorted_by_key names)
    /\ processed_files folder names
       = map (join folder) (sorted_by_key (List.filter is_png names)).
Proof.
  intros p folder f names.
  split; [apply key_of_basename|]. split; [apply key_of_join|].
  split; apply sorted_by_key_map, key_of_join.
Qed.

(** [generate_uvtop_file] on a folder that can be listed.  Without a
    [.png] name in it the function raises its [RuntimeError] and writes
    nothing.  Otherwise it writes, into the temp folder under the name
    [repack_operations_<timestamp>.uvtop], the header, one entry for every
    [.png] name of the folder with the folder joined in front, in the
    numeric order of the names, and the footer; it returns the path of that
    file, or lets the exception of the write through. *)
Theorem uvtop_file_lists_sorted_pngs :
  forall (os : Os) (folder temp_folder run_timestamp : string) (listing : list string),
    os_listdir os folder = Ok listing ->
    let names := sorted_by_key (List.filter is_png listing) in
    let path := join temp_folder ("repack_operations_" +:+ run_timestamp +:+ ".uvtop") in
    let content :=
      uvtop_header
      +:+ String.concat "" (map (fun name => file_entry (join folder name)) names)
      +:+ uvtop_footer in
    let g := generate_uvtop_file os folder temp_folder run_timestamp in
    Permutation names (List.filter is_png listing)
    /\ StronglySorted by_key names
    /\ ((forall f, In f listing -> is_png f = false) ->
        g_result g
        = Throw (RuntimeError "No processed image files found to generate .uvtop file.")
        /\ g_written g = None)
    /\ (forall f, In f listing -> is_png f = true ->
        match write_raises os path content with
        | None => g_result g = Return path /\ g_written g = Some (path, content)
        | Some e => g_result g = Throw (Raised e) /\ g_written g = None
        end).
Proof.
  intros os folder temp_folder run_timestamp listing Hl names path content g.
  split; [apply sorted_by_key_perm|]. split; [apply sorted_by_key_sorted|].
  assert (Hf : processed_files folder listing = map (join folder) names).
  { apply sorted_by_key_map, key_of_join. }
  split.
  - intros Hno. unfold g, generate_uvtop_file. rewrite Hl, Hf.
    assert (E : names = []).
    { unfold names. replace (List.filter is_png listing) with (@nil string); [reflexivity|].
      symmetry. clear -Hno. induction listing as [|x l IH]; [reflexivity|].
      cbn. rewrite (Hno x (or_introl eq_refl)). apply IH. intros f H. apply Hno. right.
      exact H. }
    rewrite E. cbn. auto.
  - intros f Hin Hp. unfold g, generate_uvtop_file. rewrite Hl, Hf.
    assert (Hc : xml_content (map (join folder) names) = content).
    { unfold xml_content, content. rewrite fold_add_file, append_assoc, map_map.
      reflexivity. }
    destruct (map (join folder) names) as [|f0 files] eqn:E.
    + exfalso. apply map_eq_nil in E. apply sorted_by_key_nil in E.
      assert (H : In f (List.filter is_png listing)) by (apply List.filter_In; auto).
      rewrite E in H. exact H.
    + rewrite Hc. fold path. unfold uvtop_filename. fold path.
      destruct (write_raises os path content); cbn; auto.
Qed.

(** [extract_layers] returns the folder [<temp_folder>/Input] exactly when
    the command could be started and exited with status 0.  Because the
    command is run with [check=True], every other exit status, 1 included,
    arrives as the [CalledProcessError] of [subprocess.run] and is raised
    again as [RuntimeError("UVTools extraction failed: ...")], as is an
    exception of the start; the function's own test of the return code
    never finds a code to reject. *)
Theorem extract_layers_exit_status :
  forall (os : Os) (uvtools_path input_file temp_folder : string),
    makedirs_raises os (join temp_folder "Input") = None ->
    let input_folder := join temp_folder "Input" in
    let command :=
      [uvtools_path; "extract"; input_file; input_folder; "--content"; "Layers"] in
    match spawn os command with
    | Ok process =>
        if (returncode process =? 0)%Z
        then extract_layers os uvtools_path input_file temp_folder = Return input_folder
        else extract_layers os uvtools_path input_file temp_folder
             = Throw (RuntimeError
                        ("UVTools extraction failed: "
                         +:+ exc_str (called_process_error os command process)))
    | Raise e =>
        extract_layers os uvtools_path input_file temp_folder
        = Throw (RuntimeError ("UVTools extraction failed: " +:+ exc_str e))
    end.
Proof.
  intros os uvtools_path input_file temp_folder Hm input_folder command.
  unfold extract_layers. rewrite Hm. fold input_folder.
  unfold run_command, subprocess_run, extract_command. fold command.
  destruct (spawn os command) as [process|e]; [|reflexivity].
  destruct (returncode process =? 0)%Z eqn:E; [|reflexivity].
  rewrite E. reflexivity.
Qed.

(** [repack_layers] never writes over the slice file it reads: the output
    path differs from the input file, whatever the prefix, the timestamp and
    the output location are.  The output goes to the folder of the input
    file when the location is ["input_folder"] and to the temp folder for
    every other value; when prefix and timestamp hold no separator, its
    base name is prefix, timestamp, an underscore and the base name of the
    input.  The path is returned exactly on exit status 0. *)
Theorem repack_never_overwrites_input :
  forall (os : Os) (uvtools_path input_file uvtop_filepath output_location temp_folder
            output_prefix run_timestamp : string),
    let name := output_prefix +:+ run_timestamp +:+ "_" +:+ basename input_file in
    let final :=
      final_output_path input_file output_location temp_folder output_prefix
        run_timestamp in
    let command := [uvtools_path; "run"; input_file; uvtop_filepath; "--output"; final] in
    final <> input_file
    /\ final = join (if String.eqb output_location "input_folder"
                     then dirname input_file else temp_folder) name
    /\ (has_sep output_prefix = false -> has_sep run_timestamp = false ->
        basename final = name)
    /\ match spawn os command with
       | Ok process =>
           if (returncode process =? 0)%Z
           then repack_layers os uvtools_path input_file uvtop_filepath output_location
                  temp_folder output_prefix run_timestamp = Return final
           else repack_layers os uvtools_path input_file uvtop_filepath output_location
                  temp_folder output_prefix run_timestamp
                = Throw (RuntimeError
                           ("UVTools repacking failed: "
                            +:+ exc_str (called_process_error os command process)))
       | Raise e =>
           repack_layers os uvtools_path input_file uvtop_filepath output_location
             temp_folder output_prefix run_timestamp
           = Throw (RuntimeError ("UVTools repacking failed: " +:+ exc_str e))
       end.
Proof.
  intros os uvtools_path input_file uvtop_filepath output_location temp_folder
    output_prefix run_timestamp name final command.
  assert (Hb : has_sep ("_" +:+ basename input_file) = false).
  { rewrite has_sep_append, basename_has_no_sep. reflexivity. }
  split; [|split; [reflexivity|split]].
  - intros E.
    destruct (join_ends_with
                (if String.eqb output_location "input_folder"
                 then dirname input_file else temp_folder) name) as [y Hy].
    assert (Hf : final = (y +:+ output_prefix +:+ run_timestamp)
                         +:+ "_" +:+ basename input_file).
    { unfold final, final_output_path, output_filename. fold name. rewrite Hy.
      unfold name. rewrite !append_assoc. reflexivity. }
    apply (f_equal basename) in Hf. rewrite E, (basename_append _ _ Hb) in Hf.
    apply (f_equal (fun s => length (chars s))) in Hf.
    rewrite !length_chars_append in Hf. cbn in Hf. lia.
  - intros Hp Ht. apply basename_join. unfold name.
    rewrite !has_sep_append, Hp, Ht, basename_has_no_sep. reflexivity.
  - unfold repack_layers, run_command, subprocess_run, repack_command.
    fold final. fold command.
    destruct (spawn os command) as [process|e]; [|reflexivity].
    destruct (returncode process =? 0)%Z eqn:E; [|reflexivity].
    rewrite E. reflexivity.
Qed.

Lemma uvtop_file_lists_sorted_pngs_witness :
  g_written (generate_uvtop_file (exits_with 0) "/tmp/s/Output" "/tmp/s" "20250101-000000")
  = Some ("/tmp/s/repack_operations_20250101-000000.uvtop",
          uvtop_header
          +:+ file_entry "/tmp/s/Output/9.PNG" +:+ file_entry "/tmp/s/Output/10.png"
          +:+ uvtop_footer).
Proof.
  pose proof (uvtop_file_lists_sorted_pngs (exits_with 0) "/tmp/s/Output" "/tmp/s"
                "20250101-000000" ["10.png"; "notes.txt"; "9.PNG"] eq_refl) as H.
  destruct H as (_ & _ & _ & H).
  specialize (H "10.png" (or_introl eq_refl) eq_refl).
  cbn [write_raises exits_with] in H. destruct H as [_ H]. rewrite H.
  vm_compute. reflexivity.
Defined.

Lemma extract_layers_exit_status_witness :
  extract_layers (exits_with 0) "UVToolsCmd" "/models/part.ctb" "/tmp/s"
  = Return "/tmp/s/Input"
  /\ extract_layers (exits_with 1) "UVToolsCmd" "/models/part.ctb" "/tmp/s"
     = Throw (RuntimeError
                "UVTools extraction failed: Command returned non-zero exit status 1").
Proof.
  split.
  - exact (extract_layers_exit_status (exits_with 0) "UVToolsCmd" "/models/part.ctb"
             "/tmp/s" eq_refl).
  - exact (extract_layers_exit_status (exits_with 1) "UVToolsCmd" "/models/part.ctb"
             "/tmp/s" eq_refl).
Defined.

Lemma repack_never_overwrites_input_witness :
  basename (final_output_path "/models/part.ctb" "input_folder" "/tmp/s" "run_"
              "20250101-000000")
  = "run_20250101-000000_part.ctb".
Proof.
  exact (proj1 (proj2 (proj2 (repack_never_overwrites_input (exits_with 0) "UVToolsCmd"
           "/models/part.ctb" "/tmp/s/r.uvtop" "input_folder" "/tmp/s" "run_"
           "20250101-000000"))) eq_refl eq_refl).
Defined.

End UvtoolsWrapperSpec.

(** ** The main window of the slice editor *)

Module MainWindowSpec.
Import PyStr OsPath Numeric NumericSpec OsPathSpec SliceEditor SliceEditorSpec.
Import UvtoolsWrapper MainWindow.

(** *** The order of an opened sequence *)

Lemma fst_span_cut (P : ascii -> bool) c r : forall q,
  P c = false -> fst (span P (q ++ c :: r)) = fst (span P (q ++ [c])).
Proof.
  induction q as [|x q IH]; intros Hc; cbn.
  - rewrite Hc. reflexivity.
  - destruct (P x); [|reflexivity].
    specialize (IH Hc).
    destruct (span P (q ++ c :: r)), (span P (q ++ [c])). cbn in *. congruence.
Qed.

(** With a digit in front of a separator, the first run of digits does not
    depend on what follows the separator. *)
Lemma first_digits_folder r : forall p,
  existsb is_digit p = true ->
  first_digits (p ++ sep :: r) = first_digits (p ++ [sep]).
Proof.
  induction p as [|x p IH]; intros H; [discriminate|].
  cbn [app first_digits]. destruct (is_digit x) eqn:Hx.
  - f_equal. apply (fst_span_cut is_digit sep r (x :: p)). reflexivity.
  - cbn in H. rewrite Hx in H. apply IH, H.
Qed.

Lemma first_digits_skip r : forall p,
  existsb is_digit p = false -> first_digits (p ++ r) = first_digits r.
Proof.
  induction p as [|x p IH]; intros H; [reflexivity|].
  cbn in H. apply orb_false_elim in H as [Hx H].
  cbn [app first_digits]. rewrite Hx. apply IH, H.
Qed.

(** A name without separator joined to a folder that has a name. *)
Lemma join_chars d f :
  has_sep f = false -> d <> "" ->
  exists p,
    chars (join d f) = p ++ sep :: chars f
    /\ existsb is_digit p = existsb is_digit (chars d).
Proof.
  intros Hf Hd. unfold join. rewrite (no_sep_not_absolute _ Hf).
  destruct (String.eqb d "") eqn:E0; [apply String.eqb_eq in E0; congruence|].
  cbn [orb]. destruct (endswith d "/") eqn:E1.
  - destruct (endswith_sep _ E1) as [a Ha]. exists a.
    rewrite chars_append, Ha, <- app_assoc. split; [reflexivity|].
    rewrite existsb_app. cbn. rewrite !orb_false_r. reflexivity.
  - exists (chars d). rewrite !chars_append. split; reflexivity.
Qed.

Lemma insert_by_same key k x : forall l,
  key x = k -> (forall y, In y l -> key y = k) -> insert_by key x l = x :: l.
Proof.
  intros [|y t] Hx Hl; [reflexivity|]. cbn.
  rewrite Hx, (Hl y (or_introl eq_refl)), Z.leb_refl. reflexivity.
Qed.

(** Sorting by a key that is the same for all items changes nothing. *)
Lemma sorted_by_same key k : forall l,
  (forall y, In y l -> key y = k) -> sorted_by key l = l.
Proof.
  induction l as [|x t IH]; intros H; [reflexivity|]. cbn.
  rewrite IH by (intros y Hy; apply H; right; exact Hy).
  apply (insert_by_same key k); [apply H; left; reflexivity|].
  intros y Hy. apply H. right. exact Hy.
Qed.

(** *** Pasting *)

Ltac z_cases :=
  repeat match goal with
         | |- context [(?a <=? ?b)%Z] => destruct (Z.leb_spec a b)
         | |- context [(?a <? ?b)%Z] => destruct (Z.ltb_spec a b)
         | |- context [(?a =? ?b)%Z] => destruct (Z.eqb_spec a b)
         end;
  cbn [andb]; try reflexivity; try (subst; reflexivity); lia.

Section Paste.
Context {C : Type} {EC : EditCommand C}.
Variable on : Z -> C -> C.
Hypothesis layer_on : forall i c, get_affected_layer (on i c) = i.
Variable c : C.

Definition pasted (p : Project C) (ls : list Z) : Project C :=
  fold_left (fun p i => add_edit (on i c) p) ls p.

Lemma layer_edits_add p i layer :
  layer_edits (add_edit (on i c) p) layer
  = if decide (layer = i) then layer_edits p layer ++ [on i c] else layer_edits p layer.
Proof.
  pose proof (append_edit_layer (on i c) (edits p) layer) as H.
  rewrite layer_on in H. exact H.
Qed.

Lemma pasted_fields : forall ls p,
  undo_stack (pasted p ls) = undo_stack p ++ map (fun i => on i c) ls
  /\ (ls <> [] -> redo_stack (pasted p ls) = [])
  /\ layer_image_paths (pasted p ls) = layer_image_paths p
  /\ forall layer,
       layer_edits (pasted p ls) layer
       = layer_edits p layer
         ++ map (fun i => on i c) (List.filter (Z.eqb layer) ls).
Proof.
  induction ls as [|i ls IH]; intros p.
  - cbn. rewrite app_nil_r. repeat split; try congruence.
    intros layer. rewrite app_nil_r. reflexivity.
  - cbn [pasted fold_left]. fold (pasted (add_edit (on i c) p) ls).
    destruct (IH (add_edit (on i c) p)) as (H1 & H2 & H3 & H4).
    split; [rewrite H1; cbn; rewrite <- app_assoc; reflexivity|].
    split.
    { intros _. destruct ls as [|j ls]; [reflexivity|]. apply H2. discriminate. }
    split; [rewrite H3; reflexivity|].
    intros layer. rewrite H4, layer_edits_add. cbn [List.filter].
    destruct (decide (layer = i)) as [->|Hne].
    + rewrite Z.eqb_refl. cbn [map]. rewrite <- app_assoc. reflexivity.
    + destruct (Z.eqb_spec layer i); [congruence|]. reflexivity.
Qed.

Lemma filter_range layer a : forall n s,
  List.filter (Z.eqb layer) (map (fun k => (a + Z.of_nat k)%Z) (seq s n))
  = if ((a + Z.of_nat s <=? layer) && (layer <? a + Z.of_nat s + Z.of_nat n))%Z
    then [layer] else [].
Proof.
  induction n as [|n IH]; intros s.
  - cbn [seq map List.filter]. z_cases.
  - cbn [seq map List.filter]. rewrite IH. z_cases.
Qed.

Lemma filter_range_in layer a b :
  List.filter (Z.eqb layer) (range a b)
  = if ((a <=? layer) && (layer <? b))%Z then [layer] else [].
Proof. unfold range. rewrite filter_range. z_cases. Qed.

End Paste.

(** The key by which [open_png_sequence] sorts is the first number in the
    whole path, the folder included.  When the path of the selected folder
    holds a digit, every file gets the same key, read from the folder, and
    the sort leaves the files in the order in which [os.listdir] returned
    them; only when the folder path holds no digit is the key the first
    number in the file name. *)
Theorem png_sequence_key_reads_folder :
  forall {C : Type} {EC : EditCommand C} (dir_path : string) (listing : list string),
    (forall f, In f listing -> has_sep f = false) ->
    (existsb is_digit (chars dir_path) = true ->
     (exists k, forall f, In f listing -> sequence_key (join dir_path f) = k)
     /\ image_files dir_path listing
        = map (join dir_path) (List.filter is_png listing)
     /\ forall (project : Project C) (f : string),
          In f listing -> is_png f = true ->
          open_png_sequence dir_path listing project
          = (load_new_project (map (join dir_path) (List.filter is_png listing)) dir_path,
             None))
    /\ (existsb is_digit (chars dir_path) = false ->
        forall f, In f listing -> sequence_key (join dir_path f) = sequence_key f).
Proof.
  intros C EC dir_path listing Hsep. split.
  - intros Hd.
    assert (Hki : (exists k, forall f, In f listing -> sequence_key (join dir_path f) = k)
                  /\ image_files dir_path listing
                     = map (join dir_path) (List.filter is_png listing)).
    { assert (Hne : dir_path <> "") by (intros ->; discriminate).
      assert (Hk : exists k, forall f, In f listing -> sequence_key (join dir_path f) = k).
      { destruct (endswith dir_path "/") eqn:E1.
        - destruct (endswith_sep _ E1) as [a Ha].
          exists (match first_digits (a ++ [sep]) with
                  | Some g => int_of_digits g
                  | None => (-1)%Z
                  end).
          intros f Hf. unfold sequence_key, join.
          rewrite (no_sep_not_absolute _ (Hsep f Hf)), E1, orb_true_r.
          rewrite chars_append, Ha, <- app_assoc. cbn [app].
          rewrite first_digits_folder; [reflexivity|].
          rewrite Ha, existsb_app in Hd. cbn in Hd. rewrite !orb_false_r in Hd. exact Hd.
        - exists (match first_digits (chars dir_path ++ [sep]) with
                  | Some g => int_of_digits g
                  | None => (-1)%Z
                  end).
          intros f Hf. unfold sequence_key, join.
          rewrite (no_sep_not_absolute _ (Hsep f Hf)), E1.
          destruct (String.eqb dir_path "") eqn:E0; [apply String.eqb_eq in E0; congruence|].
          cbn [orb]. rewrite !chars_append. cbn [chars list_ascii_of_string app].
          change "/"%char with sep. rewrite first_digits_folder by exact Hd. reflexivity. }
      split; [exact Hk|]. destruct Hk as [k Hk].
      unfold image_files. apply (sorted_by_same sequence_key k).
      intros y Hy. apply in_map_iff in Hy as (f & <- & Hf).
      apply List.filter_In in Hf as [Hf _]. apply Hk, Hf. }
    destruct Hki as [Hk Hi]. split; [exact Hk|]. split; [exact Hi|].
    intros project f Hf Hp. unfold open_png_sequence. rewrite Hi.
    assert (Hin : In f (List.filter is_png listing)) by (apply List.filter_In; auto).
    destruct (List.filter is_png listing) as [|g l]; [contradiction|]. reflexivity.
  - intros Hd f Hf. destruct (String.eqb dir_path "") eqn:E0.
    + apply String.eqb_eq in E0. subst. unfold join.
      rewrite (no_sep_not_absolute _ (Hsep f Hf)). reflexivity.
    + apply String.eqb_neq in E0.
      destruct (join_chars dir_path f (Hsep f Hf) E0) as (p & Ep & Hp).
      unfold sequence_key. rewrite Ep.
      change (p ++ sep :: chars f) with (p ++ [sep] ++ chars f).
      rewrite app_assoc, first_digits_skip; [reflexivity|].
      rewrite existsb_app, Hp, Hd. reflexivity.
Qed.

(** "Paste to N Layers" adds the copied command, with its layer index
    replaced, to the current layer and to the layers after it, up to [N]
    layers further or to the last layer of the project, whichever comes
    first: one command at the end of each of these layers and on the undo
    stack, in ascending order of the layers; the other layers keep their
    edits, and the redo stack is emptied. *)
Theorem paste_to_n_layers_range :
  forall {C : Type} {EC : EditCommand C} (on : Z -> C -> C) (c : C)
         (slider num : Z) (p : Project C),
    (forall i c, get_affected_layer (on i c) = i) ->
    (0 <= slider < Z.of_nat (total_layers p))%Z ->
    (0 < num)%Z ->
    let last := Z.min (slider + num) (Z.of_nat (total_layers p) - 1) in
    let p' := paste_to_n_layers on (Some c) slider num true p in
    undo_stack p' = undo_stack p ++ map (fun i => on i c) (range slider (last + 1))
    /\ length (range slider (last + 1))
       = Z.to_nat (Z.min num (Z.of_nat (total_layers p) - 1 - slider) + 1)
    /\ redo_stack p' = []
    /\ (forall layer, (slider <= layer <= last)%Z ->
                      layer_edits p' layer = layer_edits p layer ++ [on layer c])
    /\ (forall layer, ~ (slider <= layer <= last)%Z ->
                      layer_edits p' layer = layer_edits p layer)
    /\ total_layers p' = total_layers p.
Proof.
  intros C EC on c slider num p Hon Hs Hn last p'.
  assert (Ep : p' = pasted on c p (range slider (last + 1))).
  { unfold p', paste_to_n_layers. cbn [andb].
    destruct (Z.gtb_spec num 0); [reflexivity|lia]. }
  destruct (pasted_fields on Hon c (range slider (last + 1)) p) as (H1 & H2 & H3 & H4).
  assert (Hlen : length (range slider (last + 1))
                 = Z.to_nat (Z.min num (Z.of_nat (total_layers p) - 1 - slider) + 1)).
  { unfold range. rewrite length_map, length_seq. f_equal. unfold last. lia. }
  rewrite Ep. split; [exact H1|]. split; [exact Hlen|]. split.
  { apply H2. intros E. rewrite E in Hlen. cbn in Hlen. lia. }
  split; [|split].
  - intros layer Hl. rewrite H4, filter_range_in.
    destruct (Z.leb_spec slider layer), (Z.ltb_spec layer (last + 1)); try lia.
    reflexivity.
  - intros layer Hl. rewrite H4, filter_range_in.
    destruct (Z.leb_spec slider layer), (Z.ltb_spec layer (last + 1));
      cbn [andb map]; try apply app_nil_r. lia.
  - unfold total_layers. rewrite H3. reflexivity.
Qed.

Lemma png_sequence_key_reads_folder_witness :
  image_files "/prints/job_2024" ["layer10.png"; "layer2.png"; "layer1.png"]
  = ["/prints/job_2024/layer10.png"; "/prints/job_2024/layer2.png";
     "/prints/job_2024/layer1.png"].
Proof.
  rewrite (proj1 (proj2 (proj1 (png_sequence_key_reads_folder
                                  (C := DrawRectangleCommand) "/prints/job_2024"
                                  ["layer10.png"; "layer2.png"; "layer1.png"]
                                  ltac:(intros f [<-|[<-|[<-|[]]]]; reflexivity))
                          eq_refl))).
  reflexivity.
Defined.

Lemma paste_to_n_layers_range_witness :
  let p : Project DrawRectangleCommand :=
    add_edit (rect 1) (load_new_project ["l0.png"; "l1.png"; "l2.png"] "/prints") in
  map get_affected_layer
    (undo_stack (paste_to_n_layers rectangle_on (Some (rect 1)) 1 5 true p))
  = [1; 1; 2]%Z.
Proof.
  intros p.
  destruct (paste_to_n_layers_range rectangle_on (rect 1) 1 5 p) as (H & _).
  - reflexivity.
  - cbn. lia.
  - lia.
  - rewrite H. reflexivity.
Defined.

End MainWindowSpec.

(** ** The cleanup of the session folder and the files of the layers *)

Module CleanupSpec.
Import PyStr OsPath Numeric Scan Pipeline TraceSpec SubmitSpec SubmitFlow.
Import CompletionFlow RunSpec PoolSpec PoolRun WorkerSpec OsPathSpec OutputSpec.

Section Cleanup.
Context {T : PipelineTypes} {C : Core}.
Variable w : World.

Lemma run_files :
  r_files (run w)
  = snd (cleanup w (except_clause (b_raised (try_body w started))
                      (b_ctl (try_body w started)))
           (b_files (try_body w started))).
Proof.
  unfold run. destruct (cleanup w _ _) as [c2 files]. destruct (read_flag w c2).
  reflexivity.
Qed.

Lemma cleaned_files c files :
  cleanup_runs w = true -> rmtree_error w = None ->
  snd (cleanup w c files)
  = List.filter (fun p => negb (in_tree (session_temp_folder w) p)) files.
Proof. intros Hc He. unfold cleanup. rewrite Hc, He. reflexivity. Qed.

Lemma prefix_chars : forall a b, String.prefix a (a +:+ b) = true.
Proof.
  induction a as [|x a IH]; intros b; [destruct b; reflexivity|].
  change (String x a +:+ b) with (String x (a +:+ b)).
  change (String.prefix (String x a) (String x (a +:+ b)))
    with (if ascii_dec x x then String.prefix a (a +:+ b) else false).
  destruct (ascii_dec x x); [apply IH|congruence].
Qed.

Lemma string_app_assoc (a b c : string) : (a +:+ b) +:+ c = a +:+ b +:+ c.
Proof.
  induction a as [|x a IH]; [reflexivity|].
  change (String x a +:+ b) with (String x (a +:+ b)).
  change (String x (a +:+ b) +:+ c) with (String x ((a +:+ b) +:+ c)).
  change (String x a +:+ b +:+ c) with (String x (a +:+ b +:+ c)).
  rewrite IH. reflexivity.
Qed.

Lemma endswith_append a b : b <> "" -> endswith (a +:+ b) "/" = endswith b "/".
Proof.
  intros Hb. unfold endswith. rewrite chars_append, length_app.
  assert (Hl : 1 <= length (chars b)).
  { destruct b; [congruence|]. cbn. lia. }
  cbn [chars list_ascii_of_string length].
  replace (length (chars a) + length (chars b) - 1)
    with (length (chars a) + (length (chars b) - 1)) by lia.
  rewrite skipn_app, skipn_all2 by lia. cbn [app].
  replace (length (chars a) + (length (chars b) - 1) - length (chars a))
    with (length (chars b) - 1) by lia.
  destruct (Nat.leb_spec 1 (length (chars a) + length (chars b))),
           (Nat.leb_spec 1 (length (chars b))); try lia. reflexivity.
Qed.

(** A file below [<folder>/Output] lies in the tree of [folder]. *)
Lemma output_in_tree folder f :
  folder <> "" -> has_sep f = false ->
  in_tree folder (join (join folder "Output") f) = true.
Proof.
  intros Hne Hf. unfold in_tree.
  assert (E : exists pre, join folder "" = pre /\ join folder "Output" = pre +:+ "Output").
  { unfold join. change (startswith "" "/") with false.
    change (startswith "Output" "/") with false. cbn iota.
    destruct (String.eqb folder "" || endswith folder "/").
    - exists folder. split; [|reflexivity].
      rewrite <- (str_chars (folder +:+ "")), chars_append, app_nil_r. apply str_chars.
    - exists (folder +:+ "/"). split; [|symmetry; apply string_app_assoc].
      rewrite <- (str_chars (folder +:+ "/" +:+ "")), !chars_append, app_nil_r.
      rewrite <- chars_append. apply str_chars. }
  destruct E as (pre & -> & ->).
  unfold join. rewrite (no_sep_not_absolute _ Hf).
  assert (E0 : String.eqb (pre +:+ "Output") "" = false).
  { apply String.eqb_neq. intros H. apply (f_equal chars) in H.
    rewrite chars_append in H. apply (f_equal (@length ascii)) in H.
    rewrite length_app in H. cbn in H. lia. }
  rewrite E0, endswith_append by discriminate. cbn [orb].
  change (endswith "Output" "/") with false. cbn iota.
  rewrite !string_app_assoc. apply prefix_chars.
Qed.

End Cleanup.

(** In uvtools mode the workers write below the session folder.  When the
    [finally] clause deletes that folder and [shutil.rmtree] returns, no
    file of the run's result lies below it: the file of every completed
    layer is gone, whether the run completed, failed or was stopped. *)
Theorem cleanup_deletes_layer_outputs :
  forall {T : PipelineTypes} {C : Core} (w : World) (input_path : string),
    input_of_run w = Ok input_path ->
    (forall f, In f (listdir w input_path) -> has_sep f = false) ->
    cleanup_runs w = true ->
    rmtree_error w = None ->
    processing_output_path w = join (session_temp_folder w) "Output"
    /\ (forall p, In p (r_files (run w)) -> in_tree (session_temp_folder w) p = false)
    /\ (forall i p, r_fates (run w) !! i = Some (Completed p) ->
                    in_tree (session_temp_folder w) p = true
                    /\ ~ In p (r_files (run w))).
Proof.
  intros T C w input_path Hin Hsep Hc He.
  assert (Hu : uvtools_mode w = true /\ session_temp_folder w <> "").
  { unfold cleanup_runs in Hc. rewrite !andb_true_iff, negb_true_iff in Hc.
    destruct Hc as [[[Hu _] Hn] _]. apply String.eqb_neq in Hn. auto. }
  destruct Hu as [Hu Hn].
  assert (Hout : processing_output_path w = join (session_temp_folder w) "Output").
  { unfold processing_output_path. rewrite Hu. reflexivity. }
  assert (Hfiles : forall p, In p (r_files (run w)) ->
                             in_tree (session_temp_folder w) p = false).
  { intros p Hp. rewrite run_files, cleaned_files in Hp by assumption.
    apply List.filter_In in Hp as [_ Hp]. apply negb_true_iff in Hp. exact Hp. }
  split; [exact Hout|]. split; [exact Hfiles|].
  intros i p Hi.
  destruct (completed_name w input_path Hin i p Hsep Hi) as (f & Hf & Hp & _).
  assert (Hs : has_sep f = false).
  { apply Hsep, filtered_in_listing, submitted_in_filtered. eapply lookup_In, Hf. }
  assert (Ht : in_tree (session_temp_folder w) p = true).
  { rewrite Hp, Hout. apply output_in_tree; assumption. }
  split; [exact Ht|]. intros Hp'. rewrite (Hfiles p Hp') in Ht. discriminate.
Qed.

Import Demo.

Lemma cleanup_deletes_layer_outputs_witness :
  let w := world uvtools_cfg ["a1.png"; "b2.png"] None [1; 0] in
  r_fates (run w) !! 0 = Some (Completed "/tmp/run_20250101-000000/Output/a1.png")
  /\ ~ In "/tmp/run_20250101-000000/Output/a1.png" (r_files (run w)).
Proof.
  intros w.
  assert (Hi : r_fates (run w) !! 0
               = Some (Completed "/tmp/run_20250101-000000/Output/a1.png"))
    by (vm_compute; reflexivity).
  split; [exact Hi|].
  apply (proj2 (proj2 (cleanup_deletes_layer_outputs w "/tmp/run_20250101-000000/Input"
                         eq_refl
                         ltac:(intros f [<-|[<-|[]]]; reflexivity)
                         eq_refl eq_refl)) 0 _ Hi).
Defined.

End CleanupSpec.

(** ** A stop by the user that lands in the completion loop *)

Module LateStopSpec.
Import PyStr OsPath Numeric Scan Pipeline TraceSpec SubmitSpec SubmitFlow.
Import CompletionFlow RunSpec PoolSpec PoolRun WorkerSpec UnreadableSpec RepackSpec.
Import AbortSpec StopSpec EventSpec FrameSpec ProgressSpec.


Section LateStop.
Context {T : PipelineTypes} {C : Core}.
Variable w : World.




End LateStop.


Import Demo.


End LateStopSpec.

(** ** The gradient command *)

Module GradientSpec.
Import Gradient.

(** An array of width [w]. *)
Definition rectangular (w : nat) (img : Image) : Prop :=
  forall r row, img !! r = Some row -> length row = w.

(** [img[r, c]] *)
Definition pixel (img : Image) (r c : nat) : option Z :=
  img !! r ≫= fun row => row !! c.

Section Lists.
Context {A : Type}.
Implicit Types (a m b : list A).

Lemma splice_lookup a m b i :
  (a ++ m ++ b) !! i
  = if (i <? length a)%nat then a !! i
    else if (i <? length a + length m)%nat then m !! (i - length a)
    else b !! (i - length a - length m).
Proof.
  destruct (Nat.ltb_spec i (length a)).
  - apply lookup_app_l. assumption.
  - rewrite lookup_app_r by assumption.
    destruct (Nat.ltb_spec i (length a + length m)).
    + apply lookup_app_l. lia.
    + rewrite lookup_app_r by lia. reflexivity.
Qed.

Lemma map_lookup {B} (f : A -> B) : forall l i, map f l !! i = f <$> l !! i.
Proof.
  induction l as [|x l IH]; intros [|i]; cbn; try reflexivity. apply IH.
Qed.

End Lists.

Lemma assign_row_length x0 x1 row values :
  x0 <= x1 <= length row -> length values = x1 - x0 ->
  length (assign_row x0 x1 row values) = length row.
Proof.
  intros Hx Hv. unfold assign_row. rewrite !length_app, length_take, length_drop. lia.
Qed.

Lemma assign_row_lookup x0 x1 row values c :
  x0 <= x1 <= length row -> length values = x1 - x0 ->
  assign_row x0 x1 row values !! c
  = if ((x0 <=? c) && (c <? x1))%nat then values !! (c - x0) else row !! c.
Proof.
  intros Hx Hv. unfold assign_row. rewrite splice_lookup, length_take, Hv.
  replace (x0 `min` length row) with x0 by lia.
  destruct (Nat.ltb_spec c x0), (Nat.leb_spec x0 c); try lia; cbn [andb].
  - apply lookup_take_lt. assumption.
  - destruct (Nat.ltb_spec c (x0 + (x1 - x0))), (Nat.ltb_spec c x1); try lia;
      [reflexivity|].
    rewrite lookup_drop. f_equal. lia.
Qed.

Lemma coords_length a b : length (coords a b) = Z.to_nat (b - a).
Proof. unfold coords. rewrite length_map, length_seq. reflexivity. Qed.

Lemma coords_lookup a b k :
  k < Z.to_nat (b - a) -> coords a b !! k = Some (a + Z.of_nat k)%Z.
Proof.
  intros Hk. unfold coords. rewrite map_lookup.
  rewrite lookup_seq_lt by assumption. reflexivity.
Qed.

Lemma patch_lookup cmd ys xs i j py px :
  ys !! i = Some py -> xs !! j = Some px ->
  pixel (gradient_patch cmd ys xs) i j = Some (gradient_value cmd px py).
Proof.
  intros Hy Hx. unfold pixel, gradient_patch.
  rewrite map_lookup, Hy. cbn [fmap option_fmap option_map mbind option_bind].
  rewrite map_lookup, Hx. reflexivity.
Qed.

Lemma patch_rows cmd ys xs i row :
  gradient_patch cmd ys xs !! i = Some row -> length row = length xs.
Proof.
  unfold gradient_patch. rewrite map_lookup.
  destruct (ys !! i); cbn; [|discriminate]. intros H. injection H as <-.
  apply length_map.
Qed.

Lemma forallb_lookup {A} (P : A -> bool) (l : list A) :
  (forall i x, l !! i = Some x -> P x = true) -> forallb P l = true.
Proof.
  induction l as [|x l IH]; intros H; [reflexivity|]. cbn.
  rewrite (H 0 x eq_refl). apply IH. intros i y Hy. apply (H (S i) y Hy).
Qed.

(** The assignment of a patch that has the shape of the slice. *)
Lemma assign_spec img w y0 y1 x0 x1 patch :
  rectangular w img ->
  y0 < y1 <= length img -> x0 <= x1 <= w ->
  length patch = y1 - y0 ->
  (forall i row, patch !! i = Some row -> length row = x1 - x0) ->
  exists out,
    assign img y0 y1 x0 x1 patch = Some out
    /\ length out = length img
    /\ rectangular w out
    /\ forall r c,
         pixel out r c
         = if ((y0 <=? r) && (r <? y1) && (x0 <=? c) && (c <? x1))%nat
           then pixel patch (r - y0) (c - x0)
           else pixel img r c.
Proof.
  intros Hrect Hy Hx Hp Hrows.
  assert (Hw : length (hd [] img) = w).
  { destruct img as [|row0 img]; [cbn in Hy; lia|]. apply (Hrect 0 row0 eq_refl). }
  assert (Hlr : length (take (y1 - y0) (drop y0 img)) = y1 - y0).
  { rewrite length_take, length_drop. lia. }
  unfold assign. rewrite Hlr, Hp, Nat.eqb_refl, Hw. cbn [andb].
  replace (x1 `min` w) with x1 by lia.
  rewrite forallb_lookup
    by (intros i row Hi; apply Nat.eqb_eq, (Hrows i row Hi)).
  eexists. split; [reflexivity|].
  assert (Hlz : length (zip_with (assign_row x0 x1) (take (y1 - y0) (drop y0 img)) patch)
                = y1 - y0).
  { rewrite length_zip_with, Hlr, Hp. lia. }
  assert (Hrow : forall r,
            (take y0 img
             ++ zip_with (assign_row x0 x1) (take (y1 - y0) (drop y0 img)) patch
             ++ drop y1 img) !! r
            = if ((y0 <=? r) && (r <? y1))%nat
              then img !! r ≫= fun row =>
                   patch !! (r - y0) ≫= fun values =>
                   Some (assign_row x0 x1 row values)
              else img !! r).
  { intros r. rewrite splice_lookup, length_take, Hlz.
    replace (y0 `min` length img) with y0 by lia.
    destruct (Nat.ltb_spec r y0), (Nat.leb_spec y0 r); try lia; cbn [andb].
    - apply lookup_take_lt. assumption.
    - destruct (Nat.ltb_spec r (y0 + (y1 - y0))), (Nat.ltb_spec r y1); try lia.
      + rewrite lookup_zip_with, lookup_take_lt, lookup_drop by lia.
        replace (y0 + (r - y0)) with r by lia. reflexivity.
      + rewrite lookup_drop. f_equal. lia. }
  split.
  { rewrite !length_app, length_take, Hlz, length_drop. lia. }
  split.
  { intros r row Hr. rewrite Hrow in Hr.
    destruct ((y0 <=? r) && (r <? y1))%nat; [|apply (Hrect r row Hr)].
    destruct (img !! r) as [row0|] eqn:E0; [|discriminate]. cbn in Hr.
    destruct (patch !! (r - y0)) as [values|] eqn:Ev; [|discriminate]. cbn in Hr.
    injection Hr as <-. rewrite assign_row_length.
    - apply (Hrect r row0 E0).
    - rewrite (Hrect r row0 E0). exact Hx.
    - apply (Hrows _ _ Ev). }
  intros r c. unfold pixel at 1. rewrite Hrow.
  destruct (Nat.leb_spec y0 r), (Nat.ltb_spec r y1); cbn [andb]; try reflexivity.
  destruct (img !! r) as [row0|] eqn:E0.
  2:{ apply lookup_ge_None in E0. lia. }
  destruct (patch !! (r - y0)) as [values|] eqn:Ev.
  2:{ apply lookup_ge_None in Ev. lia. }
  cbn. rewrite assign_row_lookup.
  - unfold pixel. rewrite Ev, E0. cbn.
    destruct ((x0 <=? c) && (c <? x1))%nat; reflexivity.
  - rewrite (Hrect r row0 E0). exact Hx.
  - apply (Hrows _ _ Ev).
Qed.

Lemma hd_width w (img : Image) :
  rectangular w img -> img <> [] -> length (hd [] img) = w.
Proof.
  intros Hrect Hne. destruct img as [|row0 img]; [congruence|].
  apply (Hrect 0 row0 eq_refl).
Qed.

(** A gradient that is not linear, that has no positive width and height,
    or whose rectangle does not meet the image, leaves the image as it is;
    this is so for the type "radial" that the tool offers. *)
Theorem gradient_without_effect :
  forall (cmd : DrawGradientCommand) (img : Image),
    (gradient_type cmd <> "linear"
     \/ (width cmd <= 0)%Z \/ (height cmd <= 0)%Z
     \/ (Z.of_nat (length (hd [] img)) <= x cmd)%Z
     \/ (Z.of_nat (length img) <= y cmd)%Z
     \/ (x cmd + width cmd <= 0)%Z
     \/ (y cmd + height cmd <= 0)%Z ->
     apply cmd img = Some img)
    /\ (gradient_type cmd = "radial" -> apply cmd img = Some img).
Proof.
  intros cmd img.
  assert (H : gradient_type cmd <> "linear"
              \/ (width cmd <= 0)%Z \/ (height cmd <= 0)%Z
              \/ (Z.of_nat (length (hd [] img)) <= x cmd)%Z
              \/ (Z.of_nat (length img) <= y cmd)%Z
              \/ (x cmd + width cmd <= 0)%Z
              \/ (y cmd + height cmd <= 0)%Z ->
              apply cmd img = Some img).
  { intros H. unfold apply, shape.
    destruct (String.eqb_spec (gradient_type cmd) "linear") as [E|E]; [|reflexivity].
    destruct H as [H|H]; [congruence|].
    destruct (Z.geb_spec (Z.max 0 (x cmd))
                (Z.min (Z.of_nat (length (hd [] img))) (x cmd + width cmd)));
      [reflexivity|].
    destruct (Z.geb_spec (Z.max 0 (y cmd))
                (Z.min (Z.of_nat (length img)) (y cmd + height cmd)));
      [reflexivity|].
    lia. }
  split; [exact H|]. intros E. apply H. left. rewrite E. discriminate.
Qed.

(** [apply] on a two-dimensional array never fails on the assignment of
    the patch, because the rectangle is cut to the array first.  The result
    has the shape of the image; outside the rectangle, cut to the image,
    every pixel keeps its value; and when the gradient is drawn, each pixel
    inside has the value interpolated for its own column and row. *)
Theorem gradient_keeps_frame :
  forall (cmd : DrawGradientCommand) (img : Image) (w : nat),
    rectangular w img ->
    let x0 := Z.max 0 (x cmd) in
    let x1 := Z.min (Z.of_nat w) (x cmd + width cmd) in
    let y0 := Z.max 0 (y cmd) in
    let y1 := Z.min (Z.of_nat (length img)) (y cmd + height cmd) in
    exists out,
      apply cmd img = Some out
      /\ length out = length img
      /\ rectangular w out
      /\ (forall r c,
            ~ ((y0 <= Z.of_nat r < y1)%Z /\ (x0 <= Z.of_nat c < x1)%Z) ->
            pixel out r c = pixel img r c)
      /\ (gradient_type cmd = "linear" ->
          (grad_len_sq cmd <? epsilon)%float = false ->
          forall r c,
            (y0 <= Z.of_nat r < y1)%Z -> (x0 <= Z.of_nat c < x1)%Z ->
            pixel out r c = Some (gradient_value cmd (Z.of_nat c) (Z.of_nat r))).
Proof.
  intros cmd img w Hrect x0 x1 y0 y1. unfold apply, shape.
  destruct (String.eqb_spec (gradient_type cmd) "linear") as [E|E].
  2:{ exists img. split; [reflexivity|]. split; [reflexivity|]. split; [exact Hrect|].
      split; [reflexivity|]. intros E'. congruence. }
  destruct (Z.geb_spec (Z.max 0 (x cmd))
              (Z.min (Z.of_nat (length (hd [] img))) (x cmd + width cmd))) as [Hxs|Hxs].
  { exists img. split; [reflexivity|]. split; [reflexivity|]. split; [exact Hrect|].
    split; [reflexivity|]. intros _ _ r c Hr Hc. exfalso.
    assert (Hne : img <> []) by (intros ->; cbn in *; lia).
    rewrite (hd_width w img Hrect Hne) in Hxs. lia. }
  cbn [orb].
  destruct (Z.geb_spec (Z.max 0 (y cmd))
              (Z.min (Z.of_nat (length img)) (y cmd + height cmd))) as [Hys|Hys].
  { exists img. split; [reflexivity|]. split; [reflexivity|]. split; [exact Hrect|].
    split; [reflexivity|]. intros _ _ r c Hr Hc. exfalso. lia. }
  assert (Hne : img <> []) by (intros ->; cbn in *; lia).
  rewrite (hd_width w img Hrect Hne) in *. fold x0 x1 y0 y1 in Hxs, Hys |- *.
  destruct (grad_len_sq cmd <? epsilon)%float eqn:Hg.
  { exists img. split; [reflexivity|]. split; [reflexivity|]. split; [exact Hrect|].
    split; [reflexivity|]. intros _ Hf. congruence. }
  assert (Hyb : (0 <= y0 /\ y1 <= Z.of_nat (length img))%Z) by lia.
  assert (Hxb : (0 <= x0 /\ x1 <= Z.of_nat w)%Z) by lia.
  destruct (assign_spec img w (Z.to_nat y0) (Z.to_nat y1) (Z.to_nat x0) (Z.to_nat x1)
              (gradient_patch cmd (coords y0 y1) (coords x0 x1)) Hrect)
    as (out & Ea & Hl & Hr' & Hpix).
  { lia. }
  { lia. }
  { unfold gradient_patch. rewrite length_map, coords_length. lia. }
  { intros i row Hi. rewrite (patch_rows _ _ _ _ _ Hi), coords_length. lia. }
  exists out. split; [exact Ea|]. split; [exact Hl|]. split; [exact Hr'|]. split.
  - intros r c Hout. rewrite Hpix.
    destruct (Nat.leb_spec (Z.to_nat y0) r), (Nat.ltb_spec r (Z.to_nat y1)),
             (Nat.leb_spec (Z.to_nat x0) c), (Nat.ltb_spec c (Z.to_nat x1));
      cbn [andb]; try reflexivity.
    exfalso. apply Hout. lia.
  - intros _ _ r c Hr Hc. rewrite Hpix.
    destruct (Nat.leb_spec (Z.to_nat y0) r), (Nat.ltb_spec r (Z.to_nat y1)),
             (Nat.leb_spec (Z.to_nat x0) c), (Nat.ltb_spec c (Z.to_nat x1));
      cbn [andb]; try lia.
    rewrite (patch_lookup cmd (coords y0 y1) (coords x0 x1) _ _
               (y0 + Z.of_nat (r - Z.to_nat y0))%Z (x0 + Z.of_nat (c - Z.to_nat x0))%Z)
      by (apply coords_lookup; lia).
    do 2 f_equal; lia.
Qed.

(** A white image of the given size. *)
Definition blank (h w : nat) : Image := repeat (repeat 255%Z w) h.

Definition fade : DrawGradientCommand :=
  {| layer_index := 0; x := 1; y := 0; width := 2; height := 2;
     start_color := 0; end_color := 200; gradient_type := "linear" |}.

Lemma gradient_without_effect_witness :
  apply {| layer_index := 0; x := 1; y := 0; width := 2; height := 2;
           start_color := 0; end_color := 200; gradient_type := "radial" |}
    (blank 2 4)
  = Some (blank 2 4).
Proof.
  apply (proj2 (gradient_without_effect _ (blank 2 4))). reflexivity.
Defined.

Lemma gradient_keeps_frame_witness :
  apply fade (blank 2 4) = Some [[255; 0; 50; 255]; [255; 50; 100; 255]]%Z.
Proof.
  assert (Hrect : rectangular 4 (blank 2 4)).
  { intros r row Hr. destruct r as [|[|r]]; cbn in Hr; inversion Hr; reflexivity. }
  destruct (gradient_keeps_frame fade (blank 2 4) 4 Hrect) as (out & Ea & _).
  rewrite Ea. vm_compute in Ea. injection Ea as <-. reflexivity.
Defined.

End GradientSpec.
